(** * LocalAI Assistant: intent classification, language detection,
      escalation and the SMS webhook pipeline

    A shallow embedding of [src/ai_processor.py], [src/database.py],
    [src/webhook_handler.py], [src/integrations/twilio_sms.py] and the
    SMS route of [main.py].

    Python [str] values are lists of Unicode code points.  Keyword tables
    are written as in the source and decoded from the UTF-8 bytes of the
    literal.  Python's [float] scores are modelled by rationals: every
    score is [k / n] with [n <= 30], so the comparisons the code performs
    on the correctly rounded doubles agree with the comparisons on the
    rationals (in particular [2/10] and [6/30] round to the same double as
    the literal [0.2], and [x * 2] is exact). *)

From Stdlib Require Import String Ascii.
From Stdlib Require Import List NArith ZArith QArith Qminmax Bool Lia.
Import ListNotations.
Close Scope Q_scope.
Open Scope list_scope.

Set Implicit Arguments.
Set Warnings "-register-all".

(** ** Python strings *)

Module PyStr.

(** A Python [str]: a sequence of code points. *)
Definition str := list N.

Definition str_eq_dec : forall a b : str, {a = b} + {a <> b} :=
  list_eq_dec N.eq_dec.

Definition str_eqb (a b : str) : bool :=
  if str_eq_dec a b then true else false.

(** Decoder for the UTF-8 bytes of a source literal. *)
Fixpoint utf8 (bs : list N) : str :=
  match bs with
  | [] => []
  | b :: r1 =>
    if (b <? 128)%N then b :: utf8 r1
    else match r1 with
    | [] => []
    | c :: r2 =>
      if (b <? 224)%N then ((b - 192) * 64 + (c - 128))%N :: utf8 r2
      else match r2 with
      | [] => []
      | d :: r3 =>
        if (b <? 240)%N
        then ((b - 224) * 4096 + (c - 128) * 64 + (d - 128))%N :: utf8 r3
        else match r3 with
        | [] => []
        | e :: r4 =>
          ((b - 240) * 262144 + (c - 128) * 4096
           + (d - 128) * 64 + (e - 128))%N :: utf8 r4
        end
      end
    end
  end.

(** [u "..."] is the Python string written by the literal. *)
Definition u (s : string) : str :=
  utf8 (map N_of_ascii (list_ascii_of_string s)).

(** [str.lower()] lowers code point by code point through the
    interpreter's table (a code point may lower to several, as U+0130
    does), with one exception: the capital sigma U+03A3 becomes the final
    sigma U+03C2 when a cased letter precedes it and none follows it,
    case-ignorable code points skipped on both sides, and the sigma
    U+03C3 otherwise.  The three tables of the running interpreter are an
    interface. *)
Class CaseMap := {
  lower_cp : N -> list N;
  cased : N -> bool;
  case_ignorable : N -> bool
}.

(** The first code point of [s] that is not case-ignorable. *)
Fixpoint first_relevant `{CaseMap} (s : str) : option N :=
  match s with
  | [] => None
  | c :: rest => if case_ignorable c then first_relevant rest else Some c
  end.

(** Whether a capital sigma stands in the final position of a word:
    [before] is what precedes it, nearest first, [after] what follows
    it. *)
Definition final_sigma `{CaseMap} (before after : str) : bool :=
  match first_relevant before with
  | Some c => cased c
  | None => false
  end &&
  match first_relevant after with
  | Some c => negb (cased c)
  | None => true
  end.

(** The rest [s] of a string lowered, after [before], nearest first. *)
Fixpoint lower_from `{CaseMap} (before s : str) : str :=
  match s with
  | [] => []
  | c :: rest =>
    (if (c =? 931)%N
     then [if final_sigma before rest then 962%N else 963%N]
     else lower_cp c) ++ lower_from (c :: before) rest
  end.

Definition lower `{CaseMap} (s : str) : str := lower_from [] s.

(** The tables on Basic Latin and Latin-1 Supplement, the blocks that
    hold every letter of the tables below, on U+0130 and its combining
    dot, and on the sigmas. *)
Definition latin_lower_cp (c : N) : list N :=
  if ((65 <=? c) && (c <=? 90))%N then [(c + 32)%N]
  else if ((192 <=? c) && (c <=? 222) && negb (c =? 215))%N then [(c + 32)%N]
  else if (c =? 304)%N then [105%N; 775%N]
  else if (c =? 931)%N then [963%N]
  else [c].

Definition latin_cased (c : N) : bool :=
  ((65 <=? c) && (c <=? 90) || (97 <=? c) && (c <=? 122)
   || (c =? 170) || (c =? 181) || (c =? 186)
   || (192 <=? c) && (c <=? 214) || (216 <=? c) && (c <=? 246)
   || (248 <=? c) && (c <=? 255)
   || (c =? 304) || (c =? 931) || (c =? 962) || (c =? 963))%N.

Definition latin_case_ignorable (c : N) : bool :=
  existsb (N.eqb c) [39; 46; 58; 94; 96; 168; 173; 175; 180; 183; 184; 775]%N.

Definition LatinCase : CaseMap :=
  {| lower_cp := latin_lower_cp;
     cased := latin_cased;
     case_ignorable := latin_case_ignorable |}.

(** [startswith]. *)
Fixpoint is_prefix (t s : str) : bool :=
  match t, s with
  | [], _ => true
  | _ :: _, [] => false
  | a :: t', b :: s' => (a =? b)%N && is_prefix t' s'
  end.

(** The substring test [t in s]. *)
Fixpoint contains (t s : str) : bool :=
  is_prefix t s ||
  match s with
  | [] => false
  | _ :: s' => contains t s'
  end.

(** [sep.join(parts)]. *)
Fixpoint join (sep : str) (parts : list str) : str :=
  match parts with
  | [] => []
  | [p] => p
  | p :: ps => p ++ sep ++ join sep ps
  end.

End PyStr.
Import PyStr.

(** ** [ai_processor.py]: tables *)

(** [AIProcessor._load_intent_keywords]; the dict keeps insertion order. *)
Definition _load_intent_keywords : list (str * list str) :=
  [ (u "booking",
     [ u "appointment"; u "book"; u "schedule"; u "reserve"; u "available";
       u "time"; u "slot"; u "tomorrow"; u "today"; u "next week";
       u "haircut"; u "massage"; u "service"; u "treatment"; u "consultation";
       u "rendez-vous"; u "réserver"; u "prendre"; u "disponible"; u "horaire";
       u "coupe"; u "cheveux"; u "service"; u "traitement"; u "consultation";
       u "demain"; u "aujourd'hui"; u "semaine prochaine" ]);
    (u "faq",
     [ u "hours"; u "open"; u "closed"; u "location"; u "address"; u "price";
       u "cost"; u "how much"; u "phone"; u "contact"; u "parking";
       u "payment"; u "accept"; u "credit card"; u "cash";
       u "heures"; u "ouvert"; u "fermé"; u "adresse"; u "où"; u "prix";
       u "coût"; u "combien"; u "téléphone"; u "contact"; u "stationnement";
       u "paiement"; u "acceptez"; u "carte"; u "comptant" ]);
    (u "complaint",
     [ u "disappointed"; u "terrible"; u "awful"; u "worst"; u "horrible";
       u "refund"; u "money back"; u "unsatisfied"; u "angry"; u "upset";
       u "manager"; u "supervisor"; u "complaint"; u "problem";
       u "déçu"; u "terrible"; u "affreux"; u "pire"; u "horrible";
       u "remboursement"; u "argent"; u "insatisfait"; u "fâché"; u "contrarié";
       u "gérant"; u "superviseur"; u "plainte"; u "problème" ]);
    (u "cancellation",
     [ u "cancel"; u "reschedule"; u "change"; u "move"; u "different time";
       u "annuler"; u "reporter"; u "changer"; u "déplacer"; u "autre heure" ]) ].

(** [AIProcessor._load_escalation_triggers]. *)
Definition _load_escalation_triggers : list str :=
  [ u "manager"; u "supervisor"; u "owner"; u "complaint"; u "legal";
    u "lawsuit"; u "attorney"; u "refund"; u "money back";
    u "terrible"; u "awful"; u "worst"; u "horrible"; u "disgusting";
    u "gérant"; u "superviseur"; u "propriétaire"; u "plainte"; u "légal";
    u "poursuites"; u "avocat"; u "remboursement"; u "argent";
    u "terrible"; u "affreux"; u "pire"; u "horrible"; u "dégoûtant" ].

(** The [french_words] local of [detect_language]. *)
Definition french_words : list str :=
  [ u "bonjour"; u "bonsoir"; u "salut"; u "merci"; u "svp"; u "s'il vous plaît";
    u "comment"; u "quand"; u "où"; u "pourquoi"; u "combien"; u "quel"; u "quelle";
    u "oui"; u "non"; u "je"; u "nous"; u "vous"; u "ils"; u "elles";
    u "le"; u "la"; u "les";
    u "un"; u "une"; u "des"; u "du"; u "de"; u "et"; u "ou"; u "mais";
    u "avec"; u "sans";
    u "heures"; u "ouvert"; u "fermé"; u "prix"; u "coût"; u "rendez-vous";
    u "coupe"; u "cheveux"; u "salon"; u "adresse"; u "téléphone";
    u "j'aimerais"; u "j'ai besoin"; u "pouvez-vous"; u "êtes-vous";
    u "voudrais"; u "cherche"; u "veux"; u "avoir"; u "être" ].

Section Detection.
Context `{CaseMap}.

(** [sum(1 for w in words if w in text)]. *)
Definition count_in (words : list str) (text : str) : nat :=
  length (filter (fun w => contains w text) words).

(** [AIProcessor.detect_language]. *)
Definition detect_language (message : str) : str :=
  let message_lower := lower message in
  let french_count := count_in french_words message_lower in
  if (2 <=? french_count)%nat then u "french" else u "english".

(** [AIProcessor._check_escalation_needed]. *)
Definition _check_escalation_needed (message : str) : bool :=
  let message_lower := lower message in
  existsb (fun trigger => contains trigger message_lower)
          _load_escalation_triggers.

End Detection.


(** ** Python values *)

(** The values that [json.loads], a [sqlite3.Row] and the request form
    deliver.  [PNum] is a finite [float], written as the rational it
    denotes.  A dict is an association list in insertion order. *)
Inductive pyval : Type :=
| PNone
| PBool (b : bool)
| PInt (z : Z)
| PNum (q : Q)
| PStr (s : str)
| PBytes (b : list N)
| PList (l : list pyval)
| PDict (d : list (str * pyval)).

(** Truth value of an object ([if x], [not x], [x or y]). *)
Definition truthy (v : pyval) : bool :=
  match v with
  | PNone => false
  | PBool b => b
  | PInt z => negb (z =? 0)%Z
  | PNum q => negb (Qeq_bool q 0%Q)
  | PStr s => negb (Nat.eqb (length s) 0)
  | PBytes b => negb (Nat.eqb (length b) 0)
  | PList l => negb (Nat.eqb (length l) 0)
  | PDict d => negb (Nat.eqb (length d) 0)
  end.

(** [a or b]. *)
Definition py_or (a b : pyval) : pyval := if truthy a then a else b.

(** [v == 'literal']. *)
Definition eq_str (v : pyval) (s : str) : bool :=
  match v with
  | PStr s' => str_eqb s' s
  | _ => false
  end.

Fixpoint assoc (d : list (str * pyval)) (k : str) : option pyval :=
  match d with
  | [] => None
  | (k', v) :: d' => if str_eqb k' k then Some v else assoc d' k
  end.

(** [o.get(k, default)]; [None] when [o] has no [get] (AttributeError). *)
Definition py_get (o : pyval) (k : str) (default : pyval) : option pyval :=
  match o with
  | PDict d => Some (match assoc d k with Some v => v | None => default end)
  | _ => None
  end.

Definition as_str (v : pyval) : option str :=
  match v with PStr s => Some s | _ => None end.

Fixpoint all_str (l : list pyval) : option (list str) :=
  match l with
  | [] => Some []
  | v :: l' =>
    match as_str v, all_str l' with
    | Some s, Some r => Some (s :: r)
    | _, _ => None
    end
  end.

(** [sep.join(v)]: [v] must be an iterable of [str], else TypeError. *)
Definition py_join (sep : str) (v : pyval) : option str :=
  match v with
  | PList l => option_map (join sep) (all_str l)
  | PStr s => Some (join sep (map (fun c => [c]) s))
  | PDict d => Some (join sep (map fst d))
  | PBytes [] => Some []
  | _ => None
  end.

(** [str.isspace] on one code point; [str.strip()] removes these. *)
Definition is_space (c : N) : bool :=
  ((9 <=? c) && (c <=? 13) || (28 <=? c) && (c <=? 32) || (c =? 133)
   || (c =? 160) || (c =? 5760) || (8192 <=? c) && (c <=? 8202)
   || (c =? 8232) || (c =? 8233) || (c =? 8239) || (c =? 8287)
   || (c =? 12288))%N.

Fixpoint lstrip (s : str) : str :=
  match s with
  | [] => []
  | c :: s' => if is_space c then lstrip s' else s
  end.

Definition strip (s : str) : str := rev (lstrip (rev (lstrip s))).

(** ** Exceptions *)

(** The exceptions that the code below meets; each is an [Exception], so
    every [except Exception] catches it. *)
Inductive type_error : Type :=
| NotSubscriptable (type_name : str)   (* o['k'], o without __getitem__ *)
| BadIndex (type_name : str)           (* o['k'], o a str, bytes or list *)
| NotOrdered (left right : str)        (* a > b *)
| StrInBytes                           (* 'word' in b'...' *)
| NotJoinable                          (* ', '.join(o) *)
| NoLen (type_name : str)              (* len(o) *)
| BadOperand (left right : str)        (* a + b, format(a, spec) *)
| NotCallable (type_name : str)        (* o(...) *)
| BadCall.                             (* wrong number of arguments *)

Inductive exn : Type :=
| AttributeError (type_name attr : str)
| KeyError (key : str)
| TypeError (why : type_error)
| NameError (name : str)
| ModuleNotFoundError (name : str)
| OtherException (msg : str).

(** A call returns or raises. *)
Inductive outcome (A : Type) : Type :=
| Returns (a : A)
| Raises (e : exn).
Arguments Returns {A} a.
Arguments Raises {A} e.

(** [json.loads]: a value, [json.JSONDecodeError], or another exception
    (RecursionError, UnicodeDecodeError on bytes).  Of the reader only
    this is assumed: it reads the two literals that the database code
    passes to it. *)
Inductive json_outcome : Type :=
| JsonValue (v : pyval)
| JsonDecodeError
| JsonOtherError (e : exn).

Class Json := {
  json_loads : str -> json_outcome;
  json_loads_bytes : list N -> json_outcome;
  json_loads_empty_list : json_loads (u "[]") = JsonValue (PList []);
  json_loads_empty_dict : json_loads (u "{}") = JsonValue (PDict [])
}.

(** ** [ai_processor.py]: records, prompts and the SDK *)

(** [MessageIntent].  [entities] is computed by the total function
    [_extract_entities] and read by no operation below; it is left out. *)
Record MessageIntent : Type := {
  mi_intent : pyval;
  mi_confidence : pyval;
  requires_escalation : pyval
}.

(** [AIResponse]; [booking_info] keeps its default [None] everywhere. *)
Record AIResponse : Type := {
  text : str;
  confidence : pyval;
  intent : pyval;
  escalate : pyval
}.

Inductive language : Type := French | English.

(** The prompt templates of the source, one per f-string. *)
Inductive template : Type :=
| ClassifyFr | ClassifyEn
| FrBooking | FrFaqHours | FrFaqPrices | FrFaqAddress | FrFaqOther
| FrComplaint | FrGeneral
| EnBooking | EnFaq | EnComplaint | EnGeneral.

Definition template_language (t : template) : language :=
  match t with
  | ClassifyFr | FrBooking | FrFaqHours | FrFaqPrices | FrFaqAddress
  | FrFaqOther | FrComplaint | FrGeneral => French
  | ClassifyEn | EnBooking | EnFaq | EnComplaint | EnGeneral => English
  end.

Definition is_classify (t : template) : bool :=
  match t with ClassifyFr | ClassifyEn => true | _ => false end.

(** A prompt: its template, the message and the interpolated values. *)
Record prompt : Type := {
  p_template : template;
  p_message : str;
  p_fields : list pyval
}.

(** What the caller of a method of this program may hold: a plain value
    or an instance of one of the two dataclasses. *)
Inductive pyobj : Type :=
| OVal (v : pyval)
| OIntent (mi : MessageIntent)
| OResponse (r : AIResponse).

Inductive level : Type := INFO | WARNING | ERROR.

(** An HTTP response, or the [HTTPException] that the framework turns
    into one. *)
Inductive http_response : Type :=
| PlainTextResponse (body : str) (status_code : N)
| HTTPException (status_code : N) (detail : str).

(** What the program does to the outside world, in order.  A log event
    holds the format string as the source writes it. *)
Inductive event : Type :=
| EvGenerate (p : prompt)              (* self.model.generate_content(prompt) *)
| EvLog (lvl : level) (what : str)     (* logger.info / warning / error *)
| EvSql (statement : str) (params : list pyval)  (* cursor.execute *)
| EvSms (to from : str) (body : pyobj) (* client.messages.create *)
| EvCall (callee : str) (args : list pyobj)  (* a method of a collaborator *)
| EvRespond (response : http_response). (* the HTTP response goes out *)

(** ** Effects: a computation reads the history and appends events *)

Module Eff.

Definition M (A : Type) : Type := list event -> A * list event.

Definition ret {A} (a : A) : M A := fun _ => (a, []).

Definition bind {A B} (m : M A) (f : A -> M B) : M B :=
  fun h =>
    let (a, e1) := m h in
    let (b, e2) := f a (h ++ e1) in
    (b, e1 ++ e2).

Definition emit (e : event) : M unit := fun _ => (tt, [e]).

Definition history : M (list event) := fun h => (h, []).

(** Result and trace of a computation started after history [h]. *)
Definition value {A} (m : M A) (h : list event) : A := fst (m h).
Definition trace {A} (m : M A) (h : list event) : list event := snd (m h).

End Eff.
Import Eff.

Notation "x <- m ;; k" := (bind m (fun x => k))
  (at level 61, m at next level, right associativity).
Notation "m ;;; k" := (bind m (fun _ => k))
  (at level 61, right associativity).
Notation "'let?' x := e 'in' k" :=
  (match e with Some x => k | None => None end)
  (at level 61, x name, e at next level, right associativity).

(** Computations that may raise. *)
Definition E (A : Type) : Type := M (outcome A).

Definition ok {A} (a : A) : E A := ret (Returns a).

Definition raise {A} (e : exn) : E A := ret (Raises e).

Definition lift {A} (m : M A) : E A := bind m (fun a => ok a).

(** The value of an expression that is evaluated without effects. *)
Definition pure {A} (o : outcome A) : E A := ret o.

Definition bindE {A B} (m : E A) (k : A -> E B) : E B :=
  bind m (fun r => match r with Returns a => k a | Raises e => raise e end).

(** [try: m except Exception as e: handler e]. *)
Definition try_except {A} (m : E A) (handler : exn -> M A) : M A :=
  bind m (fun r => match r with Returns a => ret a | Raises e => handler e end).

Notation "x <~ m ;; k" := (bindE m (fun x => k))
  (at level 61, m at next level, right associativity).
Notation "m ~;; k" := (bindE m (fun _ => k))
  (at level 61, right associativity).

(** Sequencing of effect-free steps that may raise. *)
Definition and_then {A B} (o : outcome A) (k : A -> outcome B) : outcome B :=
  match o with Returns a => k a | Raises e => Raises e end.

(** A prompt was sent to the model. *)
Definition is_generate (e : event) : bool :=
  match e with EvGenerate _ => true | _ => false end.

Definition prompts_of (t : list event) : list prompt :=
  flat_map (fun e => match e with EvGenerate p => [p] | _ => [] end) t.

(** ** [ai_processor.py]: the processor *)

Definition Qlt_b (a b : Q) : bool := negb (Qle_bool b a).

(** [max(pairs, key=score)]: the first pair of maximal score. *)
Fixpoint max_by (best : str * Q) (rest : list (str * Q)) : str * Q :=
  match rest with
  | [] => best
  | x :: r => if Qlt_b (snd best) (snd x) then max_by x r else max_by best r
  end.

Section AIProcessor.
Context `{CaseMap} `{Json}.

(** The hosted model: given what happened so far and a prompt,
    [generate_content(prompt).text] is a string or raises. *)
Variable gemini : list event -> prompt -> option str.

(** [AIProcessor._safe_generate_content]. *)
Definition _safe_generate_content (p : prompt) : M (option str) :=
  h <- history ;;
  emit (EvGenerate p) ;;;
  match gemini h p with
  | Some response_text => ret (Some response_text)
  | None => emit (EvLog ERROR (u "Gemini API error: {str(e)}")) ;;; ret None
  end.

(** [if response_text:] on an [Optional[str]]. *)
Definition nonempty (r : option str) : option str :=
  match r with
  | Some (c :: s) => Some (c :: s)
  | _ => None
  end.

(** [any(word in text for word in words)]. *)
Definition any_in (words : list str) (text : str) : bool :=
  existsb (fun word => contains word text) words.

(** [AIProcessor._fallback_intent_classification]. *)
Definition _fallback_intent_classification (message : str) : MessageIntent :=
  let message_lower := lower message in
  let intent :=
    if any_in [u "book"; u "appointment"; u "schedule"; u "rendez-vous";
               u "réserver"] message_lower then u "booking"
    else if any_in [u "hours"; u "open"; u "price"; u "cost"; u "heures";
                    u "ouvert"; u "prix"] message_lower then u "faq"
    else if any_in [u "terrible"; u "awful"; u "complaint"; u "affreux";
                    u "plainte"] message_lower then u "complaint"
    else u "general" in
  {| mi_intent := PStr intent;
     mi_confidence := PNum (6 # 10)%Q;
     requires_escalation := PBool (_check_escalation_needed message) |}.

(** The prompt of [_ai_classify_intent]; [None] when building it raises. *)
Definition classify_prompt (message : str) (business : pyval) : option prompt :=
  let language := detect_language message in
  let? business_type := py_get business (u "type") (PStr (u "salon de coiffure")) in
  let? services := py_get business (u "services") (PList []) in
  let? services_list := py_join (u ", ") services in
  let? business_hours :=
    py_get business (u "hours") (PStr (u "Heures d'affaires standard")) in
  if str_eqb language (u "french") then
    Some {| p_template := ClassifyFr; p_message := message;
            p_fields := [business_type; PStr services_list; business_hours] |}
  else
    let? business_type_en := py_get business (u "type") (PStr (u "local business")) in
    let? business_hours_en :=
      py_get business (u "hours") (PStr (u "Standard business hours")) in
    Some {| p_template := ClassifyEn; p_message := message;
            p_fields := [business_type_en; PStr services_list; business_hours_en] |}.

(** [json.loads(response_text.strip())] read as a [MessageIntent];
    [None] when any step raises. *)
Definition intent_of_reply (response_text : str) : option MessageIntent :=
  match json_loads (strip response_text) with
  | JsonValue (PDict result) =>
    let? i := assoc result (u "intent") in
    let? c := assoc result (u "confidence") in
    Some {| mi_intent := i;
            mi_confidence := c;
            requires_escalation :=
              match assoc result (u "escalate") with
              | Some e => e
              | None => PBool false
              end |}
  | _ => None
  end.

(** [AIProcessor._ai_classify_intent]. *)
Definition _ai_classify_intent (message : str) (business : pyval)
  : M MessageIntent :=
  match classify_prompt message business with
  | None =>
    emit (EvLog ERROR (u "AI classification error: {str(e)}")) ;;;
    ret (_fallback_intent_classification message)
  | Some p =>
    r <- _safe_generate_content p ;;
    match nonempty r with
    | Some response_text =>
      match intent_of_reply response_text with
      | Some mi => ret mi
      | None =>
        emit (EvLog ERROR (u "AI classification error: {str(e)}")) ;;;
        ret (_fallback_intent_classification message)
      end
    | None => ret (_fallback_intent_classification message)
    end
  end.

(** The [keyword_scores] dict of [classify_intent], in insertion order. *)
Definition keyword_scores (message_lower : str) : list (str * Q) :=
  flat_map
    (fun entry : str * list str =>
       let (intent, keywords) := entry in
       let score := count_in keywords message_lower in
       if (0 <? score)%nat
       then [(intent, (Z.of_nat score # Pos.of_nat (length keywords))%Q)]
       else [])
    _load_intent_keywords.

(** [AIProcessor.classify_intent]. *)
Definition classify_intent (message : str) (business : pyval)
  : M MessageIntent :=
  let message_lower := lower message in
  match keyword_scores message_lower with
  | first :: rest =>
    let (top_intent, top_score) := max_by first rest in
    if Qlt_b (2 # 10)%Q top_score then
      ret {| mi_intent := PStr top_intent;
             mi_confidence := PNum (Qmin (top_score * 2) 1)%Q;
             requires_escalation := PBool (_check_escalation_needed message) |}
    else _ai_classify_intent message business
  | [] => _ai_classify_intent message business
  end.

(** The prompt of [_generate_french_response]; [None] when building
    it raises. *)
Definition french_prompt (message : str) (business : pyval)
           (intent : MessageIntent) : option prompt :=
  let low := lower message in
  if eq_str (mi_intent intent) (u "booking") then
    let? name := py_get business (u "name") (PStr (u "Salon de Coiffure")) in
    let? services := py_get business (u "services") (PList []) in
    let? services_list := py_join (u ", ") services in
    let? hours := py_get business (u "hours") (PStr (u "Lun-Ven 9h-18h")) in
    Some {| p_template := FrBooking; p_message := message;
            p_fields := [name; PStr services_list; hours] |}
  else if eq_str (mi_intent intent) (u "faq") then
    if contains (u "heure") low || contains (u "ouvert") low then
      let? hours := py_get business (u "hours")
                      (PStr (u "Lun-Sam 9h-19h, Fermé Dimanche")) in
      Some {| p_template := FrFaqHours; p_message := message;
              p_fields := [hours] |}
    else if contains (u "prix") low || contains (u "coût") low
            || contains (u "combien") low then
      Some {| p_template := FrFaqPrices; p_message := message;
              p_fields := [] |}
    else if contains (u "adresse") low || contains (u "où") low then
      let? address := py_get business (u "address")
                        (PStr (u "123 rue Principale")) in
      Some {| p_template := FrFaqAddress; p_message := message;
              p_fields := [address] |}
    else
      let? name := py_get business (u "name") PNone in
      let? address := py_get business (u "address") PNone in
      let? hours := py_get business (u "hours") PNone in
      Some {| p_template := FrFaqOther; p_message := message;
              p_fields := [name; address; hours] |}
  else if eq_str (mi_intent intent) (u "complaint") then
    let? name := py_get business (u "name") PNone in
    Some {| p_template := FrComplaint; p_message := message;
            p_fields := [name] |}
  else
    let? name := py_get business (u "name") PNone in
    Some {| p_template := FrGeneral; p_message := message;
            p_fields := [name] |}.

(** The prompt of [_generate_english_response]. *)
Definition english_prompt (message : str) (business : pyval)
           (intent : MessageIntent) : option prompt :=
  if eq_str (mi_intent intent) (u "booking") then
    let? name := py_get business (u "name") (PStr (u "Local Business")) in
    let? type := py_get business (u "type") (PStr (u "service business")) in
    let? services := py_get business (u "services") (PList []) in
    let? services_list := py_join (u ", ") services in
    let? hours := py_get business (u "hours") (PStr (u "Mon-Fri 9am-6pm")) in
    Some {| p_template := EnBooking; p_message := message;
            p_fields := [name; type; PStr services_list; hours] |}
  else if eq_str (mi_intent intent) (u "faq") then
    let? name := py_get business (u "name") (PStr (u "Local Business")) in
    let? type := py_get business (u "type") (PStr (u "service business")) in
    let? address := py_get business (u "address")
                      (PStr (u "Contact us for location")) in
    let? hours := py_get business (u "hours")
                    (PStr (u "Standard business hours")) in
    let? services := py_get business (u "services") (PList []) in
    let? services_list := py_join (u ", ") services in
    Some {| p_template := EnFaq; p_message := message;
            p_fields := [name; type; address; hours; PStr services_list] |}
  else if eq_str (mi_intent intent) (u "complaint") then
    let? name := py_get business (u "name") PNone in
    Some {| p_template := EnComplaint; p_message := message;
            p_fields := [name] |}
  else
    let? name := py_get business (u "name") (PStr (u "Local Business")) in
    Some {| p_template := EnGeneral; p_message := message;
            p_fields := [name] |}.

Definition french_fallback : str :=
  u "Merci de nous contacter! Comment puis-je vous aider aujourd'hui?".
Definition french_error_reply : str :=
  u "Merci de votre message! Quelqu'un de notre équipe vous contactera bientôt.".
Definition english_fallback : str :=
  u "Thanks for reaching out! How can I help you today?".
Definition english_error_reply : str :=
  u "Thanks for your message! Someone from our team will get back to you shortly.".

(** The [AIResponse(...)] built at the end of both generators. *)
Definition reply (response_text : str) (intent : MessageIntent) : AIResponse :=
  {| text := response_text;
     confidence := mi_confidence intent;
     intent := mi_intent intent;
     escalate := py_or (requires_escalation intent)
                       (PBool (eq_str (mi_intent intent) (u "complaint"))) |}.

(** The [AIResponse(...)] of both [except] branches. *)
Definition error_reply (response_text : str) (intent : MessageIntent)
  : AIResponse :=
  {| text := response_text;
     confidence := PNum (6 # 10)%Q;
     intent := mi_intent intent;
     escalate := PBool false |}.

(** [AIProcessor._generate_french_response]. *)
Definition _generate_french_response (message : str) (business : pyval)
           (intent : MessageIntent) : M AIResponse :=
  match french_prompt message business intent with
  | Some p =>
    r <- _safe_generate_content p ;;
    let response_text :=
      match nonempty r with
      | Some t => t
      | None => french_fallback
      end in
    ret (reply response_text intent)
  | None =>
    emit (EvLog ERROR (u "French response error: {str(e)}")) ;;;
    ret (error_reply french_error_reply intent)
  end.

(** [AIProcessor._generate_english_response]. *)
Definition _generate_english_response (message : str) (business : pyval)
           (intent : MessageIntent) : M AIResponse :=
  match english_prompt message business intent with
  | Some p =>
    r <- _safe_generate_content p ;;
    let response_text :=
      match nonempty r with
      | Some t => t
      | None => english_fallback
      end in
    ret (reply response_text intent)
  | None =>
    emit (EvLog ERROR (u "English response error: {str(e)}")) ;;;
    ret (error_reply english_error_reply intent)
  end.

(** [AIProcessor.generate_response]; its [conversation] argument is
    never read. *)
Definition generate_response (message : str) (business : pyval)
  : M AIResponse :=
  let language := detect_language message in
  intent_result <- classify_intent message business ;;
  if str_eqb language (u "french")
  then _generate_french_response message business intent_result
  else _generate_english_response message business intent_result.

End AIProcessor.

(** ** [database.py] *)

(** What the database code meets between [self.get_connection()] and
    [conn.close()]: the exception that opening the connection or the
    cursor raised, before any statement was executed; the exception that
    [cursor.execute] or a later step raised (binding, executing,
    fetching, committing, closing); or the rows that were fetched, each
    as [dict(row)] reads it. *)
Inductive sql_result : Type :=
| SqlNoCursor (e : exn)
| SqlError (e : exn)
| SqlRows (rows : list (list (str * pyval))).

(** [d[k] = v]: the entry keeps its place, a new key goes last. *)
Fixpoint update (d : list (str * pyval)) (k : str) (v : pyval)
  : list (str * pyval) :=
  match d with
  | [] => [(k, v)]
  | (k', v') :: d' =>
    if str_eqb k' k then (k', v) :: d' else (k', v') :: update d' k v
  end.

(** [d.get(k, default)] on a dict. *)
Definition get (d : list (str * pyval)) (k : str) (default : pyval) : pyval :=
  match assoc d k with Some v => v | None => default end.

Definition select_business : str :=
  u "SELECT * FROM businesses WHERE phone = ?".

(** The INSERT of [log_conversation], up to white space. *)
Definition insert_conversation : str :=
  u "INSERT INTO conversations (business_id, customer_phone, platform, inbound_message, outbound_message, intent, ai_confidence, escalated, response_time_ms) VALUES (?, ?, ?, ?, ?, ?, ?, ?, ?)".

Section Database.
Context `{Json}.

(** The database file, as [sqlite3] answers after what happened so far. *)
Variable sqlite : list event -> str -> list pyval -> sql_result.

(** From [self.get_connection()] to [conn.close()]; [EvSql] is the call
    of [cursor.execute], which is not reached without a cursor. *)
Definition execute (statement : str) (params : list pyval) : M sql_result :=
  h <- history ;;
  match sqlite h statement params with
  | SqlNoCursor e => ret (SqlNoCursor e)
  | answer => emit (EvSql statement params) ;;; ret answer
  end.

(** [try: json.loads(stored or literal)
     except (json.JSONDecodeError, TypeError): default]. *)
Definition loads_or (stored : pyval) (literal : str) (default : pyval)
  : outcome pyval :=
  match (if truthy stored then stored else PStr literal) with
  | PStr s =>
    match json_loads s with
    | JsonValue v => Returns v
    | JsonDecodeError => Returns default
    | JsonOtherError e => Raises e
    end
  | PBytes b =>
    match json_loads_bytes b with
    | JsonValue v => Returns v
    | JsonDecodeError => Returns default
    | JsonOtherError e => Raises e
    end
  | _ => Returns default   (* TypeError: the JSON object must be str, bytes *)
  end.

(** [business[column] = loads_or(business[column])]. *)
Definition parse_field (business : list (str * pyval)) (column literal : str)
           (default : pyval) : outcome (list (str * pyval)) :=
  match assoc business column with
  | None => Raises (KeyError column)
  | Some stored =>
    and_then (loads_or stored literal default)
             (fun v => Returns (update business column v))
  end.

(** The three JSON columns, in the order the code parses them. *)
Definition parse_json_fields (row : list (str * pyval))
  : outcome (list (str * pyval)) :=
  and_then (parse_field row (u "services") (u "[]") (PList [])) (fun b1 =>
  and_then (parse_field b1 (u "faq_data") (u "{}") (PDict [])) (fun b2 =>
  parse_field b2 (u "pricing_data") (u "{}") (PDict []))).

(** [Database.get_business_by_phone]. *)
Definition get_business_by_phone (phone : pyval) : M pyval :=
  try_except
    (r <- execute select_business [phone] ;;
     match r with
     | SqlNoCursor e | SqlError e => raise e
     | SqlRows [] => ok PNone
     | SqlRows (row :: _) =>
       if truthy (PDict row)
       then business <~ pure (parse_json_fields row) ;; ok (PDict business)
       else ok PNone
     end)
    (fun e =>
       emit (EvLog ERROR (u "Error getting business by phone: {str(e)}")) ;;;
       ret PNone).

(** [Database.log_conversation]. *)
Definition log_conversation (conversation_data : list (str * pyval))
           (response_time_ms : pyval) : M bool :=
  r <- execute insert_conversation
         [ get conversation_data (u "business_id") PNone;
           get conversation_data (u "customer_phone") PNone;
           get conversation_data (u "platform") (PStr (u "sms"));
           get conversation_data (u "inbound_message") PNone;
           get conversation_data (u "outbound_message") PNone;
           get conversation_data (u "intent") PNone;
           get conversation_data (u "ai_confidence") (PNum 0%Q);
           get conversation_data (u "escalated") (PBool false);
           response_time_ms ] ;;
  match r with
  | SqlNoCursor e | SqlError e =>
    emit (EvLog ERROR (u "Conversation logging error: {str(e)}")) ;;; ret false
  | SqlRows _ => ret true
  end.

End Database.

(** ** Objects and their methods *)

Definition type_name (o : pyobj) : str :=
  match o with
  | OVal PNone => u "NoneType"
  | OVal (PBool _) => u "bool"
  | OVal (PInt _) => u "int"
  | OVal (PNum _) => u "float"
  | OVal (PStr _) => u "str"
  | OVal (PBytes _) => u "bytes"
  | OVal (PList _) => u "list"
  | OVal (PDict _) => u "dict"
  | OIntent _ => u "MessageIntent"
  | OResponse _ => u "AIResponse"
  end.

(** Truth value; an instance of a dataclass is true. *)
Definition obj_truthy (o : pyobj) : bool :=
  match o with
  | OVal v => truthy v
  | _ => true
  end.

(** [o == 'literal']; a dataclass instance equals no string. *)
Definition obj_eq_str (o : pyobj) (s : str) : bool :=
  match o with
  | OVal v => eq_str v s
  | _ => false
  end.

(** [o['k']]. *)
Definition subscript (o : pyobj) (k : str) : outcome pyobj :=
  match o with
  | OVal (PDict d) =>
    match assoc d k with
    | Some v => Returns (OVal v)
    | None => Raises (KeyError k)
    end
  | OVal (PStr _) | OVal (PBytes _) | OVal (PList _) =>
    Raises (TypeError (BadIndex (type_name o)))
  | _ => Raises (TypeError (NotSubscriptable (type_name o)))
  end.

(** [o.get('k', default)]. *)
Definition obj_get (o : pyobj) (k : str) (default : pyval) : outcome pyobj :=
  match o with
  | OVal (PDict d) => Returns (OVal (get d k default))
  | _ => Raises (AttributeError (type_name o) (u "get"))
  end.

(** [v.strip()]. *)
Definition is_bytes_space (c : N) : bool :=
  ((9 <=? c) && (c <=? 13) || (c =? 32))%N.

Fixpoint bytes_lstrip (b : list N) : list N :=
  match b with
  | [] => []
  | c :: b' => if is_bytes_space c then bytes_lstrip b' else b
  end.

Definition py_strip (v : pyval) : outcome pyval :=
  match v with
  | PStr s => Returns (PStr (strip s))
  | PBytes b => Returns (PBytes (rev (bytes_lstrip (rev (bytes_lstrip b)))))
  | _ => Raises (AttributeError (type_name (OVal v)) (u "strip"))
  end.

(** [v > x] for a float [x]. *)
Definition gt_float (o : pyobj) (x : Q) : outcome bool :=
  match o with
  | OVal (PInt z) => Returns (Qlt_b x (inject_Z z))
  | OVal (PNum y) => Returns (Qlt_b x y)
  | OVal (PBool b) => Returns (Qlt_b x (if b then 1 else 0)%Q)
  | _ => Raises (TypeError (NotOrdered (type_name o) (u "float")))
  end.

(** [str(v)], as an f-string interpolates a value. *)
Class Repr := { py_str : pyobj -> str }.

(** A bound method: called with its arguments, it runs, then returns or
    raises. *)
Definition method : Type := list pyobj -> E pyobj.

(** [obj.name]: the method, or AttributeError. *)
Definition getattr (class_name name : str) (m : option method) : outcome method :=
  match m with
  | Some f => Returns f
  | None => Raises (AttributeError class_name name)
  end.

(** [await f(args)]. *)
Definition invoke (name : str) (f : method) (args : list pyobj) : E pyobj :=
  emit (EvCall name args) ;;; f args.

(** The attributes that [webhook_handler.py] looks up on [self.db]. *)
Record DbObject : Type := {
  db_class : str;
  db_get_business_by_phone : option method;
  db_get_conversation : option method;
  db_log_interaction : option method;
  db_create_priority_alert : option method
}.

(** The attributes that it looks up on [self.ai]. *)
Record AiObject : Type := {
  ai_class : str;
  ai_classify_intent : option method;
  ai_generate_response : option method;
  ai_extract_booking_info : option method;
  ai_answer_faq : option method;
  ai_analyze_complaint : option method
}.

(** The attribute that it looks up on [twilio]. *)
Record SmsObject : Type := {
  sms_class : str;
  sms_send_sms : option method
}.

(** ** [webhook_handler.py] *)

(** The two shapes of the dict that [process_message] returns. *)
Inductive result : Type :=
| NotConfigured                  (* {"error": "Business not configured"} *)
| Failed (e : exn)               (* {"error": str(e)} *)
| Reply (response_text intent escalate : pyobj) (booking_created : bool).

(** ['error' in result]. *)
Definition has_error (r : result) : bool :=
  match r with
  | Reply _ _ _ _ => false
  | _ => true
  end.

Definition nl : str := [10%N].

Definition dict (entries : list (str * pyval)) : pyobj := OVal (PDict entries).

Definition unwrap (o : pyobj) : pyval :=
  match o with OVal v => v | _ => PNone end.

Section MessageProcessor.
Context `{Repr}.

(** [self.db] and [self.ai]. *)
Variable db : DbObject.
Variable ai : AiObject.

(** [MessageProcessor.handle_booking_request].  The import of
    [integrations.calendar_api], a module that the repository does not
    have, raises; what follows it in the source is never run. *)
Definition handle_booking_request (message business conversation : pyobj)
  : M pyobj :=
  try_except
    (extract <~ pure (getattr (ai_class ai) (u "extract_booking_info")
                              (ai_extract_booking_info ai)) ;;
     booking_details <~ invoke (u "extract_booking_info") extract
                               [message; conversation] ;;
     service <~ pure (obj_get booking_details (u "service") PNone) ;;
     more <~ (if obj_truthy service
              then datetime <~ pure (obj_get booking_details (u "datetime") PNone) ;;
                   ok (negb (obj_truthy datetime))
              else ok true) ;;
     if (more : bool) then
       services <~ pure (obj_get business (u "services") (PList [])) ;;
       match py_join (u ", ") (unwrap services) with
       | Some services_list =>
         ok (dict
               [(u "text",
                 PStr (u "I'd be happy to help you book an appointment! I need a bit more info:"
                       ++ nl ++ nl
                       ++ u "• What service would you like? (" ++ services_list ++ u ")"
                       ++ nl
                       ++ u "• What day and time work for you?" ++ nl ++ nl
                       ++ u "Example: 'Haircut on Friday at 2pm'"));
                (u "escalate", PBool false)])
       | None => raise (TypeError NotJoinable)
       end
     else raise (ModuleNotFoundError (u "integrations.calendar_api")))
    (fun e =>
       emit (EvLog ERROR (u "Booking error: {str(e)}")) ;;;
       ret (dict
              [(u "text",
                PStr (u "I'm having trouble with bookings right now. Let me connect you with someone who can help!"));
               (u "escalate", PBool true)])).

(** [MessageProcessor.handle_faq_request]. *)
Definition handle_faq_request (message business : pyobj) : E pyobj :=
  answer_faq <~ pure (getattr (ai_class ai) (u "answer_faq") (ai_answer_faq ai)) ;;
  faq_data <~ pure (subscript business (u "faq_data")) ;;
  faq_response <~ invoke (u "answer_faq") answer_faq [message; faq_data] ;;
  confidence <~ pure (subscript faq_response (u "confidence")) ;;
  sure <~ pure (gt_float confidence (8 # 10)%Q) ;;
  if (sure : bool) then
    answer <~ pure (subscript faq_response (u "answer")) ;;
    confidence' <~ pure (subscript faq_response (u "confidence")) ;;
    ok (dict [(u "text", unwrap answer);
              (u "escalate", PBool false);
              (u "confidence", unwrap confidence')])
  else
    answer <~ pure (subscript faq_response (u "answer")) ;;
    phone <~ pure (subscript business (u "phone")) ;;
    confidence' <~ pure (subscript faq_response (u "confidence")) ;;
    ok (dict [(u "text",
               PStr (u "I'm not completely sure about that. Here's what I think:"
                     ++ nl ++ nl ++ py_str answer ++ nl ++ nl
                     ++ u "For the most accurate info, you can call us at "
                     ++ py_str phone
                     ++ u " or I can have someone get back to you."));
              (u "escalate", PBool false);
              (u "confidence", unwrap confidence')]).

(** [MessageProcessor.handle_complaint]. *)
Definition handle_complaint (message business customer_phone : pyobj)
  : E pyobj :=
  analyze <~ pure (getattr (ai_class ai) (u "analyze_complaint")
                           (ai_analyze_complaint ai)) ;;
  analysis <~ invoke (u "analyze_complaint") analyze [message] ;;
  create <~ pure (getattr (db_class db) (u "create_priority_alert")
                          (db_create_priority_alert db)) ;;
  business_id <~ pure (subscript business (u "id")) ;;
  severity <~ pure (subscript analysis (u "severity")) ;;
  sentiment <~ pure (subscript analysis (u "sentiment")) ;;
  urgent <~ pure (subscript analysis (u "urgent")) ;;
  invoke (u "create_priority_alert") create
         [business_id; customer_phone; message; severity; sentiment; urgent] ~;;
  phone <~ pure (subscript business (u "phone")) ;;
  ok (dict [(u "text",
             PStr (u "I understand you're having an issue, and I want to make sure this gets resolved quickly. I've notified our manager and someone will contact you within the next hour."
                   ++ nl ++ nl
                   ++ u "In the meantime, you can also call us directly at "
                   ++ py_str phone ++ u "."));
            (u "escalate", PBool true)]).

(** The body of the [try] of [process_message].  The dict passed to
    [log_interaction] is recorded by its values, in order, without the
    timestamp. *)
Definition process_message_body (message_data : list (str * pyval))
  : E result :=
  let customer_phone := get message_data (u "from") PNone in
  let business_phone := get message_data (u "to") PNone in
  message_text <~ pure (py_strip (get message_data (u "body") (PStr []))) ;;
  let platform := get message_data (u "platform") (PStr (u "sms")) in
  lift (emit (EvLog INFO (u "Processing {platform} message from {customer_phone}"))) ~;;
  get_business <~ pure (getattr (db_class db) (u "get_business_by_phone")
                                (db_get_business_by_phone db)) ;;
  business <~ invoke (u "get_business_by_phone") get_business
                     [OVal business_phone] ;;
  if negb (obj_truthy business) then
    lift (emit (EvLog WARNING (u "No business found for phone {business_phone}"))) ~;;
    ok NotConfigured
  else
    get_conversation <~ pure (getattr (db_class db) (u "get_conversation")
                                      (db_get_conversation db)) ;;
    business_id <~ pure (subscript business (u "id")) ;;
    conversation <~ invoke (u "get_conversation") get_conversation
                           [OVal customer_phone; business_id] ;;
    classify <~ pure (getattr (ai_class ai) (u "classify_intent")
                              (ai_classify_intent ai)) ;;
    intent <~ invoke (u "classify_intent") classify
                     [OVal message_text; business] ;;
    lift (emit (EvLog INFO (u "Message intent classified as: {intent}"))) ~;;
    response <~
      (if obj_eq_str intent (u "booking") then
         lift (handle_booking_request (OVal message_text) business conversation)
       else if obj_eq_str intent (u "faq") then
         handle_faq_request (OVal message_text) business
       else if obj_eq_str intent (u "complaint") then
         handle_complaint (OVal message_text) business (OVal customer_phone)
       else
         generate <~ pure (getattr (ai_class ai) (u "generate_response")
                                   (ai_generate_response ai)) ;;
         invoke (u "generate_response") generate
                [OVal message_text; business; conversation]) ;;
    log_interaction <~ pure (getattr (db_class db) (u "log_interaction")
                                     (db_log_interaction db)) ;;
    business_id' <~ pure (subscript business (u "id")) ;;
    outbound_message <~ pure (subscript response (u "text")) ;;
    confidence <~ pure (obj_get response (u "confidence") (PNum 0%Q)) ;;
    invoke (u "log_interaction") log_interaction
           [business_id'; OVal customer_phone; OVal platform; OVal message_text;
            outbound_message; intent; confidence] ~;;
    response_text <~ pure (subscript response (u "text")) ;;
    escalate <~ pure (obj_get response (u "escalate") (PBool false)) ;;
    booking_id <~ pure (obj_get response (u "booking_id") PNone) ;;
    ok (Reply response_text intent escalate
              (match booking_id with OVal PNone => false | _ => true end)).

(** [MessageProcessor.process_message]. *)
Definition process_message (message_data : list (str * pyval)) : M result :=
  try_except
    (process_message_body message_data)
    (fun e =>
       emit (EvLog ERROR (u "Error processing message: {str(e)}")) ;;;
       ret (Failed e)).

(** The module-level [twilio] and the global [notify_business_owner]. *)
Variable twilio : SmsObject.
Variable notify_business_owner : option method.

(** [process_and_respond_sms]. *)
Definition process_and_respond_sms (message_data : list (str * pyval))
  : M unit :=
  try_except
    (result <~ lift (process_message message_data) ;;
     match result with
     | Reply response_text intent escalate booking_created =>
       send_sms <~ pure (getattr (sms_class twilio) (u "send_sms")
                                 (sms_send_sms twilio)) ;;
       to_phone <~ pure (subscript (dict message_data) (u "from")) ;;
       from_phone <~ pure (subscript (dict message_data) (u "to")) ;;
       invoke (u "send_sms") send_sms [to_phone; from_phone; response_text] ~;;
       (if obj_truthy escalate then
          match notify_business_owner with
          | Some notify =>
            invoke (u "notify_business_owner") notify
                   [dict message_data; response_text; intent; escalate;
                    OVal (PBool booking_created)]
          | None => raise (NameError (u "notify_business_owner"))
          end
        else ok (OVal PNone))
     | _ => ok (OVal PNone)
     end ~;;
     pure (subscript (dict message_data) (u "from")) ~;;
     lift (emit (EvLog INFO (u "SMS response sent to {message_data['from']}"))))
    (fun e => emit (EvLog ERROR (u "Error in SMS processing: {str(e)}"))).

(** [handle_sms_webhook]: the response and the tasks that it added to
    [background_tasks], each by the argument of
    [process_and_respond_sms]. *)
Definition handle_sms_webhook (form : outcome (list (str * pyval)))
  : M (http_response * list (list (str * pyval))) :=
  try_except
    (form_data <~ pure form ;;
     let message_data :=
       [ (u "from", get form_data (u "From") PNone);
         (u "to", get form_data (u "To") PNone);
         (u "body", get form_data (u "Body") PNone);
         (u "platform", PStr (u "sms"));
         (u "message_sid", get form_data (u "MessageSid") PNone) ] in
     lift (emit (EvLog INFO (u "SMS webhook received: {message_data['from']} -> {message_data['to']}"))) ~;;
     ok (PlainTextResponse [] 200, [message_data]))
    (fun e =>
       emit (EvLog ERROR (u "SMS webhook error: {str(e)}")) ;;;
       ret (HTTPException 500 (u "Webhook processing failed"), [])).

(** What the framework does with the route: the response goes out, then
    the background tasks run in the order they were added. *)
Fixpoint run_tasks (tasks : list (list (str * pyval))) : M unit :=
  match tasks with
  | [] => ret tt
  | message_data :: rest =>
    process_and_respond_sms message_data ;;; run_tasks rest
  end.

Definition serve_sms_webhook (form : outcome (list (str * pyval)))
  : M http_response :=
  served <- handle_sms_webhook form ;;
  let (response, tasks) := served in
  emit (EvRespond response) ;;;
  run_tasks tasks ;;;
  ret response.

End MessageProcessor.

(** ** The objects that [webhook_handler.py] builds *)

Section Repository.
Context `{CaseMap} `{Json}.
Variable gemini : list event -> prompt -> option str.
Variable sqlite : list event -> str -> list pyval -> sql_result.

(** [Database()]: of the looked-up attributes it has
    [get_business_by_phone] only. *)
Definition Database : DbObject :=
  {| db_class := u "Database";
     db_get_business_by_phone :=
       Some (fun args =>
               match args with
               | [OVal phone] =>
                 lift (business <- get_business_by_phone sqlite phone ;;
                       ret (OVal business))
               | _ => raise (TypeError BadCall)
               end);
     db_get_conversation := None;
     db_log_interaction := None;
     db_create_priority_alert := None |}.

(** The message and the business that [AIProcessor] methods receive: a
    [bytes] message has [lower] but no [str in bytes]; any other
    non-string has no [lower]; of the business only [get] is used. *)
Definition with_message {A} (message : pyobj) (k : str -> E A) : E A :=
  match message with
  | OVal (PStr m) => k m
  | OVal (PBytes _) => raise (TypeError StrInBytes)
  | _ => raise (AttributeError (type_name message) (u "lower"))
  end.

(** [AIProcessor()]. *)
Definition AIProcessor : AiObject :=
  {| ai_class := u "AIProcessor";
     ai_classify_intent :=
       Some (fun args =>
               match args with
               | [message; business] =>
                 with_message message (fun m =>
                   lift (i <- classify_intent gemini m (unwrap business) ;;
                         ret (OIntent i)))
               | _ => raise (TypeError BadCall)
               end);
     ai_generate_response :=
       Some (fun args =>
               match args with
               | [message; business] | [message; business; _] =>
                 with_message message (fun m =>
                   lift (r <- generate_response gemini m (unwrap business) ;;
                         ret (OResponse r)))
               | _ => raise (TypeError BadCall)
               end);
     ai_extract_booking_info := None;
     ai_answer_faq := None;
     ai_analyze_complaint := None |}.

End Repository.

(** ** More of [database.py] *)

(** The SELECT of [get_recent_conversations], up to white space. *)
Definition select_recent_conversations : str :=
  u "SELECT customer_phone, inbound_message, outbound_message, intent, ai_confidence, timestamp, escalated, platform FROM conversations WHERE business_id = ? ORDER BY timestamp DESC LIMIT ?".

(** [row['column']] on a [sqlite3.Row]: IndexError without the column. *)
Definition row_item (row : list (str * pyval)) (column : str) : outcome pyval :=
  match assoc row column with
  | Some v => Returns v
  | None => Raises (OtherException (u "No item with that key"))
  end.

(** The last [n] items. *)
Definition lastn {A} (n : nat) (l : list A) : list A :=
  skipn (length l - n) l.

(** [v[-4:] if v else "Unknown"]. *)
Definition masked (v : pyval) : outcome pyval :=
  if truthy v then
    match v with
    | PStr s => Returns (PStr (lastn 4 s))
    | PBytes b => Returns (PBytes (lastn 4 b))
    | PList l => Returns (PList (lastn 4 l))
    | PDict _ => Raises (TypeError (BadIndex (u "dict")))
    | _ => Raises (TypeError (NotSubscriptable (type_name (OVal v))))
    end
  else Returns (PStr (u "Unknown")).

(** [(v[:100] + "...") if len(v or "") > 100 else v]. *)
Definition preview (v : pyval) : outcome pyval :=
  if truthy v then
    match v with
    | PStr s =>
      Returns (if (100 <? length s)%nat then PStr (firstn 100 s ++ u "...") else v)
    | PBytes b =>
      if (100 <? length b)%nat
      then Raises (TypeError (BadOperand (u "bytes") (u "str")))
      else Returns v
    | PList l =>
      if (100 <? length l)%nat
      then Raises (TypeError (BadOperand (u "list") (u "str")))
      else Returns v
    | PDict d =>
      if (100 <? length d)%nat
      then Raises (TypeError (BadIndex (u "dict")))
      else Returns v
    | _ => Raises (TypeError (NoLen (type_name (OVal v))))
    end
  else Returns v.

(** The dict that the loop of [get_recent_conversations] appends for one
    row. *)
Definition conversation_entry (row : list (str * pyval)) : outcome pyval :=
  and_then (row_item row (u "customer_phone")) (fun phone =>
  and_then (masked phone) (fun customer =>
  and_then (row_item row (u "inbound_message")) (fun inbound_message =>
  and_then (preview inbound_message) (fun inbound =>
  and_then (row_item row (u "outbound_message")) (fun outbound_message =>
  and_then (preview outbound_message) (fun outbound =>
  and_then (row_item row (u "intent")) (fun intent =>
  and_then (row_item row (u "ai_confidence")) (fun confidence =>
  and_then (row_item row (u "timestamp")) (fun timestamp =>
  and_then (row_item row (u "escalated")) (fun escalated =>
  and_then (row_item row (u "platform")) (fun platform =>
  Returns (PDict [ (u "customer", customer);
                   (u "inbound", inbound);
                   (u "outbound", outbound);
                   (u "intent", intent);
                   (u "confidence", confidence);
                   (u "timestamp", timestamp);
                   (u "escalated", PBool (truthy escalated));
                   (u "platform", platform) ])))))))))))).

(** The loop over the fetched rows. *)
Fixpoint conversation_entries (rows : list (list (str * pyval)))
  : outcome (list pyval) :=
  match rows with
  | [] => Returns []
  | row :: rest =>
    and_then (conversation_entry row) (fun entry =>
    and_then (conversation_entries rest) (fun entries =>
    Returns (entry :: entries)))
  end.

Section MoreDatabase.
Variable sqlite : list event -> str -> list pyval -> sql_result.

(** [Database.get_recent_conversations]. *)
Definition get_recent_conversations (business_id limit : pyval) : M (list pyval) :=
  try_except
    (r <- execute sqlite select_recent_conversations [business_id; limit] ;;
     match r with
     | SqlNoCursor e | SqlError e => raise e
     | SqlRows results => pure (conversation_entries results)
     end)
    (fun e =>
       emit (EvLog ERROR (u "Recent conversations query error: {str(e)}")) ;;;
       ret []).

End MoreDatabase.

(** ** [integrations/twilio_sms.py] *)

(** [str.isdigit] on one code point, by the interpreter's tables. *)
Class Digits := { isdigit : N -> bool }.

(** ASCII digits, for the examples. *)
Definition AsciiDigits : Digits :=
  {| isdigit := fun c => ((48 <=? c) && (c <=? 57))%N |}.

(** What [client.messages.create] does: it returns the message, of which
    [sid] and [status] are read, or raises. *)
Inductive twilio_result : Type :=
| Created (sid status : pyval)
| TwilioException (message : str)
| OtherFailure (message : str).

Section TwilioSMS.
Context `{Digits}.

(** [self.client]: [None] without credentials. *)
Variable client : option (list event -> str -> str -> pyval -> twilio_result).

(** [self.phone_number]. *)
Variable phone_number : option str.

(** [TwilioSMS.format_phone_number], on a number that is a string or
    [None]. *)
Definition format_phone_number (phone : option str) : str :=
  match phone with
  | None | Some [] => []
  | Some phone =>
    let phone := filter (fun c => isdigit c || (c =? 43)%N) phone in
    if is_prefix (u "1") phone && (length phone =? 11)%nat then u "+" ++ phone
    else if (length phone =? 10)%nat then u "+1" ++ phone
    else if negb (is_prefix (u "+") phone) then u "+" ++ phone
    else phone
  end.

(** [TwilioSMS.send_sms]. *)
Definition send_sms (to_phone from_phone : option str) (message : pyval)
  : M (list (str * pyval)) :=
  match client with
  | None =>
    emit (EvLog ERROR (u "Twilio client not initialized")) ;;;
    ret [(u "error", PStr (u "Twilio not configured"))]
  | Some create =>
    let to_phone := format_phone_number to_phone in
    let from_phone := format_phone_number from_phone in
    h <- history ;;
    emit (EvSms to_phone from_phone (OVal message)) ;;;
    match create h to_phone from_phone message with
    | Created sid status =>
      emit (EvLog INFO (u "SMS sent successfully: {message_obj.sid}")) ;;;
      ret [ (u "success", PBool true);
            (u "message_sid", sid);
            (u "status", status);
            (u "to", PStr to_phone);
            (u "from", PStr from_phone) ]
    | TwilioException e =>
      emit (EvLog ERROR (u "Twilio error: {str(e)}")) ;;;
      ret [(u "error", PStr (u "Twilio error: " ++ e))]
    | OtherFailure e =>
      emit (EvLog ERROR (u "SMS send error: {str(e)}")) ;;;
      ret [(u "error", PStr (u "Failed to send SMS: " ++ e))]
    end
  end.




End TwilioSMS.

(** ** [main.py] *)

(** The dict that [handle_sms_webhook] of [main.py] builds from the
    form: [From], [To] and [MessageSid] are strings or [None], [Body]
    is a string. *)
Record sms_data : Type := {
  From : option str;
  To : option str;
  Body : str;
  MessageSid : option str
}.

(** A value that is a string or [None]. *)
Definition str_or_none (v : option str) : pyval :=
  match v with
  | Some s => PStr s
  | None => PNone
  end.

(** [f"{v:.2f}"]: a float or a bool can be formatted, and an int that
    has a float: one whose absolute value rounds to no more than the
    largest double, that is one below 2^1024 - 2^970; a larger int
    raises OverflowError, a string ValueError, any other value
    TypeError. *)
Definition format_2f (v : pyval) : outcome unit :=
  match v with
  | PInt z =>
    if (Z.abs z <? 2 ^ 1024 - 2 ^ 970)%Z then Returns tt
    else Raises (OtherException (u "int too large to convert to float"))
  | PNum _ | PBool _ => Returns tt
  | PStr _ =>
    Raises (OtherException (u "Unknown format code 'f' for object of type 'str'"))
  | _ => Raises (TypeError (BadOperand (type_name (OVal v)) (u ".2f")))
  end.

Section Main.
Context `{CaseMap} `{Json} `{Digits}.
Variable gemini : list event -> prompt -> option str.
Variable sqlite : list event -> str -> list pyval -> sql_result.
Variable client : option (list event -> str -> str -> pyval -> twilio_result).

(** Milliseconds since [start_time], by the clock. *)
Variable elapsed_ms : list event -> Z.

(** [process_sms_message] of [main.py], run as the task that
    [handle_sms_webhook] adds: the three components are initialised. *)
Definition process_sms_message (data : sms_data) : M unit :=
  try_except
    (let customer_phone := From data in
     let business_phone := To data in
     let message_text := strip (Body data) in
     lift (emit (EvLog INFO (u "🔄 Processing SMS from {customer_phone}"))) ~;;
     business <~ lift (get_business_by_phone sqlite (str_or_none business_phone)) ;;
     if negb (truthy business) then
       lift (emit (EvLog WARNING (u "⚠️ No business found for phone {business_phone}")))
     else
       ai_response <~ lift (generate_response gemini message_text business) ;;
       now <~ lift history ;;
       let processing_time_ms := PInt (elapsed_ms now) in
       business_id <~ pure (subscript (OVal business) (u "id")) ;;
       let conversation_data :=
         [ (u "business_id", unwrap business_id);
           (u "customer_phone", str_or_none customer_phone);
           (u "platform", PStr (u "sms"));
           (u "inbound_message", PStr message_text);
           (u "outbound_message", PStr (text ai_response));
           (u "intent", intent ai_response);
           (u "ai_confidence", confidence ai_response);
           (u "escalated", escalate ai_response) ] in
       lift (log_conversation sqlite conversation_data processing_time_ms) ~;;
       sms_result <~ lift (send_sms client customer_phone business_phone
                                    (PStr (text ai_response))) ;;
       lift (emit (EvLog INFO (u "✅ SMS processed successfully in {processing_time_ms}ms"))) ~;;
       lift (emit (EvLog INFO (u "📤 Response: {ai_response.text}"))) ~;;
       pure (format_2f (confidence ai_response)) ~;;
       lift (emit (EvLog INFO (u "🎯 Intent: {ai_response.intent} | Confidence: {ai_response.confidence:.2f}"))) ~;;
       lift (emit (EvLog INFO (u "📨 SMS sent: {sms_result.get('success', False)}"))) ~;;
       if truthy (escalate ai_response)
       then lift (emit (EvLog WARNING (u "🚨 Message escalated - human attention required")))
       else ok tt)
    (fun e => emit (EvLog ERROR (u "❌ SMS processing error: {str(e)}"))).




End Main.

(** ** The Facebook verification route of [webhook_handler.py] *)

(** [o(args)]: no value here is callable. *)
Definition py_call (o : pyobj) (args : list pyobj) : outcome pyobj :=
  Raises (TypeError (NotCallable (type_name o))).

Section FacebookVerification.

(** [facebook.verify_token]: [FacebookAPI.__init__] stores the token
    under the name of the method, so the attribute is the string. *)
Variable verify_token : str.

(** [verify_facebook_webhook]: a response, or the exception it raises. *)
Definition verify_facebook_webhook (hub_mode hub_challenge hub_verify_token : option str)
  : M (outcome http_response) :=
  verified <~ (if match hub_mode with
                  | Some mode => str_eqb mode (u "subscribe")
                  | None => false
                  end
               then answer <~ pure (py_call (OVal (PStr verify_token))
                                            [OVal (str_or_none hub_verify_token)]) ;;
                    ok (obj_truthy answer)
               else ok false) ;;
  if (verified : bool) then
    lift (emit (EvLog INFO (u "Facebook webhook verified successfully"))) ~;;
    ok (PlainTextResponse (match hub_challenge with Some c => c | None => [] end) 200)
  else
    ok (HTTPException 403 (u "Invalid verification token")).

End FacebookVerification.

#[export] Existing Instance LatinCase.

(** A JSON reader that knows two replies of the model. *)
Definition q (s : str) : str := [34%N] ++ s ++ [34%N].

Definition reply_escalate : str :=
  u "{" ++ q (u "intent") ++ u ": " ++ q (u "general") ++ u ", "
  ++ q (u "confidence") ++ u ": 0.9, " ++ q (u "escalate") ++ u ": true}".

Definition reply_calm : str :=
  u "{" ++ q (u "intent") ++ u ": " ++ q (u "general") ++ u ", "
  ++ q (u "confidence") ++ u ": 0.9, " ++ q (u "escalate") ++ u ": false}".

Definition demo_loads (s : str) : json_outcome :=
  if str_eqb s reply_escalate then
    JsonValue (PDict [(u "intent", PStr (u "general"));
                      (u "confidence", PNum (9 # 10)%Q);
                      (u "escalate", PBool true)])
  else if str_eqb s reply_calm then
    JsonValue (PDict [(u "intent", PStr (u "general"));
                      (u "confidence", PNum (9 # 10)%Q);
                      (u "escalate", PBool false)])
  else if str_eqb s (u "[]") then JsonValue (PList [])
  else if str_eqb s (u "{}") then JsonValue (PDict [])
  else if str_eqb s (u "null") then JsonValue PNone
  else JsonDecodeError.

(** Bytes that are not UTF-8 cannot be decoded; the toy reader knows
    one such blob. *)
Definition demo_loads_bytes (b : list N) : json_outcome :=
  match b with
  | [255%N] =>
    JsonOtherError
      (OtherException
         (u "'utf-8' codec can't decode byte 0xff in position 0: invalid start byte"))
  | _ => JsonDecodeError
  end.

Definition DemoJson : Json :=
  {| json_loads := demo_loads;
     json_loads_bytes := demo_loads_bytes;
     json_loads_empty_list := eq_refl;
     json_loads_empty_dict := eq_refl |}.


(** ** The classification rule as the specification words it *)

Section Specification.
Context `{CaseMap}.

(** The score of a category: the number of its keywords that occur in
    the lowercased message, divided by the number of its keywords. *)
Definition category_score (keywords : list str) (m : str) : Q :=
  (Z.of_nat (count_in keywords (lower m)) # Pos.of_nat (length keywords))%Q.

(** Some category scores above the threshold 0.2. *)
Definition exceeds_threshold (m : str) : bool :=
  existsb (fun entry : str * list str =>
             Qlt_b (2 # 10)%Q (category_score (snd entry) m))
          _load_intent_keywords.

End Specification.

(** ** The stored JSON columns as the specification words them *)

Section BlobSpecification.
Context `{Json}.

(** [v] is what a JSON column holds once read: the default when the
    stored value is missing or empty, when it is text or bytes that are
    not JSON, or when it is neither; and else the value, of whatever
    shape, that the text or the bytes decode to. *)
Definition parsed_or (stored default v : pyval) : Prop :=
  (truthy stored = false /\ v = default) \/
  (truthy stored = true /\
   ((exists s, stored = PStr s /\
               (json_loads s = JsonValue v \/
                json_loads s = JsonDecodeError /\ v = default)) \/
    (exists b, stored = PBytes b /\
               (json_loads_bytes b = JsonValue v \/
                json_loads_bytes b = JsonDecodeError /\ v = default)) \/
    ((forall s, stored <> PStr s) /\ (forall b, stored <> PBytes b) /\
     v = default))).

(** The column [k] of [row], read into [business]. *)
Definition column_parsed (row business : list (str * pyval)) (k : str)
           (default : pyval) : Prop :=
  exists stored v,
    assoc row k = Some stored /\ assoc business k = Some v /\
    parsed_or stored default v.

(** Reading the stored value raises nothing that the code does not
    catch: [json.loads] answers or raises [JSONDecodeError]. *)
Definition decodes (stored : pyval) : bool :=
  negb (truthy stored) ||
  match stored with
  | PStr s => match json_loads s with JsonOtherError _ => false | _ => true end
  | PBytes b =>
    match json_loads_bytes b with JsonOtherError _ => false | _ => true end
  | _ => true
  end.

(** The row has the three JSON columns, and each can be read. *)
Definition readable (row : list (str * pyval)) : bool :=
  forallb (fun k => match assoc row k with
                    | Some stored => decodes stored
                    | None => false
                    end)
          [u "services"; u "faq_data"; u "pricing_data"].

End BlobSpecification.

(** A stored business whose [services] column holds [services]. *)
Definition stored_business (services : pyval) : list (str * pyval) :=
  [ (u "id", PStr (u "demo_business_001"));
    (u "name", PStr (u "Demo Hair Salon"));
    (u "phone", PStr (u "+15145550100"));
    (u "services", services);
    (u "faq_data", PStr (u "[]"));
    (u "pricing_data", PNone) ].

(** ** Runs and traces *)

(** Every run of [m] ends with a result and a trace that satisfy [Q]. *)
Definition sat {A} (m : M A) (Q : A -> list event -> Prop) : Prop :=
  forall h, Q (value m h) (trace m h).

(** The event is a call of the method [name]. *)
Definition is_call (name : str) (e : event) : bool :=
  match e with
  | EvCall n _ => str_eqb n name
  | _ => false
  end.

Definition any_call (e : event) : bool :=
  match e with
  | EvCall _ _ => true
  | _ => false
  end.

(** The methods called, in order. *)
Definition calls (t : list event) : list str :=
  flat_map (fun e => match e with EvCall n _ => [n] | _ => [] end) t.

Definition sends (t : list event) : bool := existsb (is_call (u "send_sms")) t.

Definition logs (t : list event) : bool :=
  existsb (is_call (u "log_interaction")) t.

(** A method that calls no method of a collaborator in turn. *)
Definition quiet_method (f : method) : Prop :=
  forall args h, existsb any_call (trace (f args) h) = false.

Definition quiet (m : option method) : Prop :=
  forall f, m = Some f -> quiet_method f.

Definition quiet_db (db : DbObject) : Prop :=
  quiet (db_get_business_by_phone db) /\ quiet (db_get_conversation db) /\
  quiet (db_log_interaction db) /\ quiet (db_create_priority_alert db).

Definition quiet_ai (ai : AiObject) : Prop :=
  quiet (ai_classify_intent ai) /\ quiet (ai_generate_response ai) /\
  quiet (ai_extract_booking_info ai) /\ quiet (ai_answer_faq ai) /\
  quiet (ai_analyze_complaint ai).

(** ** Stand-ins for collaborators *)

(** A method that answers from a table and does nothing else. *)
Definition stub (answer : list pyobj -> outcome pyobj) : method :=
  fun args => pure (answer args).

(** An event of the business lookup: a log line, the SQL statement, or
    the call of [get_business_by_phone]. *)
Definition lookup_only (e : event) : bool :=
  match e with
  | EvLog _ _ => true
  | EvSql _ _ => true
  | EvCall n _ => str_eqb n (u "get_business_by_phone")
  | _ => false
  end.

(** A database that has what [process_message] looks up, around fixed
    answers. *)
Definition CompleteDatabase (business conversation : pyobj) (log : method)
  : DbObject :=
  {| db_class := u "Database";
     db_get_business_by_phone := Some (stub (fun _ => Returns business));
     db_get_conversation := Some (stub (fun _ => Returns conversation));
     db_log_interaction := Some log;
     db_create_priority_alert := None |}.

Definition StubDatabase : DbObject :=
  {| db_class := u "StubDatabase";
     db_get_business_by_phone :=
       Some (stub (fun _ => Returns (dict (stored_business (PList [])))));
     db_get_conversation := Some (stub (fun _ => Returns (dict [])));
     db_log_interaction := Some (stub (fun _ => Returns (OVal PNone)));
     db_create_priority_alert := None |}.

Definition StubAI : AiObject :=
  {| ai_class := u "StubAI";
     ai_classify_intent :=
       Some (stub (fun _ => Returns (OVal (PStr (u "general")))));
     ai_generate_response :=
       Some (stub (fun _ => Returns (dict [(u "text", PStr (u "Hello!"));
                                            (u "escalate", PBool false)])));
     ai_extract_booking_info := None;
     ai_answer_faq := None;
     ai_analyze_complaint := None |}.

(** A processor whose reply asks for escalation. *)
Definition StubUrgentAI : AiObject :=
  {| ai_class := u "StubAI";
     ai_classify_intent :=
       Some (stub (fun _ => Returns (OVal (PStr (u "general")))));
     ai_generate_response :=
       Some (stub (fun _ => Returns (dict [(u "text", PStr (u "We are sorry."));
                                            (u "escalate", PBool true)])));
     ai_extract_booking_info := None;
     ai_answer_faq := None;
     ai_analyze_complaint := None |}.

Definition StubSMS : SmsObject :=
  {| sms_class := u "StubSMS";
     sms_send_sms := Some (stub (fun _ => Returns (dict [(u "success", PBool true)]))) |}.

Definition PlainRepr : Repr :=
  {| py_str := fun o => match o with OVal (PStr s) => s | _ => [] end |}.

Definition demo_message : list (str * pyval) :=
  [ (u "from", PStr (u "+15145550199"));
    (u "to", PStr (u "+15145550100"));
    (u "body", PStr (u "hello"));
    (u "platform", PStr (u "sms"));
    (u "message_sid", PStr (u "SM0001")) ].

(** A database that holds the demo business. *)
Definition demo_sqlite (h : list event) (statement : str) (params : list pyval)
  : sql_result :=
  SqlRows [stored_business (PStr (u "[]"))].

(** An intent for the examples. *)
Definition hello_intent : MessageIntent :=
  {| mi_intent := PStr (u "general");
     mi_confidence := PNum (6 # 10)%Q;
     requires_escalation := PBool false |}.

(** A list of strings has no repetition. *)
Fixpoint nodupb (l : list str) : bool :=
  match l with
  | [] => true
  | x :: r => negb (existsb (str_eqb x) r) && nodupb r
  end.

(** An SMS was handed to Twilio. *)
Definition is_sms (e : event) : bool :=
  match e with EvSms _ _ _ => true | _ => false end.

(** The conversation was written to the database. *)
Definition is_insert (e : event) : bool :=
  match e with
  | EvSql statement _ => str_eqb statement insert_conversation
  | _ => false
  end.

(** The line that [log_conversation] logs when it fails. *)
Definition logging_error : str := u "Conversation logging error: {str(e)}".

(** [log_conversation] has run: the INSERT was passed to
    [cursor.execute], or the failure was logged. *)
Definition is_log_attempt (e : event) : bool :=
  match e with
  | EvSql statement _ => str_eqb statement insert_conversation
  | EvLog _ line => str_eqb line logging_error
  | _ => false
  end.

(** A prompt, or a log line other than that of [log_conversation]. *)
Definition is_model_or_log (e : event) : bool :=
  match e with
  | EvGenerate _ => true
  | EvLog _ line => negb (str_eqb line logging_error)
  | _ => false
  end.

(** Every SMS of [t] comes after [log_conversation] has run; [seen]
    tells whether it ran before [t]. *)
Fixpoint sms_after_log (seen : bool) (t : list event) : bool :=
  match t with
  | [] => true
  | e :: t' =>
    (negb (is_sms e) || seen) && sms_after_log (seen || is_log_attempt e) t'
  end.

(** The characters that [format_phone_number] keeps. *)
Definition kept `{Digits} (phone : str) : str :=
  filter (fun c => isdigit c || (c =? 43)%N) phone.

(** What [get_recent_conversations] shows of a conversation: the last
    four characters of the number at most, and previews of 103
    characters at most. *)
Definition shows_little (entry : pyval) : Prop :=
  exists d,
    entry = PDict d /\
    map fst d = [u "customer"; u "inbound"; u "outbound"; u "intent";
                 u "confidence"; u "timestamp"; u "escalated"; u "platform"] /\
    (forall s, assoc d (u "customer") = Some (PStr s) ->
               s = u "Unknown" \/ (length s <= 4)%nat) /\
    (forall s, assoc d (u "inbound") = Some (PStr s) -> (length s <= 103)%nat) /\
    (forall s, assoc d (u "outbound") = Some (PStr s) -> (length s <= 103)%nat).

(** The value is text or NULL. *)
Definition text_or_null (v : option pyval) : bool :=
  match v with
  | Some PNone | Some (PStr _) => true
  | _ => false
  end.

(** A row of [conversations] as the schema types it: the eight columns
    are there, and the phone number and the two messages are text or
    NULL. *)
Definition well_stored (row : list (str * pyval)) : bool :=
  text_or_null (assoc row (u "customer_phone")) &&
  text_or_null (assoc row (u "inbound_message")) &&
  text_or_null (assoc row (u "outbound_message")) &&
  forallb (fun k => match assoc row k with Some _ => true | None => false end)
          [u "intent"; u "ai_confidence"; u "timestamp"; u "escalated";
           u "platform"].

(** How many events of [t] satisfy [p]. *)
Definition count (p : event -> bool) (t : list event) : nat :=
  length (filter p t).

(** Every run of [m] leaves a trace that satisfies [P]. *)
Definition emits {A} (m : M A) (P : list event -> Prop) : Prop :=
  sat m (fun _ t => P t).

(** Logging or sending. *)
Definition is_late (e : event) : bool := is_log_attempt e || is_sms e.

(** Every prompt of [t] is sent to the model before anything is logged
    or sent; [late] tells whether something was before [t]. *)
Fixpoint prompts_first (late : bool) (t : list event) : bool :=
  match t with
  | [] => true
  | e :: t' =>
    (negb (is_generate e) || negb late) && prompts_first (late || is_late e) t'
  end.

(** Neither an SMS nor a trace of [log_conversation]. *)
Definition quiet_run (t : list event) : Prop :=
  count is_sms t = 0 /\ count is_log_attempt t = 0.

(** Nor a prompt. *)
Definition silent (t : list event) : Prop :=
  quiet_run t /\ count is_generate t = 0.

(** [log_conversation] has run, with one INSERT at most, and neither an
    SMS nor a prompt. *)
Definition logged (t : list event) : Prop :=
  count is_sms t = 0 /\ 1 <= count is_log_attempt t /\
  count is_insert t <= 1 /\ count is_generate t = 0.

(** The SMS, when there is a client, and neither a trace of
    [log_conversation] nor a prompt. *)
Definition sending {A} (client : option A) (t : list event) : Prop :=
  count is_sms t = match client with Some _ => 1 | None => 0 end /\
  count is_log_attempt t = 0 /\ count is_generate t = 0.

(** The model is asked before anything is logged or sent, every SMS
    follows [log_conversation], there is one INSERT at most, and with a
    client there is one SMS exactly when [log_conversation] has run. *)
Definition orderly {A} (client : option A) (t : list event) : Prop :=
  sms_after_log false t = true /\
  prompts_first false t = true /\
  count is_insert t <= 1 /\
  count is_sms t = match client with
                   | Some _ => Nat.min 1 (count is_log_attempt t)
                   | None => 0
                   end.

(** A Twilio client that accepts every message. *)
Definition demo_client (h : list event) (to_phone from_phone : str) (body : pyval)
  : twilio_result :=
  Created (PStr (u "SM0002")) (PStr (u "queued")).

(** The SMS of [demo_message] as [handle_sms_webhook] of [main.py] reads
    it from the form. *)
Definition demo_sms : sms_data :=
  {| From := Some (u "+15145550199");
     To := Some (u "+15145550100");
     Body := u "hello";
     MessageSid := Some (u "SM0001") |}.

(** One of the two small sigmas. *)
Definition is_sigma (c : N) : bool := ((c =? 962) || (c =? 963))%N.

(** A string without small sigma. *)
Definition sigma_free (t : str) : bool := forallb (fun c => negb (is_sigma c)) t.

(** Equal but for the form of the small sigmas. *)
Definition up_to_sigma (a b : str) : Prop :=
  Forall2 (fun x y => x = y \/ (is_sigma x = true /\ is_sigma y = true)) a b.

(** The table is stable: what a code point lowers to is lowered to
    itself and holds no capital sigma, and the small sigmas are lowered
    to themselves. *)
Definition stable `{CaseMap} : Prop :=
  (forall c, flat_map lower_cp (lower_cp c) = lower_cp c) /\
  (forall c, existsb (N.eqb 931) (lower_cp c) = false) /\
  lower_cp 962%N = [962%N] /\ lower_cp 963%N = [963%N].

(** * Properties *)

(** ** Substrings *)

Lemma str_eqb_eq (a b : str) : str_eqb a b = true <-> a = b.
Proof.
  unfold str_eqb. destruct (str_eq_dec a b); split; congruence.
Qed.

Lemma is_prefix_spec (t s : str) :
  is_prefix t s = true <-> exists r, s = t ++ r.
Proof.
  revert s. induction t as [|a t IH]; intros s; simpl.
  - split; [intros _; now exists s | reflexivity].
  - destruct s as [|b s].
    + split; [discriminate | intros [r Hr]; discriminate].
    + rewrite andb_true_iff, N.eqb_eq, IH. split.
      * intros [-> [r ->]]. now exists r.
      * intros [r Hr]. injection Hr as -> ->. split; [reflexivity | now exists r].
Qed.

Lemma contains_spec (t s : str) :
  contains t s = true <-> exists l r, s = l ++ t ++ r.
Proof.
  induction s as [|b s IH].
  - simpl. rewrite orb_false_r, is_prefix_spec. split.
    + intros [r Hr]. now exists [], r.
    + intros [l [r Hr]]. destruct l; [now exists r | discriminate].
  - cbn [contains]. rewrite orb_true_iff, is_prefix_spec, IH. split.
    + intros [[r Hr] | [l [r ->]]]; [now exists [], r | now exists (b :: l), r].
    + intros [[|c l] [r Hr]].
      * left. now exists r.
      * right. injection Hr as -> ->. now exists l, r.
Qed.

Lemma contains_app_r (t s x : str) :
  contains t s = true -> contains t (s ++ x) = true.
Proof.
  rewrite !contains_spec. intros [l [r ->]]. exists l, (r ++ x).
  now rewrite <- !app_assoc.
Qed.

Lemma contains_app_l (t s x : str) :
  contains t s = true -> contains t (x ++ s) = true.
Proof.
  rewrite !contains_spec. intros [l [r ->]]. exists (x ++ l), r.
  now rewrite <- !app_assoc.
Qed.

(** ** Lowering a longer string *)

Lemma up_to_sigma_refl (a : str) : up_to_sigma a a.
Proof. induction a; constructor; auto. Qed.

Lemma up_to_sigma_sym (a b : str) : up_to_sigma a b -> up_to_sigma b a.
Proof.
  induction 1 as [|x y a b Hxy _ IH]; constructor; [|exact IH].
  destruct Hxy as [->|[Hx Hy]]; [now left | now right].
Qed.

Lemma up_to_sigma_app (a a' b b' : str) :
  up_to_sigma a a' -> up_to_sigma b b' -> up_to_sigma (a ++ b) (a' ++ b').
Proof. apply Forall2_app. Qed.

(** A string without small sigma is equal to what it is equal to up to
    the sigmas. *)
Lemma up_to_sigma_free (t t' : str) :
  sigma_free t = true -> up_to_sigma t t' -> t' = t.
Proof.
  intros Hfree Ht. induction Ht as [|x y t t' Hxy _ IH]; [reflexivity|].
  cbn [sigma_free forallb] in Hfree. apply andb_prop in Hfree as [Hx Hrest].
  rewrite (IH Hrest). destruct Hxy as [->|[Hs _]]; [reflexivity|].
  rewrite Hs in Hx. discriminate Hx.
Qed.

Lemma contains_up_to_sigma (t a b : str) :
  sigma_free t = true -> up_to_sigma a b ->
  contains t a = true -> contains t b = true.
Proof.
  intros Hfree Hab. rewrite !contains_spec. intros (l & r & ->).
  apply Forall2_app_inv_l in Hab as (l' & rest & _ & Hrest & ->).
  apply Forall2_app_inv_l in Hrest as (t' & r' & Ht & _ & ->).
  exists l', r'. now rewrite (up_to_sigma_free Hfree Ht).
Qed.

Section Lowering.
Context `{CaseMap}.

(** What a code point lowers to depends on its neighbours only in the
    form of the small sigma. *)
Lemma lower_from_context (s : str) :
  forall before before', up_to_sigma (lower_from before s) (lower_from before' s).
Proof.
  induction s as [|c s IH]; intros before before'; [constructor|].
  cbn [lower_from]. apply up_to_sigma_app; [|apply IH].
  destruct (c =? 931)%N; [|apply up_to_sigma_refl].
  constructor; [|constructor]. right.
  destruct (final_sigma before s), (final_sigma before' s); now split.
Qed.

Lemma lower_from_app (m s : str) :
  forall before before',
  exists x,
    lower_from before (m ++ s) = x ++ lower_from (rev m ++ before) s /\
    up_to_sigma x (lower_from before' m).
Proof.
  induction m as [|c m IH]; intros before before'.
  - exists []. split; [reflexivity | constructor].
  - destruct (IH (c :: before) (c :: before')) as (x & Hx & Hup).
    cbn [app lower_from rev]. rewrite Hx, <- app_assoc. cbn [app].
    eexists. split; [apply app_assoc|].
    apply up_to_sigma_app; [|exact Hup].
    destruct (c =? 931)%N; [|apply up_to_sigma_refl].
    constructor; [|constructor]. right.
    destruct (final_sigma before (m ++ s)), (final_sigma before' m); now split.
Qed.

(** A word without small sigma that occurs in the lowered message occurs
    in every lowered extension of the message. *)
Lemma lower_extends_r (t m s : str) :
  sigma_free t = true ->
  contains t (lower m) = true -> contains t (lower (m ++ s)) = true.
Proof.
  intros Hfree Ht. unfold lower in *.
  destruct (lower_from_app m s [] []) as (x & -> & Hx).
  apply contains_app_r.
  eapply contains_up_to_sigma; [exact Hfree | apply up_to_sigma_sym; exact Hx | exact Ht].
Qed.

Lemma lower_extends_l (t m s : str) :
  sigma_free t = true ->
  contains t (lower m) = true -> contains t (lower (s ++ m)) = true.
Proof.
  intros Hfree Ht. unfold lower in *.
  destruct (lower_from_app s m [] []) as (x & -> & _).
  apply contains_app_l.
  eapply contains_up_to_sigma; [exact Hfree | apply lower_from_context | exact Ht].
Qed.

End Lowering.

Lemma triggers_sigma_free : forallb sigma_free _load_escalation_triggers = true.
Proof. vm_compute. reflexivity. Qed.

(** ** Counting the words that occur *)

Lemma nodupb_sound (l : list str) : nodupb l = true -> NoDup l.
Proof.
  induction l as [|x r IH]; simpl; intros Hl; constructor;
    apply andb_true_iff in Hl as [Hx Hr]; auto.
  intros Hin. apply negb_true_iff in Hx.
  assert (existsb (str_eqb x) r = true); [|congruence].
  apply existsb_exists. exists x. split; [assumption | now apply str_eqb_eq].
Qed.

Lemma french_words_NoDup : NoDup french_words.
Proof. apply nodupb_sound. vm_compute. reflexivity. Qed.

(** In a list without repetition, at least two entries pass a test
    exactly when two different entries pass it. *)
Lemma two_pass (f : str -> bool) (l : list str) :
  NoDup l ->
  (2 <= length (filter f l) <->
   exists a b, a <> b /\ In a l /\ In b l /\ f a = true /\ f b = true).
Proof.
  intros Hnd. assert (Hf : NoDup (filter f l)) by now apply NoDup_filter.
  split.
  - destruct (filter f l) as [|a [|b r]] eqn:E; simpl; try lia. intros _.
    assert (Ha : In a (filter f l)) by (rewrite E; simpl; auto).
    assert (Hb : In b (filter f l)) by (rewrite E; simpl; auto).
    apply filter_In in Ha as [? ?], Hb as [? ?].
    exists a, b. repeat split; auto.
    inversion Hf as [|? ? Hna _]; subst. intros ->. apply Hna. simpl; auto.
  - intros (a & b & Hab & Ha & Hb & Hfa & Hfb).
    assert (Ia : In a (filter f l)) by (apply filter_In; auto).
    assert (Ib : In b (filter f l)) by (apply filter_In; auto).
    destruct (filter f l) as [|x [|y r]]; simpl in *; try lia; try tauto.
    destruct Ia as [<-|[]], Ib as [<-|[]]. congruence.
Qed.

(** ** Language detection *)

(** C2. [detect_language] is total; it answers ['french'] exactly when at
    least two different words of [french_words] are substrings of the
    lowercased message, and ['english'] in every other case, so it has no
    third answer. *)
Theorem detect_language_spec `{CaseMap} (m : str) :
  let two_french_words :=
    exists a b, a <> b /\ In a french_words /\ In b french_words /\
                contains a (lower m) = true /\ contains b (lower m) = true in
  (detect_language m = u "french" <-> two_french_words) /\
  (detect_language m = u "english" <-> ~ two_french_words) /\
  (detect_language m = u "french" <-> 2 <= count_in french_words (lower m)) /\
  (detect_language m = u "french" \/ detect_language m = u "english").
Proof.
  intros two. subst two.
  pose proof (two_pass (fun w => contains w (lower m)) french_words_NoDup) as T.
  unfold detect_language, count_in in *.
  destruct (Nat.leb_spec 2 (length (filter (fun w => contains w (lower m))
                                           french_words))) as [Hge|Hlt].
  - repeat split; auto; try (intros; apply T; assumption);
      try (intros; assumption).
    + discriminate.
    + intros Hn. exfalso. apply Hn, T, Hge.
  - repeat split; auto; try discriminate.
    + intros Hx. apply T in Hx. lia.
    + intros _ Hx. apply T in Hx. lia.
    + intros; lia.
Qed.

(** ** Escalation *)

Lemma existsb_impl {A} (f g : A -> bool) (l : list A) :
  (forall x, f x = true -> g x = true) ->
  existsb f l = true -> existsb g l = true.
Proof.
  intros Hfg. rewrite !existsb_exists. intros [x [Hin Hx]]. exists x; auto.
Qed.

(** C10. Escalation detection is monotone under extension of the message
    on either side. *)
Theorem escalation_monotone `{CaseMap} (m s : str) :
  _check_escalation_needed m = true ->
  _check_escalation_needed (m ++ s) = true /\
  _check_escalation_needed (s ++ m) = true.
Proof.
  unfold _check_escalation_needed. intros Hm.
  apply existsb_exists in Hm as (t & Hin & Ht).
  pose proof (proj1 (forallb_forall _ _) triggers_sigma_free t Hin) as Hfree.
  split; apply existsb_exists; exists t; (split; [exact Hin|]).
  - now apply lower_extends_r.
  - now apply lower_extends_l.
Qed.

Lemma escalation_monotone_witness :
  _check_escalation_needed (u "a refund") = true /\
  _check_escalation_needed (u "a refund" ++ u ", please") = true /\
  _check_escalation_needed (u ", please" ++ u "a refund") = true.
Proof.
  split; [vm_compute; reflexivity|].
  apply (escalation_monotone (u "a refund")). vm_compute. reflexivity.
Defined.

(** ** Keyword classification *)

Lemma Qlt_b_true (a b : Q) : Qlt_b a b = true <-> (a < b)%Q.
Proof.
  unfold Qlt_b. rewrite negb_true_iff. split.
  - intros Hf. apply Qnot_le_lt. intros Hle.
    apply Qle_bool_iff in Hle. congruence.
  - intros Hlt. destruct (Qle_bool b a) eqn:E; [|reflexivity].
    apply Qle_bool_iff in E. exfalso. now apply (Qlt_not_le a b).
Qed.

Lemma Qlt_b_false (a b : Q) : Qlt_b a b = false <-> (b <= a)%Q.
Proof.
  unfold Qlt_b. rewrite negb_false_iff. apply Qle_bool_iff.
Qed.

(** [max_by] returns an entry of the list, of maximal score. *)
Lemma max_by_spec (rest : list (str * Q)) : forall best,
  In (max_by best rest) (best :: rest) /\
  (forall x, In x (best :: rest) -> (snd x <= snd (max_by best rest))%Q).
Proof.
  induction rest as [|y r IH]; intros best; simpl.
  - split; [now left|]. intros x [<-|[]]. apply Qle_refl.
  - destruct (Qlt_b (snd best) (snd y)) eqn:E.
    + destruct (IH y) as [Hin Hmax]. split.
      * right. exact Hin.
      * intros x [<-|Hx]; [|now apply Hmax].
        apply Qle_trans with (snd y).
        -- apply Qlt_le_weak. now apply Qlt_b_true.
        -- apply Hmax. now left.
    + destruct (IH best) as [Hin Hmax]. split.
      * destruct Hin as [Hin|Hin]; [now left | right; now right].
      * intros x [<-|[<-|Hx]].
        -- apply Hmax. now left.
        -- apply Qle_trans with (snd best).
           ++ now apply Qlt_b_false.
           ++ apply Hmax. now left.
        -- apply Hmax. now right.
Qed.

Section KeywordPath.
Context `{CaseMap} `{Json}.
Variable gemini : list event -> prompt -> option str.

Lemma keyword_scores_In (m : str) (c : str) (s : Q) :
  In (c, s) (keyword_scores (lower m)) <->
  exists kws, In (c, kws) _load_intent_keywords /\
              0 < count_in kws (lower m) /\ s = category_score kws m.
Proof.
  unfold keyword_scores. rewrite in_flat_map. split.
  - intros [[c' kws] [Hin Hx]].
    destruct (Nat.ltb_spec 0 (count_in kws (lower m))) as [Hpos|]; [|destruct Hx].
    destruct Hx as [Hx|[]]. injection Hx as <- <-. now exists kws.
  - intros [kws [Hin [Hpos ->]]]. exists (c, kws). split; [assumption|].
    apply Nat.ltb_lt in Hpos. rewrite Hpos. now left.
Qed.

Lemma category_score_nonneg (kws : list str) (m : str) :
  (0 <= category_score kws m)%Q.
Proof. unfold category_score, Qle. simpl. lia. Qed.

Lemma category_score_zero (kws : list str) (m : str) :
  count_in kws (lower m) = 0 -> (category_score kws m <= 0)%Q.
Proof. unfold category_score, Qle. intros ->. simpl. lia. Qed.

Lemma above_threshold_counts (kws : list str) (m : str) :
  (2 # 10 < category_score kws m)%Q -> 0 < count_in kws (lower m).
Proof.
  intros Hlt. destruct (count_in kws (lower m)) eqn:E; [|lia].
  exfalso. apply (Qlt_not_le _ _ Hlt).
  apply Qle_trans with 0%Q; [now apply category_score_zero | discriminate].
Qed.

Lemma classify_intent_none (m : str) (b : pyval) :
  keyword_scores (lower m) = [] ->
  classify_intent gemini m b = _ai_classify_intent gemini m b.
Proof. intros E. unfold classify_intent. rewrite E. reflexivity. Qed.

Lemma classify_intent_low (m : str) (b : pyval) first rest top s :
  keyword_scores (lower m) = first :: rest ->
  max_by first rest = (top, s) ->
  Qlt_b (2 # 10)%Q s = false ->
  classify_intent gemini m b = _ai_classify_intent gemini m b.
Proof. intros E Et Hq. unfold classify_intent. rewrite E, Et, Hq. reflexivity. Qed.

Lemma classify_intent_high (m : str) (b : pyval) first rest top s :
  keyword_scores (lower m) = first :: rest ->
  max_by first rest = (top, s) ->
  Qlt_b (2 # 10)%Q s = true ->
  classify_intent gemini m b =
  ret {| mi_intent := PStr top;
         mi_confidence := PNum (Qmin (s * 2) 1)%Q;
         requires_escalation := PBool (_check_escalation_needed m) |}.
Proof. intros E Et Hq. unfold classify_intent. rewrite E, Et, Hq. reflexivity. Qed.

(** The entry that [max] picks is a category of the table, and no
    category of the table scores higher. *)
Lemma top_category (m : str) first rest top s :
  keyword_scores (lower m) = first :: rest ->
  max_by first rest = (top, s) ->
  exists kws,
    In (top, kws) _load_intent_keywords /\
    s = category_score kws m /\
    forall c k, In (c, k) _load_intent_keywords ->
                (category_score k m <= category_score kws m)%Q.
Proof.
  intros E Et.
  destruct (max_by_spec rest first) as [Htop Hmax].
  rewrite Et in Htop, Hmax. rewrite <- E in Htop, Hmax.
  apply keyword_scores_In in Htop. destruct Htop as [kws [Hin [Hpos Hs]]].
  exists kws. split; [exact Hin | split; [exact Hs|]].
  intros c k Hck. rewrite <- Hs.
  destruct (count_in k (lower m)) eqn:Ek.
  - apply Qle_trans with 0%Q.
    + apply category_score_zero. exact Ek.
    + rewrite Hs. apply category_score_nonneg.
  - apply (Hmax (c, category_score k m)).
    apply keyword_scores_In. exists k.
    split; [exact Hck | split; [lia | reflexivity]].
Qed.

Lemma exceeds_threshold_true (m : str) :
  exceeds_threshold m = true <->
  exists c k, In (c, k) _load_intent_keywords /\ (2 # 10 < category_score k m)%Q.
Proof.
  unfold exceeds_threshold. rewrite existsb_exists. split.
  - intros [[c k] [Hin Hq]]. exists c, k. split; [exact Hin|].
    apply Qlt_b_true. exact Hq.
  - intros [c [k [Hin Hq]]]. exists (c, k). split; [exact Hin|].
    apply Qlt_b_true. exact Hq.
Qed.

(** What [classify_intent] does when some category is above 0.2. *)
Lemma classify_intent_keyword_path (m : str) (b : pyval) :
  exceeds_threshold m = true ->
  exists top kws,
    In (top, kws) _load_intent_keywords /\
    (forall c k, In (c, k) _load_intent_keywords ->
                 (category_score k m <= category_score kws m)%Q) /\
    (2 # 10 < category_score kws m)%Q /\
    classify_intent gemini m b =
      ret {| mi_intent := PStr top;
             mi_confidence := PNum (Qmin (category_score kws m * 2) 1)%Q;
             requires_escalation := PBool (_check_escalation_needed m) |}.
Proof.
  intros Hex. apply exceeds_threshold_true in Hex.
  destruct Hex as [c0 [k0 [Hin0 Hgt0]]].
  assert (Hs0 : In (c0, category_score k0 m) (keyword_scores (lower m))).
  { apply keyword_scores_In. exists k0.
    split; [exact Hin0 | split; [|reflexivity]].
    apply above_threshold_counts. exact Hgt0. }
  destruct (keyword_scores (lower m)) as [|first rest] eqn:E; [destruct Hs0|].
  destruct (max_by first rest) as [top s] eqn:Et.
  destruct (top_category m E Et) as [kws [Hin [Hs Hmax]]].
  assert (Hgt : (2 # 10 < category_score kws m)%Q).
  { apply Qlt_le_trans with (category_score k0 m); [exact Hgt0|].
    apply (Hmax c0 k0). exact Hin0. }
  exists top, kws.
  split; [exact Hin | split; [exact Hmax | split; [exact Hgt|]]].
  rewrite <- Hs.
  apply (classify_intent_high m b E Et).
  rewrite Hs. apply Qlt_b_true. exact Hgt.
Qed.

(** What [classify_intent] does when no category is above 0.2. *)
Lemma classify_intent_model_path (m : str) (b : pyval) :
  exceeds_threshold m = false ->
  classify_intent gemini m b = _ai_classify_intent gemini m b.
Proof.
  intros Hex.
  destruct (keyword_scores (lower m)) as [|first rest] eqn:E.
  - apply classify_intent_none. exact E.
  - destruct (max_by first rest) as [top s] eqn:Et.
    destruct (Qlt_b (2 # 10)%Q s) eqn:Hq.
    + exfalso.
      destruct (top_category m E Et) as [kws [Hin [Hs _]]].
      assert (Ht : exceeds_threshold m = true).
      { apply exceeds_threshold_true. exists top, kws.
        split; [exact Hin|]. rewrite <- Hs. apply Qlt_b_true. exact Hq. }
      rewrite Ht in Hex. discriminate Hex.
    + apply (classify_intent_low m b E Et Hq).
Qed.

(** C1. [classify_intent] scores each category by the share of its
    keywords found in the lowercased message.  When some category scores
    above 0.2 it answers, without any call to the model, the category of
    highest score with confidence [min(2 * score, 1)]; otherwise it is the
    model-based classifier.  So the model is consulted for classification
    only when no category is above the threshold. *)
Theorem classify_intent_spec (m : str) (b : pyval) (h : list event) :
  (exceeds_threshold m = true ->
   exists top kws,
     In (top, kws) _load_intent_keywords /\
     (forall c k, In (c, k) _load_intent_keywords ->
                  (category_score k m <= category_score kws m)%Q) /\
     (2 # 10 < category_score kws m)%Q /\
     classify_intent gemini m b h =
       ({| mi_intent := PStr top;
           mi_confidence := PNum (Qmin (category_score kws m * 2) 1)%Q;
           requires_escalation := PBool (_check_escalation_needed m) |}, [])) /\
  (exceeds_threshold m = false ->
   classify_intent gemini m b h = _ai_classify_intent gemini m b h) /\
  (forall p, In (EvGenerate p) (trace (classify_intent gemini m b) h) ->
             exceeds_threshold m = false).
Proof.
  split; [|split].
  - intros Hex.
    destruct (classify_intent_keyword_path m b Hex)
      as (top & kws & Hin & Hmax & Hgt & Heq).
    exists top, kws.
    split; [exact Hin | split; [exact Hmax | split; [exact Hgt|]]].
    rewrite Heq. reflexivity.
  - intros Hex. rewrite (classify_intent_model_path m b Hex). reflexivity.
  - intros p Hp. destruct (exceeds_threshold m) eqn:Hex; [|reflexivity].
    destruct (classify_intent_keyword_path m b Hex)
      as (top & kws & _ & _ & _ & Heq).
    rewrite Heq in Hp. destruct Hp.
Qed.

End KeywordPath.

(** ** The monad *)

Lemma value_bind {A B} (m : M A) (f : A -> M B) (h : list event) :
  value (bind m f) h = value (f (value m h)) (h ++ trace m h).
Proof.
  unfold value, trace, bind. destruct (m h) as [a e1]. cbn [fst snd].
  destruct (f a (h ++ e1)) as [b0 e2]. reflexivity.
Qed.

Lemma trace_bind {A B} (m : M A) (f : A -> M B) (h : list event) :
  trace (bind m f) h = trace m h ++ trace (f (value m h)) (h ++ trace m h).
Proof.
  unfold value, trace, bind. destruct (m h) as [a e1]. cbn [fst snd].
  destruct (f a (h ++ e1)) as [b0 e2]. reflexivity.
Qed.

Lemma value_ret {A} (a : A) (h : list event) : value (ret a) h = a.
Proof. reflexivity. Qed.

Lemma trace_ret {A} (a : A) (h : list event) : trace (ret a) h = [].
Proof. reflexivity. Qed.

Lemma trace_emit (e : event) (h : list event) : trace (emit e) h = [e].
Proof. reflexivity. Qed.

Lemma run_eq {A} (m : M A) (h : list event) : m h = (value m h, trace m h).
Proof. unfold value, trace. destruct (m h). reflexivity. Qed.

(** ** Replies *)

Section ResponsePath.
Context `{CaseMap} `{Json}.
Variable gemini : list event -> prompt -> option str.

Lemma safe_generate_raises (p : prompt) (h : list event) :
  gemini h p = None ->
  _safe_generate_content gemini p h =
    (None, [EvGenerate p; EvLog ERROR (u "Gemini API error: {str(e)}")]).
Proof.
  intros Hg. unfold _safe_generate_content, bind, history, emit.
  rewrite Hg. reflexivity.
Qed.

Lemma safe_generate_returns (p : prompt) (h : list event) (t : str) :
  gemini h p = Some t ->
  _safe_generate_content gemini p h = (Some t, [EvGenerate p]).
Proof.
  intros Hg. unfold _safe_generate_content, bind, history, emit.
  rewrite Hg. reflexivity.
Qed.

(** The model is asked exactly once, with the given prompt. *)
Lemma safe_generate_trace (p : prompt) (h : list event) :
  forall q, In (EvGenerate q) (trace (_safe_generate_content gemini p) h) -> q = p.
Proof.
  intros q0 Hin. unfold trace in Hin.
  destruct (gemini h p) as [t|] eqn:Hg.
  - rewrite (@safe_generate_returns p h t Hg) in Hin.
    destruct Hin as [Hq|[]]. now injection Hq.
  - rewrite (@safe_generate_raises p h Hg) in Hin.
    destruct Hin as [Hq|[Hq|[]]]; [now injection Hq | discriminate Hq].
Qed.

Lemma safe_generate_value (p : prompt) (h : list event) :
  value (_safe_generate_content gemini p) h = gemini h p.
Proof.
  unfold value. destruct (gemini h p) as [t|] eqn:Hg.
  - rewrite (@safe_generate_returns p h t Hg). reflexivity.
  - rewrite (@safe_generate_raises p h Hg). reflexivity.
Qed.

Lemma english_response_built (m : str) (b : pyval) (i : MessageIntent)
      (p : prompt) (h : list event) :
  english_prompt m b i = Some p ->
  value (_generate_english_response gemini m b i) h =
    reply (match nonempty (gemini h p) with
           | Some t => t
           | None => english_fallback
           end) i.
Proof.
  intros Hp. unfold _generate_english_response. rewrite Hp.
  rewrite value_bind, value_ret, safe_generate_value. reflexivity.
Qed.

Lemma french_response_built (m : str) (b : pyval) (i : MessageIntent)
      (p : prompt) (h : list event) :
  french_prompt m b i = Some p ->
  value (_generate_french_response gemini m b i) h =
    reply (match nonempty (gemini h p) with
           | Some t => t
           | None => french_fallback
           end) i.
Proof.
  intros Hp. unfold _generate_french_response. rewrite Hp.
  rewrite value_bind, value_ret, safe_generate_value. reflexivity.
Qed.

Lemma english_response_failed (m : str) (b : pyval) (i : MessageIntent)
      (h : list event) :
  english_prompt m b i = None ->
  _generate_english_response gemini m b i h =
    (error_reply english_error_reply i, [EvLog ERROR (u "English response error: {str(e)}")]).
Proof. intros Hp. unfold _generate_english_response. rewrite Hp. reflexivity. Qed.

Lemma french_response_failed (m : str) (b : pyval) (i : MessageIntent)
      (h : list event) :
  french_prompt m b i = None ->
  _generate_french_response gemini m b i h =
    (error_reply french_error_reply i, [EvLog ERROR (u "French response error: {str(e)}")]).
Proof. intros Hp. unfold _generate_french_response. rewrite Hp. reflexivity. Qed.

(** C4. When the SDK call raises, [_safe_generate_content] logs the
    error and returns [None], and both generators answer with their
    fixed fallback sentence. *)
Theorem sdk_failure_fallback (h : list event) (p : prompt) :
  gemini h p = None ->
  _safe_generate_content gemini p h =
    (None, [EvGenerate p; EvLog ERROR (u "Gemini API error: {str(e)}")]) /\
  (forall m b i,
     english_prompt m b i = Some p ->
     value (_generate_english_response gemini m b i) h =
       reply (u "Thanks for reaching out! How can I help you today?") i) /\
  (forall m b i,
     french_prompt m b i = Some p ->
     value (_generate_french_response gemini m b i) h =
       reply (u "Merci de nous contacter! Comment puis-je vous aider aujourd'hui?") i).
Proof.
  intros Hg. split; [exact (@safe_generate_raises p h Hg) | split].
  - intros m b i Hp. rewrite (@english_response_built m b i p h Hp), Hg. reflexivity.
  - intros m b i Hp. rewrite (@french_response_built m b i p h Hp), Hg. reflexivity.
Qed.

Ltac split_matches :=
  repeat match goal with
         | |- context [match ?x with _ => _ end] => destruct x
         end.

Lemma classify_prompt_template (m : str) (b : pyval) (p : prompt) :
  classify_prompt m b = Some p ->
  p_template p =
    if str_eqb (detect_language m) (u "french") then ClassifyFr else ClassifyEn.
Proof.
  unfold classify_prompt. split_matches; intros Hp;
    try discriminate Hp; injection Hp as <-; reflexivity.
Qed.

Lemma french_prompt_template (m : str) (b : pyval) (i : MessageIntent)
      (p : prompt) :
  french_prompt m b i = Some p ->
  template_language (p_template p) = French /\ is_classify (p_template p) = false
  /\ p_message p = m.
Proof.
  unfold french_prompt. split_matches; intros Hp;
    try discriminate Hp; injection Hp as <-; repeat split.
Qed.

Lemma english_prompt_template (m : str) (b : pyval) (i : MessageIntent)
      (p : prompt) :
  english_prompt m b i = Some p ->
  template_language (p_template p) = English /\ is_classify (p_template p) = false
  /\ p_message p = m.
Proof.
  unfold english_prompt. split_matches; intros Hp;
    try discriminate Hp; injection Hp as <-; repeat split.
Qed.

(** The only prompt that [_ai_classify_intent] sends is its own. *)
Lemma ai_classify_trace (m : str) (b : pyval) (h : list event) (p : prompt) :
  In (EvGenerate p) (trace (_ai_classify_intent gemini m b) h) ->
  classify_prompt m b = Some p.
Proof.
  unfold _ai_classify_intent.
  destruct (classify_prompt m b) as [p0|].
  - rewrite trace_bind, in_app_iff. intros [Hin|Hin].
    + apply safe_generate_trace in Hin. now subst.
    + exfalso. revert Hin.
      destruct (nonempty (value (_safe_generate_content gemini p0) h)) as [t|].
      * destruct (intent_of_reply t) as [mi|].
        -- intros [].
        -- intros [Hx|[]]. discriminate Hx.
      * intros [].
  - intros [Hx|[]]. discriminate Hx.
Qed.

Lemma french_response_trace (m : str) (b : pyval) (i : MessageIntent)
      (h : list event) (p : prompt) :
  In (EvGenerate p) (trace (_generate_french_response gemini m b i) h) ->
  french_prompt m b i = Some p.
Proof.
  unfold _generate_french_response.
  destruct (french_prompt m b i) as [p0|].
  - rewrite trace_bind, in_app_iff, trace_ret. intros [Hin|[]].
    apply safe_generate_trace in Hin. now subst.
  - intros [Hx|[]]. discriminate Hx.
Qed.

Lemma english_response_trace (m : str) (b : pyval) (i : MessageIntent)
      (h : list event) (p : prompt) :
  In (EvGenerate p) (trace (_generate_english_response gemini m b i) h) ->
  english_prompt m b i = Some p.
Proof.
  unfold _generate_english_response.
  destruct (english_prompt m b i) as [p0|].
  - rewrite trace_bind, in_app_iff, trace_ret. intros [Hin|[]].
    apply safe_generate_trace in Hin. now subst.
  - intros [Hx|[]]. discriminate Hx.
Qed.

(** Every prompt that [classify_intent] sends is the classification
    prompt, and it is sent only below the threshold. *)
Lemma classify_intent_trace (m : str) (b : pyval) (h : list event) (p : prompt) :
  In (EvGenerate p) (trace (classify_intent gemini m b) h) ->
  classify_prompt m b = Some p /\ exceeds_threshold m = false.
Proof.
  intros Hin. destruct (exceeds_threshold m) eqn:Hex.
  - destruct (classify_intent_keyword_path gemini m b Hex)
      as (top & kws & _ & _ & _ & Heq).
    rewrite Heq in Hin. destruct Hin.
  - rewrite (classify_intent_model_path gemini m b Hex) in Hin.
    split; [|reflexivity]. exact (ai_classify_trace m b h p Hin).
Qed.

Lemma generate_response_run (m : str) (b : pyval) (h : list event) :
  let i := value (classify_intent gemini m b) h in
  let h' := h ++ trace (classify_intent gemini m b) h in
  let g := if str_eqb (detect_language m) (u "french")
           then _generate_french_response gemini m b i
           else _generate_english_response gemini m b i in
  value (generate_response gemini m b) h = value g h' /\
  trace (generate_response gemini m b) h =
    trace (classify_intent gemini m b) h ++ trace g h'.
Proof.
  intros i h' g. subst i h' g. unfold generate_response.
  rewrite value_bind, trace_bind.
  destruct (str_eqb (detect_language m) (u "french")); split; reflexivity.
Qed.

(** C5. [generate_response] answers through the French generator exactly
    when [detect_language] says ['french'] and through the English one
    otherwise; every prompt it sends, for classification or for the
    reply, is written in that language. *)
Theorem generate_response_language (m : str) (b : pyval) (h : list event) :
  let i := value (classify_intent gemini m b) h in
  let h' := h ++ trace (classify_intent gemini m b) h in
  (detect_language m = u "french" ->
   value (generate_response gemini m b) h =
     value (_generate_french_response gemini m b i) h') /\
  (detect_language m <> u "french" ->
   value (generate_response gemini m b) h =
     value (_generate_english_response gemini m b i) h') /\
  (forall p, In (EvGenerate p) (trace (generate_response gemini m b) h) ->
             (template_language (p_template p) = French <->
              detect_language m = u "french")).
Proof.
  intros i h'. subst i h'.
  destruct (generate_response_run m b h) as [Hv Ht].
  destruct (str_eqb (detect_language m) (u "french")) eqn:El.
  - apply str_eqb_eq in El. split; [|split].
    + intros _. exact Hv.
    + intros Hn. contradiction.
    + intros p Hp. split; [intros _; exact El | intros _].
      rewrite Ht, in_app_iff in Hp. destruct Hp as [Hp|Hp].
      * apply classify_intent_trace in Hp. destruct Hp as [Hp _].
        apply classify_prompt_template in Hp. rewrite Hp.
        apply str_eqb_eq in El. rewrite El. reflexivity.
      * apply french_response_trace in Hp.
        apply french_prompt_template in Hp. apply Hp.
  - assert (Hne : detect_language m <> u "french").
    { intros Heq. apply str_eqb_eq in Heq. rewrite Heq in El. discriminate El. }
    split; [|split].
    + intros Heq. contradiction.
    + intros _. exact Hv.
    + intros p Hp. split; [|intros Heq; contradiction].
      intros Hfr. exfalso.
      rewrite Ht, in_app_iff in Hp. destruct Hp as [Hp|Hp].
      * apply classify_intent_trace in Hp. destruct Hp as [Hp _].
        apply classify_prompt_template in Hp. rewrite Hp, El in Hfr.
        discriminate Hfr.
      * apply english_response_trace in Hp.
        apply english_prompt_template in Hp. destruct Hp as [Hp _].
        rewrite Hp in Hfr. discriminate Hfr.
Qed.


Lemma eq_str_spec (v : pyval) (s : str) : eq_str v s = true <-> v = PStr s.
Proof.
  destruct v; simpl; try (split; [discriminate | intros Hx; discriminate Hx]).
  rewrite str_eqb_eq. split; [now intros -> | intros Hx; now injection Hx].
Qed.

Lemma py_or_bool (t c : bool) : py_or (PBool t) (PBool c) = PBool (t || c).
Proof. destruct t; reflexivity. Qed.

(** The intent that [_ai_classify_intent] returns is the fallback one,
    or the one read from the model's reply. *)
Lemma ai_classify_value (m : str) (b : pyval) (h : list event) :
  value (_ai_classify_intent gemini m b) h = _fallback_intent_classification m \/
  exists p t mi,
    classify_prompt m b = Some p /\ gemini h p = Some t /\
    intent_of_reply t = Some mi /\
    value (_ai_classify_intent gemini m b) h = mi.
Proof.
  unfold _ai_classify_intent.
  destruct (classify_prompt m b) as [p0|]; [|left; reflexivity].
  rewrite value_bind, safe_generate_value.
  destruct (gemini h p0) as [t|] eqn:Hg; [|left; reflexivity].
  destruct t as [|c t]; [left; reflexivity|]. cbn [nonempty].
  destruct (intent_of_reply (c :: t)) as [mi|] eqn:Hi; [|left; reflexivity].
  right. exists p0, (c :: t), mi. repeat split; assumption.
Qed.

(** C6, as the code has it.  The reply escalates when the classified
    intent asks for it or is ['complaint'], provided the reply prompt
    could be built; it never escalates otherwise.  The intent asks for
    escalation by the trigger list on the keyword and fallback paths,
    and by the model's own [escalate] field when the model classified. *)
Theorem escalate_spec (m : str) (b : pyval) (h : list event) :
  let i := value (classify_intent gemini m b) h in
  let r := value (generate_response gemini m b) h in
  let built := if str_eqb (detect_language m) (u "french")
               then french_prompt m b i else english_prompt m b i in
  (built <> None ->
   escalate r = py_or (requires_escalation i)
                      (PBool (eq_str (mi_intent i) (u "complaint")))) /\
  (built = None -> escalate r = PBool false) /\
  (exceeds_threshold m = true ->
   requires_escalation i = PBool (_check_escalation_needed m)) /\
  (exceeds_threshold m = false ->
   i = _fallback_intent_classification m \/
   exists p t, classify_prompt m b = Some p /\ gemini h p = Some t /\
               intent_of_reply t = Some i) /\
  (requires_escalation i = PBool (_check_escalation_needed m) ->
   built <> None ->
   (escalate r = PBool true <->
    _check_escalation_needed m = true \/ mi_intent i = PStr (u "complaint"))).
Proof.
  intros i r built.
  assert (Hbuilt : built <> None ->
            escalate r = py_or (requires_escalation i)
                               (PBool (eq_str (mi_intent i) (u "complaint")))).
  { subst r built. destruct (generate_response_run m b h) as [Hv _].
    rewrite Hv. fold i.
    destruct (str_eqb (detect_language m) (u "french")).
    - destruct (french_prompt m b i) as [p|] eqn:Hp; [|intros Hn; now contradiction Hn].
      intros _. rewrite (@french_response_built m b i p _ Hp). reflexivity.
    - destruct (english_prompt m b i) as [p|] eqn:Hp; [|intros Hn; now contradiction Hn].
      intros _. rewrite (@english_response_built m b i p _ Hp). reflexivity. }
  split; [exact Hbuilt | split; [|split; [|split]]].
  - subst r built. destruct (generate_response_run m b h) as [Hv _].
    rewrite Hv. fold i.
    destruct (str_eqb (detect_language m) (u "french")); intros Hp; unfold value.
    + rewrite (@french_response_failed m b i _ Hp). reflexivity.
    + rewrite (@english_response_failed m b i _ Hp). reflexivity.
  - intros Hex. subst i.
    destruct (classify_intent_keyword_path gemini m b Hex)
      as (top & kws & _ & _ & _ & Heq).
    rewrite Heq. reflexivity.
  - intros Hex. subst i.
    rewrite (classify_intent_model_path gemini m b Hex).
    destruct (ai_classify_value m b h) as [Hf|(p & t & mi & Hp & Hg & Hi & Hv)].
    + left. exact Hf.
    + right. exists p, t. rewrite Hv. repeat split; assumption.
  - intros Hreq Hb. rewrite (Hbuilt Hb), Hreq, py_or_bool. split.
    + intros Hx. injection Hx as Hx. apply orb_true_iff in Hx.
      destruct Hx as [Hx|Hx]; [left; exact Hx | right; now apply eq_str_spec].
    + intros [Hx|Hx]; f_equal; apply orb_true_iff;
        [left; exact Hx | right; now apply eq_str_spec].
Qed.

End ResponsePath.

Lemma sdk_failure_fallback_witness :
  text (value (_generate_english_response (fun _ _ => None)
                 (u "hello") (PDict []) hello_intent) [])
  = u "Thanks for reaching out! How can I help you today?" /\
  text (value (_generate_french_response (fun _ _ => None)
                 (u "bonjour, merci") (PDict []) hello_intent) [])
  = u "Merci de nous contacter! Comment puis-je vous aider aujourd'hui?".
Proof.
  split.
  - pose proof (@sdk_failure_fallback LatinCase (fun _ _ => None) []
                  {| p_template := EnGeneral; p_message := u "hello";
                     p_fields := [PStr (u "Local Business")] |} eq_refl)
      as [_ [He _]].
    rewrite (He (u "hello") (PDict []) hello_intent eq_refl). reflexivity.
  - pose proof (@sdk_failure_fallback LatinCase (fun _ _ => None) []
                  {| p_template := FrGeneral; p_message := u "bonjour, merci";
                     p_fields := [PNone] |} eq_refl)
      as [_ [_ Hf]].
    rewrite (Hf (u "bonjour, merci") (PDict []) hello_intent eq_refl). reflexivity.
Defined.

(** The model may ask for escalation of a message that holds no trigger
    and is no complaint, and may decline it for one that holds a
    trigger. *)
Lemma escalate_counterexample :
  let asks := value (@generate_response LatinCase DemoJson
                       (fun _ _ => Some reply_escalate) (u "hello") (PDict [])) [] in
  let declines := value (@generate_response LatinCase DemoJson
                           (fun _ _ => Some reply_calm)
                           (u "I want the owner") (PDict [])) [] in
  (escalate asks = PBool true /\
   _check_escalation_needed (u "hello") = false /\
   intent asks = PStr (u "general")) /\
  (escalate declines = PBool false /\
   _check_escalation_needed (u "I want the owner") = true).
Proof. vm_compute. repeat split. Qed.

(** ** The business record *)

Lemma str_neq (a b : str) : str_eqb a b = false -> a <> b.
Proof.
  intros Hf Heq. apply str_eqb_eq in Heq. rewrite Heq in Hf. discriminate Hf.
Qed.

Lemma str_eqb_refl (a : str) : str_eqb a a = true.
Proof. now apply str_eqb_eq. Qed.

Lemma str_eqb_neq (a b : str) : a <> b -> str_eqb a b = false.
Proof.
  intros Hn. destruct (str_eqb a b) eqn:E; [|reflexivity].
  apply str_eqb_eq in E. contradiction.
Qed.

Lemma assoc_update_same (d : list (str * pyval)) (k : str) (v : pyval) :
  assoc (update d k v) k = Some v.
Proof.
  induction d as [|[k' v'] d IH]; simpl.
  - now rewrite str_eqb_refl.
  - destruct (str_eqb k' k) eqn:E; simpl; rewrite E; [reflexivity | exact IH].
Qed.

Lemma assoc_update_other (d : list (str * pyval)) (k k' : str) (v : pyval) :
  k <> k' -> assoc (update d k v) k' = assoc d k'.
Proof.
  intros Hn. induction d as [|[k0 v0] d IH]; simpl.
  - now rewrite (str_eqb_neq Hn).
  - destruct (str_eqb k0 k) eqn:E; simpl.
    + apply str_eqb_eq in E. subst k0. now rewrite (str_eqb_neq Hn).
    + now rewrite IH.
Qed.

Lemma keys_update (d : list (str * pyval)) (k : str) (v : pyval) :
  assoc d k <> None -> map fst (update d k v) = map fst d.
Proof.
  induction d as [|[k0 v0] d IH]; simpl; [congruence|].
  destruct (str_eqb k0 k) eqn:E; simpl; [reflexivity|].
  intros Hd. now rewrite IH.
Qed.

Section BusinessRecord.
Context `{Json}.
Variable sqlite : list event -> str -> list pyval -> sql_result.

Lemma loads_or_returns (stored : pyval) (literal : str) (default v : pyval) :
  json_loads literal = JsonValue default ->
  loads_or stored literal default = Returns v ->
  parsed_or stored default v.
Proof.
  intros Hlit. unfold loads_or, parsed_or.
  destruct (truthy stored) eqn:Et.
  - intros Hl. right. split; [reflexivity|].
    destruct stored; try (injection Hl as <-; right; right;
                          repeat split; [intros s0; discriminate
                                        |intros b0; discriminate]).
    + left. exists s. split; [reflexivity|].
      destruct (json_loads s); [injection Hl as <-; now left
                               |injection Hl as <-; now right
                               |discriminate Hl].
    + right; left. exists b. split; [reflexivity|].
      destruct (json_loads_bytes b); [injection Hl as <-; now left
                                     |injection Hl as <-; now right
                                     |discriminate Hl].
  - rewrite Hlit. intros Hl. injection Hl as <-. now left.
Qed.

Lemma parse_field_returns (business b' : list (str * pyval))
      (column literal : str) (default : pyval) :
  json_loads literal = JsonValue default ->
  parse_field business column literal default = Returns b' ->
  exists stored v,
    assoc business column = Some stored /\
    parsed_or stored default v /\
    b' = update business column v.
Proof.
  intros Hlit. unfold parse_field.
  destruct (assoc business column) as [stored|]; [|discriminate].
  destruct (loads_or stored literal default) as [v|e] eqn:El; [|discriminate].
  intros Hb. injection Hb as <-. exists stored, v.
  split; [reflexivity | split; [|reflexivity]].
  eapply loads_or_returns; eassumption.
Qed.

(** What [get_business_by_phone] returns, by what the database answers. *)
Lemma get_business_by_phone_value (phone : pyval) (h : list event) :
  value (get_business_by_phone sqlite phone) h =
  match sqlite h select_business [phone] with
  | SqlRows (row :: _) =>
    if truthy (PDict row) then
      match parse_json_fields row with
      | Returns business => PDict business
      | Raises _ => PNone
      end
    else PNone
  | _ => PNone
  end.
Proof.
  unfold get_business_by_phone, try_except, execute, value, bind, history,
    emit, ret, raise, ok, bindE, pure.
  cbn [fst snd]. rewrite app_nil_r.
  destruct (sqlite h select_business [phone]) as [e|e|[|row rest]];
    try reflexivity.
  cbn [fst snd]. destruct (truthy (PDict row)); [|reflexivity].
  cbn [fst snd bind ret].
  destruct (parse_json_fields row); reflexivity.
Qed.

Lemma loads_or_decodes (stored : pyval) (literal : str) (default : pyval) :
  json_loads literal = JsonValue default ->
  if decodes stored
  then exists v, loads_or stored literal default = Returns v
  else exists e, loads_or stored literal default = Raises e.
Proof.
  intros Hlit. unfold decodes, loads_or.
  destruct (truthy stored); cbn [negb orb].
  - destruct stored; try (eexists; reflexivity).
    + destruct (json_loads s); eexists; reflexivity.
    + destruct (json_loads_bytes b); eexists; reflexivity.
  - rewrite Hlit. eexists; reflexivity.
Qed.

Lemma parse_field_decodes (business : list (str * pyval))
      (column literal : str) (default : pyval) :
  json_loads literal = JsonValue default ->
  if match assoc business column with
     | Some stored => decodes stored
     | None => false
     end
  then exists v, parse_field business column literal default
                 = Returns (update business column v)
  else exists e, parse_field business column literal default = Raises e.
Proof.
  intros Hlit. unfold parse_field.
  destruct (assoc business column) as [stored|]; [|eexists; reflexivity].
  pose proof (@loads_or_decodes stored literal default Hlit) as Hl.
  destruct (decodes stored); destruct Hl as [x ->]; eexists; reflexivity.
Qed.

(** The three columns are read exactly when the row is readable. *)
Lemma parse_json_fields_readable (row : list (str * pyval)) :
  if readable row
  then exists business, parse_json_fields row = Returns business
  else exists e, parse_json_fields row = Raises e.
Proof.
  assert (Nsf : u "services" <> u "faq_data") by (intros Hx; vm_compute in Hx; discriminate Hx).
  assert (Nsp : u "services" <> u "pricing_data") by (intros Hx; vm_compute in Hx; discriminate Hx).
  assert (Nfp : u "faq_data" <> u "pricing_data") by (intros Hx; vm_compute in Hx; discriminate Hx).
  unfold readable, parse_json_fields. cbn [forallb].
  pose proof (@parse_field_decodes row (u "services") (u "[]") (PList [])
                json_loads_empty_list) as H1.
  destruct (match assoc row (u "services") with
            | Some stored => decodes stored
            | None => false
            end); cbn [andb];
    [destruct H1 as [v1 ->] | destruct H1 as [e ->]; eexists; reflexivity].
  cbn [and_then].
  pose proof (@parse_field_decodes (update row (u "services") v1) (u "faq_data")
                (u "{}") (PDict []) json_loads_empty_dict) as H2.
  rewrite (@assoc_update_other row _ _ v1 Nsf) in H2.
  destruct (match assoc row (u "faq_data") with
            | Some stored => decodes stored
            | None => false
            end); cbn [andb];
    [destruct H2 as [v2 ->] | destruct H2 as [e ->]; eexists; reflexivity].
  cbn [and_then].
  pose proof (@parse_field_decodes
                (update (update row (u "services") v1) (u "faq_data") v2)
                (u "pricing_data") (u "{}") (PDict []) json_loads_empty_dict) as H3.
  rewrite (@assoc_update_other _ _ _ v2 Nfp), (@assoc_update_other row _ _ v1 Nsp) in H3.
  destruct (match assoc row (u "pricing_data") with
            | Some stored => decodes stored
            | None => false
            end); cbn [andb];
    [destruct H3 as [v3 ->] | destruct H3 as [e ->]]; eexists; reflexivity.
Qed.

Lemma parse_json_fields_returns (row business : list (str * pyval)) :
  parse_json_fields row = Returns business ->
  map fst business = map fst row /\
  (forall k, k <> u "services" -> k <> u "faq_data" -> k <> u "pricing_data" ->
             assoc business k = assoc row k) /\
  column_parsed row business (u "services") (PList []) /\
  column_parsed row business (u "faq_data") (PDict []) /\
  column_parsed row business (u "pricing_data") (PDict []).
Proof.
  unfold parse_json_fields, and_then.
  destruct (parse_field row (u "services") (u "[]") (PList [])) as [b1|] eqn:E1;
    [|discriminate].
  destruct (parse_field b1 (u "faq_data") (u "{}") (PDict [])) as [b2|] eqn:E2;
    [|discriminate].
  intros E3.
  apply parse_field_returns in E1; [|exact json_loads_empty_list].
  apply parse_field_returns in E2; [|exact json_loads_empty_dict].
  apply parse_field_returns in E3; [|exact json_loads_empty_dict].
  destruct E1 as (s1 & v1 & Hs1 & Hp1 & ->).
  destruct E2 as (s2 & v2 & Hs2 & Hp2 & ->).
  destruct E3 as (s3 & v3 & Hs3 & Hp3 & ->).
  assert (Nsf : u "services" <> u "faq_data") by (apply str_neq; reflexivity).
  assert (Nsp : u "services" <> u "pricing_data") by (apply str_neq; reflexivity).
  assert (Nfp : u "faq_data" <> u "pricing_data") by (apply str_neq; reflexivity).
  rewrite (@assoc_update_other _ _ _ _ Nsf) in Hs2.
  rewrite (@assoc_update_other _ _ _ _ Nfp), (@assoc_update_other _ _ _ _ Nsp) in Hs3.
  split; [|split; [|split; [|split]]].
  - rewrite !keys_update; try reflexivity.
    + rewrite Hs1. discriminate.
    + rewrite (@assoc_update_other _ _ _ _ Nsf), Hs2. discriminate.
    + rewrite (@assoc_update_other _ _ _ _ Nfp), (@assoc_update_other _ _ _ _ Nsp), Hs3.
      discriminate.
  - intros k Hk1 Hk2 Hk3.
    rewrite !assoc_update_other; auto.
  - exists s1, v1. split; [exact Hs1 | split; [|exact Hp1]].
    rewrite (@assoc_update_other _ _ _ _ (not_eq_sym Nsp)),
            (@assoc_update_other _ _ _ _ (not_eq_sym Nsf)).
    apply assoc_update_same.
  - exists s2, v2. split; [exact Hs2 | split; [|exact Hp2]].
    rewrite (@assoc_update_other _ _ _ _ (not_eq_sym Nfp)).
    apply assoc_update_same.
  - exists s3, v3. split; [exact Hs3 | split; [|exact Hp3]].
    apply assoc_update_same.
Qed.

(** C9, as the code has it.  [get_business_by_phone] never raises.  When
    the SELECT yields a row whose three JSON columns can be read, it
    returns that row as a dict, with the keys of the row in their order
    and every other column as stored; each JSON column holds its default
    ([[]] or [{}]) when the stored value is missing, empty, not JSON or
    not text, and otherwise whatever JSON value the stored text decodes
    to, a list or not.  It returns [None] in every other case: when the
    database raises, when no row matches, and when reading a column
    raises something other than [JSONDecodeError] or [TypeError]. *)
Theorem get_business_by_phone_spec (phone : pyval) (h : list event) :
  let r := value (get_business_by_phone sqlite phone) h in
  match sqlite h select_business [phone] with
  | SqlRows (row :: _) =>
    if readable row then
      exists business,
        r = PDict business /\
        map fst business = map fst row /\
        (forall k, k <> u "services" -> k <> u "faq_data" ->
                   k <> u "pricing_data" -> assoc business k = assoc row k) /\
        column_parsed row business (u "services") (PList []) /\
        column_parsed row business (u "faq_data") (PDict []) /\
        column_parsed row business (u "pricing_data") (PDict [])
    else r = PNone
  | SqlRows [] | SqlError _ | SqlNoCursor _ => r = PNone
  end.
Proof.
  intros r. subst r. rewrite get_business_by_phone_value.
  destruct (sqlite h select_business [phone]) as [e|e|[|row rest]];
    try reflexivity.
  pose proof (parse_json_fields_readable row) as Hread.
  destruct (readable row) eqn:Er.
  - destruct Hread as [business Hb].
    assert (Ht : truthy (PDict row) = true).
    { destruct row; [discriminate Er | reflexivity]. }
    rewrite Ht, Hb. exists business. split; [reflexivity|].
    apply parse_json_fields_returns. exact Hb.
  - destruct Hread as [e ->]. destruct (truthy (PDict row)); reflexivity.
Qed.

End BusinessRecord.

(** A stored [services] of [null] is read as [None], no list, and a
    stored [faq_data] of [[]] as a list, no object; a [services] blob
    that is not UTF-8 makes the lookup answer [None] although the row
    is there and the database did not fail. *)
Lemma business_record_counterexample :
  value (@get_business_by_phone DemoJson
           (fun _ _ _ => SqlRows [stored_business (PStr (u "null"))])
           (PStr (u "+15145550100"))) []
  = PDict [ (u "id", PStr (u "demo_business_001"));
            (u "name", PStr (u "Demo Hair Salon"));
            (u "phone", PStr (u "+15145550100"));
            (u "services", PNone);
            (u "faq_data", PList []);
            (u "pricing_data", PDict []) ] /\
  value (@get_business_by_phone DemoJson
           (fun _ _ _ => SqlRows [stored_business (PBytes [255%N])])
           (PStr (u "+15145550100"))) []
  = PNone.
Proof. split; vm_compute; reflexivity. Qed.

(** ** A calculus of runs *)

Lemma sat_ret {A} (a : A) (Q : A -> list event -> Prop) :
  Q a [] -> sat (ret a) Q.
Proof. intros HQ h. exact HQ. Qed.

Lemma sat_emit (e : event) (Q : unit -> list event -> Prop) :
  Q tt [e] -> sat (emit e) Q.
Proof. intros HQ h. exact HQ. Qed.

Lemma sat_bind {A B} (m : M A) (k : A -> M B)
      (P : A -> list event -> Prop) (Q : B -> list event -> Prop) :
  sat m P ->
  (forall a t, P a t -> sat (k a) (fun b t' => Q b (t ++ t'))) ->
  sat (bind m k) Q.
Proof.
  intros Hm Hk h. rewrite value_bind, trace_bind. exact (Hk _ _ (Hm h) _).
Qed.

Lemma sat_weaken {A} (m : M A) (P Q : A -> list event -> Prop) :
  sat m P -> (forall a t, P a t -> Q a t) -> sat m Q.
Proof. intros Hm HPQ h. apply HPQ, Hm. Qed.

Lemma sat_true {A} (m : M A) : sat m (fun _ _ => True).
Proof. intros h. exact I. Qed.

Lemma sat_and {A} (m : M A) (P Q : A -> list event -> Prop) :
  sat m P -> sat m Q -> sat m (fun a t => P a t /\ Q a t).
Proof. intros HP HQ h. split; [apply HP | apply HQ]. Qed.

Lemma sat_pure {A} (o : outcome A) (Q : outcome A -> list event -> Prop) :
  Q o [] -> sat (pure o) Q.
Proof. intros HQ h. exact HQ. Qed.

Lemma sat_bindE {A B} (m : E A) (k : A -> E B)
      (P : outcome A -> list event -> Prop)
      (Q : outcome B -> list event -> Prop) :
  sat m P ->
  (forall a t, P (Returns a) t -> sat (k a) (fun r t' => Q r (t ++ t'))) ->
  (forall e t, P (Raises e) t -> Q (Raises e) t) ->
  sat (bindE m k) Q.
Proof.
  intros Hm Hk He. unfold bindE. eapply sat_bind; [exact Hm|].
  intros [a|e] t HP; [now apply Hk|].
  apply sat_ret. rewrite app_nil_r. now apply He.
Qed.

Lemma sat_lift {A} (m : M A) (Q : outcome A -> list event -> Prop) :
  sat m (fun a t => Q (Returns a) t) -> sat (lift m) Q.
Proof.
  intros Hm. unfold lift. eapply sat_bind; [exact Hm|].
  intros a t HQ. apply sat_ret. now rewrite app_nil_r.
Qed.

Lemma sat_try_except {A} (m : E A) (handler : exn -> M A)
      (P : outcome A -> list event -> Prop) (Q : A -> list event -> Prop) :
  sat m P ->
  (forall a t, P (Returns a) t -> Q a t) ->
  (forall e t, P (Raises e) t -> sat (handler e) (fun b t' => Q b (t ++ t'))) ->
  sat (try_except m handler) Q.
Proof.
  intros Hm Hr Hh. unfold try_except. eapply sat_bind; [exact Hm|].
  intros [a|e] t HP; [|now apply Hh].
  apply sat_ret. rewrite app_nil_r. now apply Hr.
Qed.

Lemma sat_invoke (name : str) (f : method) (args : list pyobj)
      (P Q : outcome pyobj -> list event -> Prop) :
  sat (f args) P ->
  (forall r t, P r t -> Q r (EvCall name args :: t)) ->
  sat (invoke name f args) Q.
Proof.
  intros Hf HPQ. unfold invoke.
  apply sat_bind with (P := fun _ t => t = [EvCall name args]).
  - intros h. reflexivity.
  - intros [] t ->. eapply sat_weaken; [exact Hf|].
    intros r t HP. now apply HPQ.
Qed.

(** The three steps that the handlers are made of. *)
Lemma sat_step_pure {A B} (o : outcome A) (k : A -> E B)
      (Q : outcome B -> list event -> Prop) :
  (forall a, o = Returns a -> sat (k a) Q) ->
  (forall e, o = Raises e -> Q (Raises e) []) ->
  sat (bindE (pure o) k) Q.
Proof.
  intros Hk He. apply sat_bindE with (P := fun r t => r = o /\ t = []).
  - intros h. split; reflexivity.
  - intros a t [Ho ->]. now apply Hk.
  - intros e t [Ho ->]. now apply He.
Qed.

Lemma sat_step_log {B} (e : event) (k : unit -> E B)
      (Q : outcome B -> list event -> Prop) :
  sat (k tt) (fun r t => Q r (e :: t)) ->
  sat (bindE (lift (emit e)) k) Q.
Proof.
  intros Hk. apply sat_bindE with (P := fun r t => r = Returns tt /\ t = [e]).
  - intros h. split; reflexivity.
  - intros [] t [_ ->]. exact Hk.
  - intros e0 t [Hx _]. discriminate Hx.
Qed.

Lemma sat_step_invoke {B} (name : str) (f : method) (args : list pyobj)
      (k : pyobj -> E B) (P : outcome pyobj -> list event -> Prop)
      (Q : outcome B -> list event -> Prop) :
  sat (f args) P ->
  (forall a t, P (Returns a) t ->
               sat (k a) (fun r t' => Q r (EvCall name args :: t ++ t'))) ->
  (forall e t, P (Raises e) t -> Q (Raises e) (EvCall name args :: t)) ->
  sat (bindE (invoke name f args) k) Q.
Proof.
  intros Hf Hk He.
  apply sat_bindE
    with (P := fun r t => exists t', t = EvCall name args :: t' /\ P r t').
  - eapply sat_invoke; [exact Hf|]. intros r t HP. now exists t.
  - intros a t (t' & -> & HP). now apply Hk.
  - intros e t (t' & -> & HP). now apply He.
Qed.

(** ** Calls in a trace *)

Lemma no_call_named (name : str) (t : list event) :
  existsb any_call t = false -> existsb (is_call name) t = false.
Proof.
  induction t as [|e t IH]; [reflexivity|]. simpl.
  intros Ht. apply orb_false_iff in Ht as [He Ht].
  rewrite (IH Ht). destruct e; try reflexivity. discriminate He.
Qed.

Lemma getattr_quiet (class_name name : str) (m : option method) (f : method) :
  quiet m -> getattr class_name name m = Returns f -> quiet_method f.
Proof.
  intros Hq. destruct m as [g|]; [|discriminate]. intros Hg.
  injection Hg as <-. now apply Hq.
Qed.

Lemma quiet_sat (f : method) (args : list pyobj) :
  quiet_method f -> sat (f args) (fun _ t => existsb any_call t = false).
Proof. intros Hq h. apply Hq. Qed.

(** If the first part of a trace holds no [send_sms], and the second
    holds one only when the first holds a [log_interaction], then in the
    whole trace a [log_interaction] comes before every [send_sms]. *)
Lemma log_before_send (t1 t2 : list event) :
  sends t1 = false ->
  (sends t2 = true -> logs t1 = true) ->
  forall pre x post,
    t1 ++ t2 = pre ++ x :: post -> is_call (u "send_sms") x = true ->
    logs pre = true.
Proof.
  induction t1 as [|a t1 IH]; intros Hs Hl pre x post Heq Hx.
  - assert (Ht2 : sends t2 = true).
    { simpl in Heq. rewrite Heq. unfold sends. rewrite existsb_app. simpl.
      rewrite Hx. now rewrite orb_true_r. }
    specialize (Hl Ht2). discriminate Hl.
  - unfold sends in Hs. simpl in Hs. apply orb_false_iff in Hs as [Ha Hs].
    destruct pre as [|b pre]; simpl in Heq; injection Heq as <- Heq.
    + rewrite Hx in Ha. discriminate Ha.
    + unfold logs. simpl. destruct (is_call (u "log_interaction") a) eqn:El;
        [reflexivity|]. simpl.
      apply (IH Hs) with (x := x) (post := post); [|exact Heq|exact Hx].
      intros Ht2. specialize (Hl Ht2). unfold logs in Hl. simpl in Hl.
      rewrite El in Hl. exact Hl.
Qed.

Lemma bindE_assoc {A B C} (m : E A) (k1 : A -> E B) (k2 : B -> E C)
      (h : list event) :
  bindE (bindE m k1) k2 h = bindE m (fun a => bindE (k1 a) k2) h.
Proof.
  unfold bindE, bind, raise, ret. destruct (m h) as [[a|e] t1].
  - destruct (k1 a (h ++ t1)) as [[b0|e] t2].
    + rewrite <- app_assoc. destruct (k2 b0 (h ++ t1 ++ t2)) as [r t3].
      now rewrite app_assoc.
    + now rewrite !app_nil_r.
  - now rewrite !app_nil_r.
Qed.

Lemma sat_assoc {A B C} (m : E A) (k1 : A -> E B) (k2 : B -> E C)
      (Q : outcome C -> list event -> Prop) :
  sat (bindE m (fun a => bindE (k1 a) k2)) Q -> sat (bindE (bindE m k1) k2) Q.
Proof.
  intros Hs h. unfold value, trace. rewrite bindE_assoc. apply Hs.
Qed.

Lemma sat_emit_then {B} (e : event) (k : unit -> M B)
      (Q : B -> list event -> Prop) :
  sat (k tt) (fun b t => Q b (e :: t)) -> sat (bind (emit e) k) Q.
Proof.
  intros Hk. apply sat_bind with (P := fun _ t => t = [e]).
  - intros h. reflexivity.
  - intros [] t ->. exact Hk.
Qed.

(** ** The order of logging and sending *)

Ltac names :=
  repeat match goal with
         | |- context [str_eqb (u ?a) (u ?b)] =>
           let v := eval vm_compute in (str_eqb (u a) (u b)) in
           change (str_eqb (u a) (u b)) with v
         end.

Ltac trace_bool :=
  unfold sends, logs in *;
  repeat (rewrite ?existsb_app; cbn [existsb is_call app]);
  names;
  repeat match goal with
         | Hq : existsb any_call ?t = false |- context [existsb (is_call ?n) ?t] =>
           rewrite (@no_call_named n t Hq)
         | Hq : existsb (is_call ?n) ?t = false |- context [existsb (is_call ?n) ?t] =>
           rewrite Hq
         end;
  repeat match goal with
         | |- context [existsb ?f ?t] => destruct (existsb f t)
         end;
  try reflexivity.

(** At the end of a path: the property of the trace is left. *)
Ltac leaf tac :=
  cbv beta;
  lazymatch goal with
  | |- sat _ _ => fail "a step is missing"
  | |- _ => tac
  end.

Ltac quiet_of :=
  first [ assumption
        | match goal with
          | Hq : quiet (Some ?f) |- quiet_method ?f => exact (Hq f eq_refl)
          end
        | eapply getattr_quiet; [|eassumption]; assumption ].

Ltac step :=
  cbv beta zeta;
  lazymatch goal with
  | |- sat (bindE (bindE _ _) _) _ => apply sat_assoc
  | |- sat (bindE (ok _) _) _ =>
    apply sat_step_pure;
    [ let Hok := fresh in intros ? Hok; injection Hok as <-
    | let Hok := fresh in intros ? Hok; discriminate Hok ]
  | |- sat (bindE (raise _) _) _ =>
    apply sat_step_pure;
    [ let Hok := fresh in intros ? Hok; discriminate Hok
    | let Hok := fresh in intros ? Hok; injection Hok as <- ]
  | |- sat (bindE (pure _) _) _ =>
    apply sat_step_pure; [intros ? ? | intros ? ?]
  | |- sat (bindE (lift (emit _)) _) _ => apply sat_step_log
  | |- sat (bindE (invoke _ _ _) _) _ =>
    eapply sat_step_invoke;
    [apply quiet_sat; quiet_of | intros ? ? ? | intros ? ? ?]
  | |- sat (bindE (if ?c then _ else _) _) _ => destruct c eqn:?
  | |- sat (bindE (match ?x with _ => _ end) _) _ => destruct x eqn:?
  | |- sat (lift (emit _)) _ => apply sat_lift, sat_emit
  | |- sat (pure _) _ => apply sat_pure
  | |- sat (invoke _ _ _) _ =>
    eapply sat_invoke; [apply quiet_sat; quiet_of | intros ? ? ?]
  | |- sat (if ?c then _ else _) _ => destruct c eqn:?
  | |- sat (match ?x with _ => _ end) _ => destruct x eqn:?
  | |- sat (ok _) _ => apply sat_ret
  | |- sat (raise _) _ => apply sat_ret
  end.

Section Ordering.
Context `{Repr}.
Variable db : DbObject.
Variable ai : AiObject.
Hypothesis Hdb : quiet_db db.
Hypothesis Hai : quiet_ai ai.

Lemma handle_booking_request_sends (message business conversation : pyobj) :
  sat (handle_booking_request ai message business conversation)
      (fun _ t => sends t = false).
Proof.
  destruct Hai as (Ha1 & Ha2 & Ha3 & Ha4 & Ha5).
  unfold handle_booking_request.
  apply sat_try_except with (P := fun _ t => sends t = false).
  - repeat step; leaf trace_bool.
  - intros a t Ht. exact Ht.
  - intros e t Ht. apply sat_emit_then, sat_ret. trace_bool.
Qed.

Lemma handle_faq_request_sends (message business : pyobj) :
  sat (handle_faq_request ai message business) (fun _ t => sends t = false).
Proof.
  destruct Hai as (Ha1 & Ha2 & Ha3 & Ha4 & Ha5).
  unfold handle_faq_request. repeat step; leaf trace_bool.
Qed.

Lemma handle_complaint_sends (message business customer_phone : pyobj) :
  sat (handle_complaint db ai message business customer_phone)
      (fun _ t => sends t = false).
Proof.
  destruct Hai as (Ha1 & Ha2 & Ha3 & Ha4 & Ha5).
  destruct Hdb as (Hd1 & Hd2 & Hd3 & Hd4).
  unfold handle_complaint. repeat step; leaf trace_bool.
Qed.

(** [process_message] calls no [send_sms], and it returns a reply only
    after it has called [log_interaction]. *)
Lemma process_message_logs (message_data : list (str * pyval)) :
  sat (process_message db ai message_data)
      (fun r t => sends t = false /\ (has_error r = false -> logs t = true)).
Proof.
  pose proof handle_faq_request_sends as Hfaq.
  pose proof handle_complaint_sends as Hcomplaint.
  pose proof handle_booking_request_sends as Hbooking.
  destruct Hai as (Ha1 & Ha2 & Ha3 & Ha4 & Ha5).
  destruct Hdb as (Hd1 & Hd2 & Hd3 & Hd4).
  unfold process_message.
  apply sat_try_except
    with (P := fun r t => sends t = false /\
                          (forall x, r = Returns x -> has_error x = false ->
                                     logs t = true)).
  - unfold process_message_body.
    repeat first
           [ lazymatch goal with
             | |- sat (bindE (lift (handle_booking_request _ _ _ _)) _) _ =>
               apply sat_bindE with (P := fun _ t => sends t = false);
               [apply sat_lift; apply Hbooking | intros ? ? ? | intros ? ? ?]
             | |- sat (bindE (handle_faq_request _ _ _) _) _ =>
               apply sat_bindE with (P := fun _ t => sends t = false);
               [apply Hfaq | intros ? ? ? | intros ? ? ?]
             | |- sat (bindE (handle_complaint _ _ _ _ _) _) _ =>
               apply sat_bindE with (P := fun _ t => sends t = false);
               [apply Hcomplaint | intros ? ? ? | intros ? ? ?]
             end
           | step ];
      leaf ltac:(split; [trace_bool
                        | intros x Hx Herr; try discriminate Hx;
                          injection Hx as <-; try discriminate Herr;
                          trace_bool]).
  - intros a t [Hs Hl]. split; [exact Hs | intros Herr; now apply (Hl a)].
  - intros e t [Hs _]. apply sat_emit_then, sat_ret.
    split; [trace_bool | discriminate].
Qed.

End Ordering.

Section OrderingOfTheTask.
Context `{Repr}.
Variable db : DbObject.
Variable ai : AiObject.
Variable twilio : SmsObject.
Hypothesis Hdb : quiet_db db.
Hypothesis Hai : quiet_ai ai.
Hypothesis Hsms : quiet (sms_send_sms twilio).

(** In every run of [process_and_respond_sms] the trace splits in two:
    the part of [process_message], without [send_sms], and a rest that
    holds a [send_sms] only if the first part holds a
    [log_interaction]. *)
Lemma process_and_respond_sms_split (notify_business_owner : option method)
      (message_data : list (str * pyval)) :
  quiet notify_business_owner ->
  sat (process_and_respond_sms db ai twilio notify_business_owner message_data)
      (fun _ t => exists t1 t2, t = t1 ++ t2 /\ sends t1 = false /\
                                (sends t2 = true -> logs t1 = true)).
Proof.
  intros Hnotify.
  pose proof (process_message_logs Hdb Hai message_data) as Hpm.
  unfold process_and_respond_sms.
  apply sat_try_except
    with (P := fun _ t => exists t1 t2, t = t1 ++ t2 /\ sends t1 = false /\
                                        (sends t2 = true -> logs t1 = true)).
  - apply sat_bindE
      with (P := fun r t => exists res, r = Returns res /\ sends t = false /\
                                        (has_error res = false -> logs t = true)).
    + apply sat_lift. eapply sat_weaken; [exact Hpm|].
      intros res t [Hs Hl]. now exists res.
    + intros res t (res' & Hres & Hs & Hl). injection Hres as <-.
      apply sat_weaken
        with (P := fun _ t' => sends t' = true -> has_error res = false).
      * repeat step;
          leaf ltac:(intros Hsend;
                     first [ reflexivity
                           | exfalso; revert Hsend; trace_bool; discriminate ]).
      * intros r t' Himp. exists t, t'.
        split; [reflexivity | split; [exact Hs|]].
        intros Hs2. apply Hl, Himp, Hs2.
    + intros e t (res & Hres & _). discriminate Hres.
  - intros a t HP. exact HP.
  - intros e t (t1 & t2 & -> & Hs & Hl).
    apply sat_emit.
    exists t1, (t2 ++ [EvLog ERROR (u "Error in SMS processing: {str(e)}")]).
    split; [now rewrite app_assoc | split; [exact Hs|]].
    intros Hs2. apply Hl. revert Hs2. unfold sends. rewrite existsb_app.
    cbn [existsb is_call]. now rewrite !orb_false_r.
Qed.

Lemma send_after_log (notify_business_owner : option method)
      (message_data : list (str * pyval)) (h : list event) :
  quiet notify_business_owner ->
  forall pre x post,
    trace (process_and_respond_sms db ai twilio notify_business_owner
                                   message_data) h = pre ++ x :: post ->
    is_call (u "send_sms") x = true ->
    logs pre = true.
Proof.
  intros Hnotify pre x post Heq Hx.
  destruct (process_and_respond_sms_split message_data Hnotify h)
    as (t1 & t2 & Ht & Hs & Hl).
  rewrite Ht in Heq. exact (log_before_send t1 t2 Hs Hl pre x post Heq Hx).
Qed.

End OrderingOfTheTask.

(** ** The repository's own objects *)

Lemma getattr_some (class_name name : str) (m : option method) (f : method) :
  getattr class_name name m = Returns f -> m = Some f.
Proof. destruct m; [intros Hg; now injection Hg as -> | discriminate]. Qed.

Lemma getattr_none (class_name name : str) (e : exn) :
  getattr class_name name None = Raises e -> e = AttributeError class_name name.
Proof. intros Hg. now injection Hg as <-. Qed.

Lemma calls_app (t1 t2 : list event) : calls (t1 ++ t2) = calls t1 ++ calls t2.
Proof. apply flat_map_app. Qed.

Lemma lookup_only_calls (t : list event) :
  forallb lookup_only t = true ->
  forall n, In n (calls t) -> n = u "get_business_by_phone".
Proof.
  induction t as [|e t IH]; simpl; [intros _ n []|].
  intros Ht n Hn. apply andb_true_iff in Ht as [He Ht].
  apply in_app_iff in Hn as [Hn|Hn]; [|now apply IH].
  destruct e; simpl in Hn; try contradiction.
  destruct Hn as [<-|[]]. now apply str_eqb_eq.
Qed.

Lemma lookup_only_quiet (t : list event) :
  forallb lookup_only t = true ->
  sends t = false /\ logs t = false /\ existsb is_generate t = false.
Proof.
  induction t as [|e t IH]; [now repeat split|].
  cbn [forallb]. intros Ht. apply andb_true_iff in Ht as [He Ht].
  destruct (IH Ht) as (Hs & Hl & Hg). unfold sends, logs in *.
  cbn [existsb]. rewrite Hs, Hl, Hg.
  destruct e; try discriminate He; cbn [is_call is_generate orb];
    try (now repeat split).
  cbn [lookup_only] in He. apply str_eqb_eq in He. subst callee.
  now repeat split.
Qed.

Section RepositoryObjects.
Context `{Repr} `{CaseMap} `{Json}.
Variable gemini : list event -> prompt -> option str.
Variable sqlite : list event -> str -> list pyval -> sql_result.

Lemma get_business_by_phone_trace (phone : pyval) (h : list event) :
  trace (get_business_by_phone sqlite phone) h = [EvSql select_business [phone]] \/
  trace (get_business_by_phone sqlite phone) h =
    [EvSql select_business [phone];
     EvLog ERROR (u "Error getting business by phone: {str(e)}")] \/
  trace (get_business_by_phone sqlite phone) h =
    [EvLog ERROR (u "Error getting business by phone: {str(e)}")].
Proof.
  unfold get_business_by_phone, try_except, execute, trace, bind, history,
    emit, ret, raise, ok, bindE, pure.
  cbn [fst snd]. rewrite app_nil_r.
  destruct (sqlite h select_business [phone]) as [e|e|[|row rest]];
    [now right; right | now right; left | now left |].
  cbn [fst snd]. destruct (truthy (PDict row)); [|now left].
  cbn [fst snd bind ret].
  destruct (parse_json_fields row); [now left | now right; left].
Qed.

(** The lookup method of [Database]: it returns what
    [get_business_by_phone] returns, and its events are the statement
    and at most one log line. *)
Lemma Database_lookup (f : method) (phone : pyval) :
  db_get_business_by_phone (Database sqlite) = Some f ->
  sat (f [OVal phone])
      (fun r t => forallb lookup_only t = true /\
                  exists hb, r = Returns
                                   (OVal (value (get_business_by_phone sqlite phone) hb))).
Proof.
  intros Hf. injection Hf as <-. intros h. cbv beta iota.
  unfold lift. rewrite !value_bind, !trace_bind, !value_ret, !trace_ret.
  rewrite !app_nil_r. split.
  - destruct (get_business_by_phone_trace phone h) as [-> | [-> | ->]];
      reflexivity.
  - exists h. reflexivity.
Qed.

(** The methods of [AIProcessor] return instances of the dataclasses. *)
Lemma AIProcessor_classify (f : method) (args : list pyobj) :
  ai_classify_intent (AIProcessor gemini) = Some f ->
  sat (f args) (fun r _ => forall a, r = Returns a -> exists i, a = OIntent i).
Proof.
  intros Hf. injection Hf as <-. intros h a. cbv beta.
  destruct args as [|message [|business [|x args]]];
    try (cbv iota; intros Hx; discriminate Hx).
  cbv iota. unfold with_message.
  destruct message as [[]| |]; try (intros Hx; discriminate Hx).
  unfold lift. rewrite !value_bind, !value_ret. intros Hx.
  injection Hx as <-. eexists. reflexivity.
Qed.

Lemma AIProcessor_generate (f : method) (args : list pyobj) :
  ai_generate_response (AIProcessor gemini) = Some f ->
  sat (f args) (fun r _ => forall a, r = Returns a -> exists x, a = OResponse x).
Proof.
  intros Hf. injection Hf as <-. intros h a. cbv beta.
  destruct args as [|message [|business [|x [|y args]]]];
    try (cbv iota; intros Hx; discriminate Hx);
    cbv iota; unfold with_message;
    (destruct message as [[]| |]; try (intros Hx; discriminate Hx));
    unfold lift; rewrite !value_bind, !value_ret; intros Hx;
    injection Hx as <-; eexists; reflexivity.
Qed.

(** And they return whenever the message is a string. *)
Lemma AIProcessor_classify_returns (f : method) (m : str) (business : pyobj) :
  ai_classify_intent (AIProcessor gemini) = Some f ->
  sat (f [OVal (PStr m); business]) (fun r _ => exists i, r = Returns (OIntent i)).
Proof.
  intros Hf. injection Hf as <-. intros h. cbv beta iota. unfold with_message, lift.
  rewrite !value_bind, !value_ret. eexists. reflexivity.
Qed.

Lemma AIProcessor_generate_returns (f : method) (m : str)
      (business conversation : pyobj) :
  ai_generate_response (AIProcessor gemini) = Some f ->
  sat (f [OVal (PStr m); business; conversation])
      (fun r _ => exists x, r = Returns (OResponse x)).
Proof.
  intros Hf. injection Hf as <-. intros h. cbv beta iota. unfold with_message, lift.
  rewrite !value_bind, !value_ret. eexists. reflexivity.
Qed.

End RepositoryObjects.

Ltac lookup_bool :=
  repeat (rewrite ?forallb_app; cbn [forallb lookup_only app]);
  names;
  repeat match goal with
         | Hq : forallb lookup_only ?t = true |- context [forallb lookup_only ?t] =>
           rewrite Hq
         end;
  try reflexivity.

Section RepositoryRuns.
Context `{Repr} `{CaseMap} `{Json}.
Variable gemini : list event -> prompt -> option str.
Variable sqlite : list event -> str -> list pyval -> sql_result.

(** With the repository's [Database], [process_message] does the
    lookup and nothing more: it answers "not configured" when the
    lookup finds nothing, and fails on the missing [get_conversation]
    when it finds a business. *)
Lemma process_message_repository (ai : AiObject)
      (message_data : list (str * pyval)) :
  let body := get message_data (u "body") (PStr []) in
  let phone := get message_data (u "to") PNone in
  sat (process_message (Database sqlite) ai message_data)
      (fun r t =>
         forallb lookup_only t = true /\
         (r = NotConfigured \/
          (exists e, r = Failed e /\ py_strip body = Raises e) \/
          r = Failed (AttributeError (u "Database") (u "get_conversation"))) /\
         ((forall hb, truthy (value (get_business_by_phone sqlite phone) hb) = true) ->
          forall x, py_strip body = Returns x ->
          r = Failed (AttributeError (u "Database") (u "get_conversation")))).
Proof.
  intros body phone. unfold process_message.
  apply sat_try_except
    with (P := fun r t =>
                 forallb lookup_only t = true /\
                 (r = Returns NotConfigured \/
                  (exists e, r = Raises e /\ py_strip body = Raises e) \/
                  r = Raises (AttributeError (u "Database") (u "get_conversation"))) /\
                 ((forall hb, truthy (value (get_business_by_phone sqlite phone) hb) = true) ->
                  forall x, py_strip body = Returns x ->
                  r = Raises (AttributeError (u "Database") (u "get_conversation")))).
  - unfold process_message_body. cbv zeta. fold body. fold phone.
    apply sat_step_pure.
    + intros message_text Hstrip. apply sat_step_log.
      apply sat_step_pure; [|intros e He; discriminate He].
      intros f Hf. apply getattr_some in Hf.
      eapply sat_step_invoke; [exact (Database_lookup phone Hf)| |].
      * intros business t [Ht [hb Hb]]. injection Hb as ->.
        cbn [obj_truthy].
        destruct (truthy (value (get_business_by_phone sqlite phone) hb)) eqn:Etruthy;
          cbn [negb].
        -- apply sat_step_pure; [intros g Hg; discriminate Hg|].
           intros e He. apply getattr_none in He. subst e. cbv beta.
           split; [lookup_bool | split; [now right; right|]].
           intros _ x _. reflexivity.
        -- apply sat_step_log, sat_ret. cbv beta.
           split; [lookup_bool | split; [now left|]].
           intros Hall. rewrite Hall in Etruthy. discriminate Etruthy.
      * intros e t [_ [hb Hb]]. discriminate Hb.
    + intros e Hstrip. cbv beta.
      split; [reflexivity | split; [right; left; now exists e|]].
      intros _ x Hx. rewrite Hx in Hstrip. discriminate Hstrip.
  - intros a t (Ht & Hr & Hall). split; [exact Ht | split].
    + destruct Hr as [Hr|[(e & Hr & _)|Hr]]; try discriminate Hr.
      injection Hr as ->. now left.
    + intros Hb x Hx. specialize (Hall Hb x Hx). discriminate Hall.
  - intros e t (Ht & Hr & Hall). apply sat_emit_then, sat_ret.
    split; [lookup_bool | split].
    + destruct Hr as [Hr|[(e' & Hr & Hs)|Hr]]; try discriminate Hr.
      * injection Hr as ->. right; left. now exists e'.
      * injection Hr as ->. now right; right.
    + intros Hb x Hx. specialize (Hall Hb x Hx). now injection Hall as ->.
Qed.

End RepositoryRuns.

Lemma stub_returns (x : pyobj) (args : list pyobj) :
  sat (stub (fun _ => Returns x) args) (fun r t => r = Returns x).
Proof. intros h. reflexivity. Qed.

(** A fact about the method that an [invoke] runs: of [AIProcessor], of
    a stand-in, or none. *)
Ltac invoke_fact :=
  first [ solve [eapply AIProcessor_classify_returns; eapply getattr_some; eassumption]
        | solve [eapply AIProcessor_generate_returns; eapply getattr_some; eassumption]
        | solve [eapply AIProcessor_classify; eapply getattr_some; eassumption]
        | solve [eapply AIProcessor_generate; eapply getattr_some; eassumption]
        | solve [apply stub_returns]
        | apply sat_true ].

Ltac digest :=
  cbv beta in *;
  repeat match goal with
         | Hp : forall a, Returns ?x = Returns a -> exists i, a = OIntent i |- _ =>
           let i := fresh "i" in
           destruct (Hp x eq_refl) as [i ->]; clear Hp
         | Hp : forall a, Returns ?x = Returns a -> exists i, a = OResponse i |- _ =>
           let i := fresh "x" in
           destruct (Hp x eq_refl) as [i ->]; clear Hp
         | Hp : exists i, Returns _ = Returns (OIntent i) |- _ =>
           let i := fresh "i" in
           destruct Hp as [i Hp]; injection Hp as ->
         | Hp : exists i, Returns _ = Returns (OResponse i) |- _ =>
           let i := fresh "x" in
           destruct Hp as [i Hp]; injection Hp as ->
         | Hp : exists i, Raises _ = Returns _ |- _ =>
           destruct Hp as [? Hp]; discriminate Hp
         | Hp : Returns ?a = Returns ?b |- _ =>
           first [ is_var a; injection Hp as -> | is_var b; injection Hp as <- ]
         | Hp : Raises _ = Returns _ |- _ => discriminate Hp
         | Hp : getattr _ _ (_ (CompleteDatabase _ _ _)) = Returns _ |- _ =>
           apply getattr_some in Hp; injection Hp as <-
         end.

Ltac prune :=
  try (exfalso;
       match goal with
       | Hx : obj_eq_str (OIntent _) _ = true |- _ => discriminate Hx
       | Hx : subscript (OResponse _) _ = Returns _ |- _ => discriminate Hx
       | Hx : getattr _ _ (_ (CompleteDatabase _ _ _)) = Raises _ |- _ =>
         discriminate Hx
       | Hx : getattr _ _ (_ (AIProcessor _)) = Raises _ |- _ =>
         discriminate Hx
       | Hx : ?a = Returns _, Hy : ?a = Raises _ |- _ =>
         rewrite Hx in Hy; discriminate Hy
       | Hx : Returns _ = Raises _ |- _ => discriminate Hx
       | Hx : true = false |- _ => discriminate Hx
       | Hx : false = true |- _ => discriminate Hx
       end).

Ltac walk :=
  cbv beta zeta;
  lazymatch goal with
  | |- sat (bindE (bindE _ _) _) _ => apply sat_assoc
  | |- sat (bindE (pure _) _) _ =>
    apply sat_step_pure; [intros ? ? | intros ? ?]
  | |- sat (bindE (lift (emit _)) _) _ => apply sat_step_log
  | |- sat (bindE (invoke _ _ _) _) _ =>
    eapply sat_step_invoke; [invoke_fact | intros ? ? ? | intros ? ? ?]
  | |- sat (bindE (if ?c then _ else _) _) _ => destruct c eqn:?
  | |- sat (if ?c then _ else _) _ => destruct c eqn:?
  | |- sat (ok _) _ => apply sat_ret
  | |- sat (raise _) _ => apply sat_ret
  end;
  digest; prune.

Section RepositoryProcessor.
Context `{Repr} `{CaseMap} `{Json}.
Variable gemini : list event -> prompt -> option str.

(** With the repository's [AIProcessor], whatever the database object:
    [process_message] never returns a reply. *)
Lemma process_message_dataclasses (db : DbObject)
      (message_data : list (str * pyval)) :
  sat (process_message db (AIProcessor gemini) message_data)
      (fun r _ => has_error r = true).
Proof.
  unfold process_message.
  apply sat_try_except
    with (P := fun r _ => forall x, r = Returns x -> has_error x = true).
  - unfold process_message_body.
    repeat walk;
      leaf ltac:(intros r Hr; first [ discriminate Hr
                                    | injection Hr as <-; reflexivity ]).
  - intros a t Ha. now apply Ha.
  - intros e t _. apply sat_emit_then, sat_ret. reflexivity.
Qed.

(** With a database that has [get_conversation] and [log_interaction]:
    the classification and the generation run, and the subscript of the
    [AIResponse] raises. *)
Lemma process_message_subscript (business conversation business_id : pyobj)
      (log : method) (message_data : list (str * pyval)) (body : str) :
  get message_data (u "body") (PStr []) = PStr body ->
  obj_truthy business = true ->
  subscript business (u "id") = Returns business_id ->
  sat (process_message (CompleteDatabase business conversation log)
                       (AIProcessor gemini) message_data)
      (fun r t =>
         r = Failed (TypeError (NotSubscriptable (u "AIResponse"))) /\
         existsb (is_call (u "generate_response")) t = true).
Proof.
  intros Hbody Htruthy Hid. unfold process_message.
  apply sat_try_except
    with (P := fun r t =>
                 r = Raises (TypeError (NotSubscriptable (u "AIResponse"))) /\
                 existsb (is_call (u "generate_response")) t = true).
  - unfold process_message_body. rewrite Hbody. cbn [py_strip].
    repeat walk.
    all: try (rewrite Htruthy in *; discriminate).
    cbv beta.
    match goal with
    | Hx : subscript (OResponse _) _ = Raises _ |- _ => injection Hx as <-
    end.
    split; [reflexivity|]. trace_bool.
  - intros a t [Hr _]. discriminate Hr.
  - intros e t [Hr Ht]. injection Hr as ->. apply sat_emit_then, sat_ret.
    split; [reflexivity|]. rewrite existsb_app, Ht. reflexivity.
Qed.

End RepositoryProcessor.

Section RepositoryTask.
Context `{Repr} `{Json}.
Variable sqlite : list event -> str -> list pyval -> sql_result.

(** With the repository's [Database] the background task does the
    lookup and writes log lines, whatever the other collaborators are. *)
Lemma process_and_respond_sms_repository (ai : AiObject) (twilio : SmsObject)
      (notify_business_owner : option method)
      (message_data : list (str * pyval)) :
  sat (process_and_respond_sms (Database sqlite) ai twilio
                               notify_business_owner message_data)
      (fun _ t => forallb lookup_only t = true).
Proof.
  unfold process_and_respond_sms.
  apply sat_try_except with (P := fun _ t => forallb lookup_only t = true).
  - apply sat_bindE
      with (P := fun r t => exists res, r = Returns res /\ has_error res = true /\
                                        forallb lookup_only t = true).
    + apply sat_lift.
      eapply sat_weaken; [apply (process_message_repository sqlite ai message_data)|].
      cbv beta zeta. intros res t (Ht & Hr & _). exists res.
      split; [reflexivity | split; [|exact Ht]].
      destruct Hr as [-> | [(e & -> & _) | ->]]; reflexivity.
    + intros res t (res' & Hres & Herr & Ht). injection Hres as <-.
      destruct res as [|e|response_text intent escalate booking_created];
        [| |discriminate Herr];
        repeat step; leaf lookup_bool.
    + intros e t (res & Hres & _). discriminate Hres.
  - intros a t Ht. exact Ht.
  - intros e t Ht. apply sat_emit. lookup_bool.
Qed.

End RepositoryTask.

(** ** The webhook *)

Section Webhook.
Context `{Repr}.
Variable db : DbObject.
Variable ai : AiObject.
Variable twilio : SmsObject.
Variable notify_business_owner : option method.

Lemma handle_sms_webhook_run (form_data : list (str * pyval)) (h : list event) :
  handle_sms_webhook (Returns form_data) h =
    ((PlainTextResponse [] 200,
      [[ (u "from", get form_data (u "From") PNone);
         (u "to", get form_data (u "To") PNone);
         (u "body", get form_data (u "Body") PNone);
         (u "platform", PStr (u "sms"));
         (u "message_sid", get form_data (u "MessageSid") PNone) ]]),
     [EvLog INFO (u "SMS webhook received: {message_data['from']} -> {message_data['to']}")]).
Proof. reflexivity. Qed.

Lemma handle_sms_webhook_raises (e : exn) (h : list event) :
  handle_sms_webhook (Raises e) h =
    ((HTTPException 500 (u "Webhook processing failed"), []),
     [EvLog ERROR (u "SMS webhook error: {str(e)}")]).
Proof. reflexivity. Qed.

Lemma serve_sms_webhook_run (form : outcome (list (str * pyval))) (h : list event) :
  let served := value (handle_sms_webhook form) h in
  let t := trace (handle_sms_webhook form) h in
  value (serve_sms_webhook db ai twilio notify_business_owner form) h = fst served /\
  trace (serve_sms_webhook db ai twilio notify_business_owner form) h =
    t ++ EvRespond (fst served)
      :: trace (run_tasks db ai twilio notify_business_owner (snd served))
               ((h ++ t) ++ [EvRespond (fst served)]).
Proof.
  intros served t. subst served t. unfold serve_sms_webhook.
  rewrite value_bind, trace_bind.
  destruct (value (handle_sms_webhook form) h) as [response tasks].
  cbn [fst snd].
  rewrite !value_bind, !trace_bind, value_ret, trace_ret, trace_emit, app_nil_r.
  split; reflexivity.
Qed.

End Webhook.

Lemma stub_quiet (answer : list pyobj -> outcome pyobj) :
  quiet (Some (stub answer)).
Proof. intros f Hf. injection Hf as <-. intros args h. reflexivity. Qed.

Lemma none_quiet : quiet None.
Proof. intros f Hf. discriminate Hf. Qed.

Lemma StubDatabase_quiet : quiet_db StubDatabase.
Proof. repeat split; first [apply stub_quiet | apply none_quiet]. Qed.

Lemma StubAI_quiet : quiet_ai StubAI.
Proof. repeat split; first [apply stub_quiet | apply none_quiet]. Qed.

Lemma StubSMS_quiet : quiet (sms_send_sms StubSMS).
Proof. apply stub_quiet. Qed.

(** C8. For a POST whose form can be read, [handle_sms_webhook] logs the
    receipt, adds one task, the processing of the message, and returns
    the empty response with status 200.  The response goes out before
    the task runs, and it is the same whatever the collaborators of the
    task are or do. *)
Theorem sms_webhook_response `{Repr} (db : DbObject) (ai : AiObject)
        (twilio : SmsObject) (notify_business_owner : option method)
        (form_data : list (str * pyval)) (h : list event) :
  let message_data :=
    [ (u "from", get form_data (u "From") PNone);
      (u "to", get form_data (u "To") PNone);
      (u "body", get form_data (u "Body") PNone);
      (u "platform", PStr (u "sms"));
      (u "message_sid", get form_data (u "MessageSid") PNone) ] in
  let received :=
    EvLog INFO (u "SMS webhook received: {message_data['from']} -> {message_data['to']}") in
  let response := PlainTextResponse [] 200 in
  let serve := serve_sms_webhook db ai twilio notify_business_owner
                                 (Returns form_data) in
  handle_sms_webhook (Returns form_data) h =
    ((response, [message_data]), [received]) /\
  value serve h = response /\
  trace serve h =
    received :: EvRespond response
    :: trace (process_and_respond_sms db ai twilio notify_business_owner
                                      message_data)
             ((h ++ [received]) ++ [EvRespond response]).
Proof.
  intros message_data received response serve.
  split; [reflexivity|].
  destruct (serve_sms_webhook_run db ai twilio notify_business_owner
                                  (Returns form_data) h) as [Hv Ht].
  split; [exact Hv|].
  subst serve. rewrite Ht. unfold value, trace at 1 3.
  rewrite handle_sms_webhook_run. cbn [fst snd app run_tasks].
  rewrite trace_bind, trace_ret, app_nil_r. reflexivity.
Qed.

(** How [process_message] fails.  With the repository's [AIProcessor]
    it never returns a reply, whatever the database object is.  With a
    database that has [get_conversation] and [log_interaction],
    [generate_response] is reached and the subscript of the [AIResponse]
    raises the [TypeError].  With the repository's [Database], which has
    neither, the failure is the [AttributeError] of [get_conversation],
    right after the lookup. *)
Lemma process_message_never_replies `{Repr} `{CaseMap} `{Json}
        (gemini : list event -> prompt -> option str)
        (sqlite : list event -> str -> list pyval -> sql_result)
        (db : DbObject) (ai : AiObject)
        (message_data : list (str * pyval)) (h : list event) :
  has_error (value (process_message db (AIProcessor gemini) message_data) h)
  = true /\
  (let run := process_message (Database sqlite) ai message_data in
   has_error (value run h) = true /\
   (forall name, In name (calls (trace run h)) ->
                 name = u "get_business_by_phone") /\
   (forall body,
      get message_data (u "body") (PStr []) = PStr body ->
      (forall hb, truthy (value (get_business_by_phone
                                   sqlite (get message_data (u "to") PNone)) hb)
                  = true) ->
      value run h = Failed (AttributeError (u "Database") (u "get_conversation")))) /\
  (forall business conversation business_id log body,
     get message_data (u "body") (PStr []) = PStr body ->
     obj_truthy business = true ->
     subscript business (u "id") = Returns business_id ->
     let run := process_message (CompleteDatabase business conversation log)
                                (AIProcessor gemini) message_data in
     value run h = Failed (TypeError (NotSubscriptable (u "AIResponse"))) /\
     existsb (is_call (u "generate_response")) (trace run h) = true).
Proof.
  split; [apply (process_message_dataclasses gemini db message_data h) | split].
  - cbv zeta.
    destruct (process_message_repository sqlite ai message_data h)
      as (Ht & Hr & Hall).
    split; [|split].
    + destruct Hr as [-> | [(e & -> & _) | ->]]; reflexivity.
    + apply lookup_only_calls. exact Ht.
    + intros body Hbody Hfound. apply (Hall Hfound (PStr (strip body))).
      rewrite Hbody. reflexivity.
  - intros business conversation business_id log body Hbody Htruthy Hid.
    exact (@process_message_subscript _ _ _ gemini business conversation
             business_id log message_data body Hbody Htruthy Hid h).
Qed.

(** C3.  The failing input: the repository's [Database] holds the
    business of the number that the message was sent to.  The lookup
    finds it, and [process_message] fails on [self.db.get_conversation],
    a method that [Database] does not define, before any method of the
    processor is called: the result is the error dictionary, but
    [classify_intent] and [generate_response] are not reached. *)
Lemma process_message_stops_at_get_conversation :
  let run := @process_message PlainRepr (@Database DemoJson demo_sqlite)
               (@AIProcessor LatinCase DemoJson (fun _ _ => None))
               demo_message in
  truthy (value (@get_business_by_phone DemoJson demo_sqlite
                   (PStr (u "+15145550100"))) []) = true /\
  value run [] = Failed (AttributeError (u "Database") (u "get_conversation")) /\
  calls (trace run []) = [u "get_business_by_phone"].
Proof. vm_compute. repeat split. Qed.

(** * Further properties *)

(** ** The fallback classifier *)

Lemma PStr_inj (a b : str) : PStr a = PStr b -> a = b.
Proof. intros Hx. now injection Hx. Qed.

Ltac find_in := repeat (first [left; reflexivity | right]).

(** X1. When the fallback classifier answers ['complaint'] it also asks
    for escalation: each of its complaint words is an escalation
    trigger. *)
Theorem fallback_complaint_escalates `{CaseMap} (m : str) :
  mi_intent (_fallback_intent_classification m) = PStr (u "complaint") ->
  requires_escalation (_fallback_intent_classification m) = PBool true.
Proof.
  unfold _fallback_intent_classification. cbn [mi_intent requires_escalation].
  destruct (any_in [u "book"; u "appointment"; u "schedule"; u "rendez-vous";
                    u "réserver"] (lower m));
    [intros Hx; apply PStr_inj in Hx; vm_compute in Hx; discriminate Hx|].
  destruct (any_in [u "hours"; u "open"; u "price"; u "cost"; u "heures";
                    u "ouvert"; u "prix"] (lower m));
    [intros Hx; apply PStr_inj in Hx; vm_compute in Hx; discriminate Hx|].
  destruct (any_in [u "terrible"; u "awful"; u "complaint"; u "affreux";
                    u "plainte"] (lower m)) eqn:Ecomplaint;
    [|intros Hx; apply PStr_inj in Hx; vm_compute in Hx; discriminate Hx].
  intros _. f_equal. unfold _check_escalation_needed.
  unfold any_in in Ecomplaint. apply existsb_exists in Ecomplaint.
  destruct Ecomplaint as (w & Hw & Hc).
  apply existsb_exists. exists w. split; [|exact Hc].
  destruct Hw as [<-|[<-|[<-|[<-|[<-|[]]]]]]; unfold _load_escalation_triggers;
    find_in.
Qed.

Lemma fallback_complaint_escalates_witness :
  requires_escalation (_fallback_intent_classification (u "C'est affreux"))
  = PBool true.
Proof.
  apply (@fallback_complaint_escalates LatinCase (u "C'est affreux")).
  vm_compute. reflexivity.
Defined.

(** ** The keyword path and the model *)

Lemma prompts_of_app (t1 t2 : list event) :
  prompts_of (t1 ++ t2) = prompts_of t1 ++ prompts_of t2.
Proof. apply flat_map_app. Qed.

Section ModelCalls.
Context `{CaseMap} `{Json}.
Variable gemini : list event -> prompt -> option str.

(** X2. On the keyword path the confidence lies above 0.4 and is at
    most 1. *)
Theorem keyword_confidence_bounds (m : str) (b : pyval) (h : list event) :
  exceeds_threshold m = true ->
  exists q, mi_confidence (value (classify_intent gemini m b) h) = PNum q /\
            (4 # 10 < q)%Q /\ (q <= 1)%Q.
Proof.
  intros Hex.
  destruct (classify_intent_keyword_path gemini m b Hex)
    as (top & kws & _ & _ & Hgt & Heq).
  rewrite Heq. eexists. split; [reflexivity|]. split.
  - apply Q.min_glb_lt; [|reflexivity].
    apply Qle_lt_trans with ((2 # 10) * 2)%Q; [discriminate|].
    apply Qmult_lt_compat_r; [reflexivity | exact Hgt].
  - apply Q.le_min_r.
Qed.

Lemma safe_generate_prompts (p : prompt) (h : list event) :
  prompts_of (trace (_safe_generate_content gemini p) h) = [p].
Proof.
  unfold trace. destruct (gemini h p) as [t|] eqn:Hg.
  - rewrite (@safe_generate_returns gemini p h t Hg). reflexivity.
  - rewrite (@safe_generate_raises gemini p h Hg). reflexivity.
Qed.

Lemma ai_classify_prompts (m : str) (b : pyval) (h : list event) :
  length (prompts_of (trace (_ai_classify_intent gemini m b) h)) <= 1.
Proof.
  unfold _ai_classify_intent.
  destruct (classify_prompt m b) as [p|]; [|cbn; lia].
  rewrite trace_bind, prompts_of_app, safe_generate_prompts.
  destruct (nonempty (value (_safe_generate_content gemini p) h)) as [t|];
    [destruct (intent_of_reply t)|]; cbn; lia.
Qed.

Lemma classify_intent_prompts (m : str) (b : pyval) (h : list event) :
  length (prompts_of (trace (classify_intent gemini m b) h)) <= 1 /\
  (exceeds_threshold m = true -> trace (classify_intent gemini m b) h = []).
Proof.
  destruct (exceeds_threshold m) eqn:Hex.
  - destruct (classify_intent_keyword_path gemini m b Hex)
      as (top & kws & _ & _ & _ & Heq).
    rewrite Heq. split; [cbn; lia | reflexivity].
  - rewrite (classify_intent_model_path gemini m b Hex).
    split; [apply ai_classify_prompts | discriminate].
Qed.

Lemma french_response_prompts (m : str) (b : pyval) (i : MessageIntent)
      (h : list event) :
  length (prompts_of (trace (_generate_french_response gemini m b i) h)) <= 1.
Proof.
  unfold _generate_french_response.
  destruct (french_prompt m b i) as [p|]; [|cbn; lia].
  rewrite trace_bind, prompts_of_app, safe_generate_prompts, trace_ret.
  cbn. lia.
Qed.

Lemma english_response_prompts (m : str) (b : pyval) (i : MessageIntent)
      (h : list event) :
  length (prompts_of (trace (_generate_english_response gemini m b i) h)) <= 1.
Proof.
  unfold _generate_english_response.
  destruct (english_prompt m b i) as [p|]; [|cbn; lia].
  rewrite trace_bind, prompts_of_app, safe_generate_prompts, trace_ret.
  cbn. lia.
Qed.

(** X3. [generate_response] asks the model at most twice, once to
    classify and once to reply, and at most once when a category is
    above the threshold. *)
Theorem model_calls_bounded (m : str) (b : pyval) (h : list event) :
  let asked := length (prompts_of (trace (generate_response gemini m b) h)) in
  asked <= 2 /\ (exceeds_threshold m = true -> asked <= 1).
Proof.
  cbv zeta. destruct (generate_response_run gemini m b h) as [_ Ht].
  rewrite Ht, prompts_of_app, length_app.
  destruct (classify_intent_prompts m b h) as [Hc Hk].
  assert (Hg : length (prompts_of
            (trace (if str_eqb (detect_language m) (u "french")
                    then _generate_french_response gemini m b
                           (value (classify_intent gemini m b) h)
                    else _generate_english_response gemini m b
                           (value (classify_intent gemini m b) h))
                   (h ++ trace (classify_intent gemini m b) h))) <= 1).
  { destruct (str_eqb (detect_language m) (u "french"));
      [apply french_response_prompts | apply english_response_prompts]. }
  split; [lia|]. intros Hex.
  assert (Hz : length (prompts_of (trace (classify_intent gemini m b) h)) = 0)
    by (rewrite (Hk Hex); reflexivity).
  lia.
Qed.

(** X4. When the model's reply is not empty and, stripped, is a JSON
    object with the keys [intent] and [confidence], the model-based
    classifier answers with these two values as they are, of whatever
    type, and with the reply's [escalate], or [False] without one; in
    every other case it answers with the fallback classification. *)
Theorem ai_classification_result (m : str) (b : pyval) (h : list event) :
  let answer := value (_ai_classify_intent gemini m b) h in
  (forall p t d i c,
     classify_prompt m b = Some p -> gemini h p = Some t -> t <> [] ->
     json_loads (strip t) = JsonValue (PDict d) ->
     assoc d (u "intent") = Some i -> assoc d (u "confidence") = Some c ->
     answer = {| mi_intent := i;
                 mi_confidence := c;
                 requires_escalation :=
                   match assoc d (u "escalate") with
                   | Some e => e
                   | None => PBool false
                   end |}) /\
  (answer = _fallback_intent_classification m \/
   exists p t d i c,
     classify_prompt m b = Some p /\ gemini h p = Some t /\ t <> [] /\
     json_loads (strip t) = JsonValue (PDict d) /\
     assoc d (u "intent") = Some i /\ assoc d (u "confidence") = Some c /\
     answer = {| mi_intent := i;
                 mi_confidence := c;
                 requires_escalation :=
                   match assoc d (u "escalate") with
                   | Some e => e
                   | None => PBool false
                   end |}).
Proof.
  cbv zeta. unfold _ai_classify_intent. split.
  - intros p t d i c Hp Hg Ht Hj Hi Hc. rewrite Hp.
    rewrite value_bind, safe_generate_value, Hg.
    destruct t as [|c0 t]; [contradiction|]. cbn [nonempty].
    unfold intent_of_reply. rewrite Hj, Hi, Hc. reflexivity.
  - destruct (classify_prompt m b) as [p|]; [|left; reflexivity].
    rewrite value_bind, safe_generate_value.
    destruct (gemini h p) as [t|] eqn:Hg; [|left; reflexivity].
    destruct t as [|c0 t]; [left; reflexivity|]. cbn [nonempty].
    unfold intent_of_reply.
    destruct (json_loads (strip (c0 :: t))) as [[]| |] eqn:Ej;
      try (left; reflexivity).
    destruct (assoc d (u "intent")) as [i|] eqn:Ei; [|left; reflexivity].
    destruct (assoc d (u "confidence")) as [c|] eqn:Ec; [|left; reflexivity].
    right. exists p, (c0 :: t), d, i, c.
    repeat split; try assumption; try reflexivity. discriminate.
Qed.

End ModelCalls.

Lemma keyword_confidence_bounds_witness :
  exists q,
    mi_confidence
      (value (@classify_intent LatinCase DemoJson (fun _ _ => None)
                (u "Can I book an appointment or reserve a time slot today?")
                (PDict [])) []) = PNum q /\
    (4 # 10 < q)%Q /\ (q <= 1)%Q.
Proof.
  apply (@keyword_confidence_bounds LatinCase DemoJson).
  vm_compute. reflexivity.
Defined.

(** ** A business that is no dict *)

Section BusinessWithoutGet.
Context `{CaseMap} `{Json}.
Variable gemini : list event -> prompt -> option str.

Lemma classify_prompt_no_get (m : str) (b : pyval) :
  (forall d, b <> PDict d) -> classify_prompt m b = None.
Proof.
  intros Hb. unfold classify_prompt.
  destruct b; try reflexivity. now contradiction (Hb d).
Qed.

Lemma english_prompt_no_get (m : str) (b : pyval) (i : MessageIntent) :
  (forall d, b <> PDict d) -> english_prompt m b i = None.
Proof.
  intros Hb. unfold english_prompt.
  destruct b; try (now contradiction (Hb d));
    destruct (eq_str (mi_intent i) (u "booking")); try reflexivity;
    destruct (eq_str (mi_intent i) (u "faq")); try reflexivity;
    destruct (eq_str (mi_intent i) (u "complaint")); reflexivity.
Qed.

Lemma french_prompt_no_get (m : str) (b : pyval) (i : MessageIntent) :
  (forall d, b <> PDict d) ->
  french_prompt m b i = None \/
  french_prompt m b i = Some {| p_template := FrFaqPrices; p_message := m;
                                p_fields := [] |}.
Proof.
  intros Hb. unfold french_prompt.
  destruct b; try (now contradiction (Hb d));
    (destruct (eq_str (mi_intent i) (u "booking")); [now left|]);
    (destruct (eq_str (mi_intent i) (u "faq"));
     [|destruct (eq_str (mi_intent i) (u "complaint")); now left]);
    (destruct (contains (u "heure") (lower m) || contains (u "ouvert") (lower m));
     [now left|]);
    (destruct (contains (u "prix") (lower m) || contains (u "coût") (lower m)
               || contains (u "combien") (lower m)); [now right|]);
    (destruct (contains (u "adresse") (lower m) || contains (u "où") (lower m));
     now left).
Qed.

Lemma english_failed_value (m : str) (b : pyval) (i : MessageIntent)
      (h : list event) :
  english_prompt m b i = None ->
  value (_generate_english_response gemini m b i) h
  = error_reply english_error_reply i /\
  trace (_generate_english_response gemini m b i) h
  = [EvLog ERROR (u "English response error: {str(e)}")].
Proof.
  intros Hp. unfold value, trace.
  rewrite (@english_response_failed gemini m b i h Hp). split; reflexivity.
Qed.

Lemma french_failed_value (m : str) (b : pyval) (i : MessageIntent)
      (h : list event) :
  french_prompt m b i = None ->
  value (_generate_french_response gemini m b i) h
  = error_reply french_error_reply i /\
  trace (_generate_french_response gemini m b i) h
  = [EvLog ERROR (u "French response error: {str(e)}")].
Proof.
  intros Hp. unfold value, trace.
  rewrite (@french_response_failed _ gemini m b i h Hp). split; reflexivity.
Qed.

Lemma classify_intent_no_get (m : str) (b : pyval) (h : list event) :
  (forall d, b <> PDict d) ->
  prompts_of (trace (classify_intent gemini m b) h) = [].
Proof.
  intros Hb. destruct (exceeds_threshold m) eqn:Hex.
  - destruct (classify_intent_keyword_path gemini m b Hex)
      as (top & kws & _ & _ & _ & Heq).
    rewrite Heq. reflexivity.
  - rewrite (classify_intent_model_path gemini m b Hex).
    unfold _ai_classify_intent. rewrite (@classify_prompt_no_get m b Hb).
    reflexivity.
Qed.

(** X5. A business without [get], such as [None], stops every prompt that
    interpolates it.  In English no prompt can be built: the model is
    never asked, and the reply is the fixed apology with confidence 0.6
    and no escalation, whatever the message says.  In French the only
    prompt that can still be built is the one about prices, which reads
    nothing of the business. *)
Theorem business_without_get (m : str) (b : pyval) (h : list event) :
  (forall d, b <> PDict d) ->
  let r := value (generate_response gemini m b) h in
  let asked := prompts_of (trace (generate_response gemini m b) h) in
  (detect_language m <> u "french" ->
   asked = [] /\
   text r = u "Thanks for your message! Someone from our team will get back to you shortly." /\
   confidence r = PNum (6 # 10)%Q /\ escalate r = PBool false) /\
  (detect_language m = u "french" ->
   (asked = [] /\
    text r = u "Merci de votre message! Quelqu'un de notre équipe vous contactera bientôt." /\
    confidence r = PNum (6 # 10)%Q /\ escalate r = PBool false) \/
   asked = [{| p_template := FrFaqPrices; p_message := m; p_fields := [] |}]).
Proof.
  intros Hb r asked. subst r asked.
  destruct (generate_response_run gemini m b h) as [Hv Ht].
  rewrite Hv, Ht, prompts_of_app, (@classify_intent_no_get m b h Hb).
  cbn [app]. split; intros Hl.
  - assert (El : str_eqb (detect_language m) (u "french") = false)
      by now apply str_eqb_neq.
    rewrite El.
    destruct (@english_failed_value m b (value (classify_intent gemini m b) h)
                (h ++ trace (classify_intent gemini m b) h)
                (@english_prompt_no_get m b _ Hb))
      as [-> ->].
    repeat split.
  - assert (El : str_eqb (detect_language m) (u "french") = true)
      by now apply str_eqb_eq.
    rewrite El.
    destruct (@french_prompt_no_get m b (value (classify_intent gemini m b) h) Hb)
      as [Hp|Hp].
    + left.
      destruct (@french_failed_value m b (value (classify_intent gemini m b) h)
                  (h ++ trace (classify_intent gemini m b) h) Hp) as [-> ->].
      repeat split.
    + right. unfold _generate_french_response. rewrite Hp.
      rewrite trace_bind, prompts_of_app, safe_generate_prompts, trace_ret.
      reflexivity.
Qed.

(** X6. The reply of [generate_response] is never the empty string: an
    empty or missing answer of the model is replaced by the fallback
    sentence. *)
Theorem reply_never_empty (m : str) (b : pyval) (h : list event) :
  0 < length (text (value (generate_response gemini m b) h)).
Proof.
  destruct (generate_response_run gemini m b h) as [Hv _]. rewrite Hv.
  assert (Hne : forall r t, nonempty r = Some t -> 0 < length t).
  { intros [[|c s]|] t Hr; try discriminate Hr. injection Hr as <-. cbn. lia. }
  destruct (str_eqb (detect_language m) (u "french")).
  - destruct (french_prompt m b (value (classify_intent gemini m b) h))
      as [p|] eqn:Hp.
    + rewrite (@french_response_built _ gemini m b _ p _ Hp). cbn [text reply].
      destruct (nonempty (gemini _ p)) as [t|] eqn:Hn; [exact (Hne _ _ Hn)|].
      apply Nat.ltb_lt. vm_compute. reflexivity.
    + destruct (@french_failed_value m b (value (classify_intent gemini m b) h)
                  (h ++ trace (classify_intent gemini m b) h) Hp) as [-> _].
      apply Nat.ltb_lt. vm_compute. reflexivity.
  - destruct (english_prompt m b (value (classify_intent gemini m b) h))
      as [p|] eqn:Hp.
    + rewrite (@english_response_built gemini m b _ p _ Hp). cbn [text reply].
      destruct (nonempty (gemini _ p)) as [t|] eqn:Hn; [exact (Hne _ _ Hn)|].
      apply Nat.ltb_lt. vm_compute. reflexivity.
    + destruct (@english_failed_value m b (value (classify_intent gemini m b) h)
                  (h ++ trace (classify_intent gemini m b) h) Hp) as [-> _].
      apply Nat.ltb_lt. vm_compute. reflexivity.
Qed.

End BusinessWithoutGet.

Lemma business_without_get_witness :
  text (value (@generate_response LatinCase DemoJson (fun _ _ => Some (u "Hi!"))
                 (u "I am angry, I need a refund") PNone) [])
  = u "Thanks for your message! Someone from our team will get back to you shortly.".
Proof.
  assert (Hb : forall d, PNone <> PDict d) by (intros d; discriminate).
  assert (Hl : @detect_language LatinCase (u "I am angry, I need a refund")
               <> u "french")
    by (intros Hx; vm_compute in Hx; discriminate Hx).
  destruct (@business_without_get LatinCase DemoJson (fun _ _ => Some (u "Hi!"))
              (u "I am angry, I need a refund") PNone [] Hb) as [He _].
  destruct (He Hl) as (_ & Htext & _). exact Htext.
Defined.

(** ** Letter case and extension of the message *)

Section CaseAndExtension.
Context `{CaseMap}.

(** Without capital sigma, lowering goes code point by code point. *)
Lemma lower_from_plain (s : str) :
  forall before,
    existsb (N.eqb 931) s = false -> lower_from before s = flat_map lower_cp s.
Proof.
  induction s as [|c s IH]; intros before; [reflexivity|].
  cbn [existsb lower_from flat_map]. intros Hs.
  apply orb_false_elim in Hs as [Hc Hs]. rewrite N.eqb_sym in Hc.
  rewrite Hc, (IH _ Hs). reflexivity.
Qed.

Lemma existsb_app_false {A} (f : A -> bool) (a b : list A) :
  existsb f a = false -> existsb f b = false -> existsb f (a ++ b) = false.
Proof. intros Ha Hb. now rewrite existsb_app, Ha, Hb. Qed.

Lemma lower_from_lowered (m : str) :
  stable ->
  forall before,
    existsb (N.eqb 931) (lower_from before m) = false /\
    flat_map lower_cp (lower_from before m) = lower_from before m.
Proof.
  intros (Hidem & Hno & H962 & H963).
  induction m as [|c m IH]; intros before; [now split|].
  cbn [lower_from]. destruct (IH (c :: before)) as [IHno IHidem].
  rewrite flat_map_app, IHidem.
  destruct (c =? 931)%N.
  - destruct (final_sigma before m); cbn [flat_map app existsb].
    + rewrite H962. split; [exact IHno | reflexivity].
    + rewrite H963. split; [exact IHno | reflexivity].
  - split; [apply existsb_app_false; [apply Hno | exact IHno]|].
    now rewrite Hidem.
Qed.

(** With a stable table lowering is idempotent. *)
Lemma lower_lower (m : str) : stable -> lower (lower m) = lower m.
Proof.
  intros Hs. unfold lower.
  destruct (lower_from_lowered m Hs []) as [Hno Hidem].
  now rewrite (lower_from_plain _ [] Hno).
Qed.

(** X7. The detectors read the lowercased message only: when the case
    table is stable, as the interpreter's is, lowering the message
    beforehand changes neither the detected language, nor the escalation
    flag, nor whether a category is above the threshold, nor the
    fallback intent. *)
Theorem detectors_ignore_case (m : str) :
  stable ->
  detect_language (lower m) = detect_language m /\
  _check_escalation_needed (lower m) = _check_escalation_needed m /\
  exceeds_threshold (lower m) = exceeds_threshold m /\
  mi_intent (_fallback_intent_classification (lower m))
  = mi_intent (_fallback_intent_classification m).
Proof.
  intros Hc. pose proof (lower_lower m Hc) as Hl.
  unfold detect_language, _check_escalation_needed, exceeds_threshold,
    category_score, _fallback_intent_classification.
  cbn [mi_intent]. rewrite !Hl. repeat split.
Qed.

Lemma count_in_mono (words : list str) (t t' : str) :
  (forall w, In w words -> contains w t = true -> contains w t' = true) ->
  count_in words t <= count_in words t'.
Proof.
  unfold count_in. induction words as [|w words IH]; intros Hsub; [reflexivity|].
  assert (Hrest : length (filter (fun w => contains w t) words)
                  <= length (filter (fun w => contains w t') words)).
  { apply IH. intros w' Hw'. apply Hsub. now right. }
  cbn [filter]. destruct (contains w t) eqn:Ew.
  - rewrite (Hsub w (or_introl eq_refl) Ew). cbn [length]. lia.
  - destruct (contains w t'); cbn [length]; lia.
Qed.

Lemma category_score_mono (kws : list str) (m m' : str) :
  (forall w, In w kws ->
             contains w (lower m) = true -> contains w (lower m') = true) ->
  (category_score kws m <= category_score kws m')%Q.
Proof.
  intros Hsub. unfold category_score, Qle. cbn [Qnum Qden].
  apply Z.mul_le_mono_nonneg_r; [lia|].
  apply Nat2Z.inj_le. now apply count_in_mono.
Qed.

Lemma french_mono (m m' : str) :
  (forall w, In w french_words ->
             contains w (lower m) = true -> contains w (lower m') = true) ->
  detect_language m = u "french" -> detect_language m' = u "french".
Proof.
  intros Hsub. unfold detect_language.
  pose proof (count_in_mono french_words (lower m) (lower m') Hsub) as Hle.
  destruct (Nat.leb_spec 2 (count_in french_words (lower m))) as [H2|H2].
  - intros _. destruct (Nat.leb_spec 2 (count_in french_words (lower m')));
      [reflexivity | lia].
  - intros Hx. vm_compute in Hx. discriminate Hx.
Qed.

Lemma threshold_mono (m m' : str) :
  (forall c kws w, In (c, kws) _load_intent_keywords -> In w kws ->
                   contains w (lower m) = true -> contains w (lower m') = true) ->
  exceeds_threshold m = true -> exceeds_threshold m' = true.
Proof.
  intros Hsub. unfold exceeds_threshold. rewrite !existsb_exists.
  intros ([c kws] & Hin & Hq). exists (c, kws). split; [exact Hin|].
  cbn [snd] in *. apply Qlt_b_true in Hq. apply Qlt_b_true.
  apply Qlt_le_trans with (category_score kws m); [exact Hq|].
  apply category_score_mono. intros w Hw. exact (Hsub c kws w Hin Hw).
Qed.

Lemma french_words_sigma_free : forallb sigma_free french_words = true.
Proof. vm_compute. reflexivity. Qed.

Lemma keywords_sigma_free :
  forallb (fun entry : str * list str => forallb sigma_free (snd entry))
          _load_intent_keywords = true.
Proof. vm_compute. reflexivity. Qed.

(** X8. Language detection and the keyword threshold are monotone under
    extension of the message on either side: a message detected as
    French stays French, and one with a category above the threshold
    keeps one above it, so a longer message is never sent to the model
    for classification when a part of it was not. *)
Theorem extension_monotone (m s : str) :
  (detect_language m = u "french" ->
   detect_language (m ++ s) = u "french" /\
   detect_language (s ++ m) = u "french") /\
  (exceeds_threshold m = true ->
   exceeds_threshold (m ++ s) = true /\ exceeds_threshold (s ++ m) = true).
Proof.
  assert (Hfr : forall w, In w french_words -> sigma_free w = true).
  { exact (proj1 (forallb_forall _ _) french_words_sigma_free). }
  assert (Hkw : forall c kws w, In (c, kws) _load_intent_keywords -> In w kws ->
                                sigma_free w = true).
  { intros c kws w Hin Hw.
    pose proof (proj1 (forallb_forall _ _) keywords_sigma_free (c, kws) Hin) as Hk.
    exact (proj1 (forallb_forall _ _) Hk w Hw). }
  split; intros Hm; split.
  - apply (french_mono m (m ++ s)); [|exact Hm].
    intros w Hw. apply lower_extends_r. now apply Hfr.
  - apply (french_mono m (s ++ m)); [|exact Hm].
    intros w Hw. apply lower_extends_l. now apply Hfr.
  - apply (threshold_mono m (m ++ s)); [|exact Hm].
    intros c kws w Hin Hw. apply lower_extends_r. eapply Hkw; eassumption.
  - apply (threshold_mono m (s ++ m)); [|exact Hm].
    intros c kws w Hin Hw. apply lower_extends_l. eapply Hkw; eassumption.
Qed.

End CaseAndExtension.

Lemma latin_stable : @stable LatinCase.
Proof.
  assert (Hcases : forall c,
             latin_lower_cp c = [(c + 32)%N] /\
               ((65 <= c <= 90)%N \/ (192 <= c <= 222)%N) \/
             c = 304%N \/ c = 931%N \/
             latin_lower_cp c = [c] /\ ~ (65 <= c <= 90)%N /\
               ~ (192 <= c <= 222 /\ c <> 215)%N /\ c <> 304%N /\ c <> 931%N).
  { intros c. unfold latin_lower_cp.
    destruct ((65 <=? c) && (c <=? 90))%N eqn:E1.
    { apply andb_true_iff in E1 as [Ha Hb]. apply N.leb_le in Ha, Hb.
      left. split; [reflexivity | left; lia]. }
    destruct ((192 <=? c) && (c <=? 222) && negb (c =? 215))%N eqn:E2.
    { apply andb_true_iff in E2 as [E2 _].
      apply andb_true_iff in E2 as [Ha Hb]. apply N.leb_le in Ha, Hb.
      left. split; [reflexivity | right; lia]. }
    destruct (N.eqb_spec c 304); [right; now left|].
    destruct (N.eqb_spec c 931); [right; right; now left|].
    right. right. right. split; [reflexivity|].
    apply andb_false_iff in E1. apply andb_false_iff in E2.
    repeat split; try assumption.
    - intros [Ha Hb]. apply N.leb_le in Ha, Hb. destruct E1; congruence.
    - intros [[Ha Hb] Hne]. apply N.leb_le in Ha, Hb.
      apply N.eqb_neq in Hne. destruct E2 as [E2|E2].
      + apply andb_false_iff in E2. destruct E2; congruence.
      + rewrite Hne in E2. discriminate E2. }
  assert (Hplain : forall c, ~ (65 <= c <= 90)%N ->
                             ~ (192 <= c <= 222 /\ c <> 215)%N ->
                             c <> 304%N -> c <> 931%N ->
                             latin_lower_cp c = [c]).
  { intros c H1 H2 H3 H4. unfold latin_lower_cp.
    replace ((65 <=? c) && (c <=? 90))%N with false.
    2:{ symmetry. apply not_true_is_false. intros E.
        apply andb_true_iff in E as [Ha Hb]. apply N.leb_le in Ha, Hb. lia. }
    replace ((192 <=? c) && (c <=? 222) && negb (c =? 215))%N with false.
    2:{ symmetry. apply not_true_is_false. intros E.
        apply andb_true_iff in E as [E Hne]. apply andb_true_iff in E as [Ha Hb].
        apply N.leb_le in Ha, Hb. apply negb_true_iff, N.eqb_neq in Hne. lia. }
    apply N.eqb_neq in H3, H4. now rewrite H3, H4. }
  unfold stable. cbn [lower_cp LatinCase].
  split; [|split; [|split; reflexivity]].
  - intros c.
    destruct (Hcases c) as [[Hc Hr]|[->|[->|[Hc _]]]];
      try reflexivity; rewrite Hc; cbn [flat_map app]; rewrite app_nil_r.
    + apply Hplain; lia.
    + exact Hc.
  - intros c.
    destruct (Hcases c) as [[Hc Hr]|[->|[->|[Hc (_ & _ & _ & Hne)]]]];
      try reflexivity; rewrite Hc; cbn [existsb]; rewrite orb_false_r;
      apply N.eqb_neq; lia.
Qed.

Lemma detectors_ignore_case_witness :
  @detect_language LatinCase (@lower LatinCase (u "BONJOUR, MERCI"))
  = @detect_language LatinCase (u "BONJOUR, MERCI").
Proof.
  apply (@detectors_ignore_case LatinCase (u "BONJOUR, MERCI") latin_stable).
Defined.

(** ** More of the webhook *)

Lemma run_parts {A} (m : M A) (h : list event) (a : A) (t : list event) :
  m h = (a, t) -> value m h = a /\ trace m h = t.
Proof. intros Hr. unfold value, trace. rewrite Hr. split; reflexivity. Qed.

Section WebhookEdges.
Context `{Repr}.
Variable db : DbObject.
Variable ai : AiObject.
Variable twilio : SmsObject.
Variable notify_business_owner : option method.

(** X9. When the form of the request cannot be read, the handler logs the
    error and raises [HTTPException] 500: no task is added, so nothing is
    looked up, classified, answered or sent. *)
Theorem unreadable_form_is_500 (e : exn) (h : list event) :
  let serve := serve_sms_webhook db ai twilio notify_business_owner (Raises e) in
  let failure := HTTPException 500 (u "Webhook processing failed") in
  value serve h = failure /\
  trace serve h = [EvLog ERROR (u "SMS webhook error: {str(e)}");
                   EvRespond failure].
Proof.
  cbv zeta.
  destruct (serve_sms_webhook_run db ai twilio notify_business_owner
                                  (Raises e) h) as [Hv Ht].
  destruct (run_parts _ h (handle_sms_webhook_raises e h)) as [Hhv Hht].
  rewrite Hv, Ht, Hhv, Hht. cbn [fst snd app run_tasks].
  rewrite trace_ret. split; reflexivity.
Qed.

Lemma process_message_strip_raises (message_data : list (str * pyval))
      (e : exn) (h : list event) :
  py_strip (get message_data (u "body") (PStr [])) = Raises e ->
  process_message db ai message_data h =
    (Failed e, [EvLog ERROR (u "Error processing message: {str(e)}")]).
Proof.
  intros Hs. unfold process_message, process_message_body. cbv zeta.
  unfold try_except, bindE, bind, pure. rewrite Hs. reflexivity.
Qed.

(** X10. A request without [Body] never reaches the database: the
    missing field is read as [None], whose [strip] raises, so
    [process_message] fails at once, whatever the collaborators are; the
    task then logs that a response was sent, although none was. *)
Theorem missing_body_fails_early (form_data : list (str * pyval))
        (h : list event) :
  assoc form_data (u "Body") = None ->
  let message_data :=
    [ (u "from", get form_data (u "From") PNone);
      (u "to", get form_data (u "To") PNone);
      (u "body", get form_data (u "Body") PNone);
      (u "platform", PStr (u "sms"));
      (u "message_sid", get form_data (u "MessageSid") PNone) ] in
  process_message db ai message_data h =
    (Failed (AttributeError (u "NoneType") (u "strip")),
     [EvLog ERROR (u "Error processing message: {str(e)}")]) /\
  trace (process_and_respond_sms db ai twilio notify_business_owner
                                 message_data) h =
    [EvLog ERROR (u "Error processing message: {str(e)}");
     EvLog INFO (u "SMS response sent to {message_data['from']}")].
Proof.
  intros Hbody message_data.
  assert (Hs : py_strip (get message_data (u "body") (PStr []))
               = Raises (AttributeError (u "NoneType") (u "strip"))).
  { subst message_data. unfold get at 1. cbn [assoc].
    replace (str_eqb (u "from") (u "body")) with false by reflexivity.
    replace (str_eqb (u "to") (u "body")) with false by reflexivity.
    replace (str_eqb (u "body") (u "body")) with true by reflexivity.
    unfold get. rewrite Hbody. reflexivity. }
  pose proof (process_message_strip_raises message_data h Hs) as Hpm.
  split; [exact Hpm|].
  destruct (run_parts _ h Hpm) as [Hpv Hpt].
  unfold process_and_respond_sms, try_except, bindE, lift.
  rewrite !trace_bind, !value_bind, Hpv, Hpt. reflexivity.
Qed.

End WebhookEdges.

Lemma missing_body_fails_early_witness :
  value (@process_message PlainRepr StubDatabase StubAI
           [ (u "from", PStr (u "+15145550199"));
             (u "to", PStr (u "+15145550100"));
             (u "body", PNone);
             (u "platform", PStr (u "sms"));
             (u "message_sid", PNone) ]) []
  = Failed (AttributeError (u "NoneType") (u "strip")).
Proof.
  destruct (@missing_body_fails_early PlainRepr StubDatabase StubAI StubSMS None
              [ (u "From", PStr (u "+15145550199"));
                (u "To", PStr (u "+15145550100")) ] [] eq_refl) as [Hpm _].
  unfold value. vm_compute in Hpm. vm_compute. exact (f_equal fst Hpm).
Defined.

Lemma trace_bindE {A B} (m : E A) (k : A -> E B) (h : list event) :
  trace (bindE m k) h =
  trace m h ++ match value m h with
               | Returns a => trace (k a) (h ++ trace m h)
               | Raises _ => []
               end.
Proof.
  unfold bindE. rewrite trace_bind. destruct (value m h); reflexivity.
Qed.

Lemma value_bindE {A B} (m : E A) (k : A -> E B) (h : list event) :
  value (bindE m k) h =
  match value m h with
  | Returns a => value (k a) (h ++ trace m h)
  | Raises e => Raises e
  end.
Proof.
  unfold bindE. rewrite value_bind. destruct (value m h); reflexivity.
Qed.

Lemma trace_try_except {A} (m : E A) (handler : exn -> M A) (h : list event) :
  trace (try_except m handler) h =
  trace m h ++ match value m h with
               | Returns _ => []
               | Raises e => trace (handler e) (h ++ trace m h)
               end.
Proof.
  unfold try_except. rewrite trace_bind. destruct (value m h); reflexivity.
Qed.

Lemma value_lift {A} (m : M A) (h : list event) :
  value (lift m) h = Returns (value m h).
Proof. unfold lift. now rewrite value_bind. Qed.

Lemma trace_lift {A} (m : M A) (h : list event) : trace (lift m) h = trace m h.
Proof. unfold lift. rewrite trace_bind. apply app_nil_r. Qed.

Ltac walk_on :=
  first
    [ walk
    | cbv beta zeta;
      lazymatch goal with
      | |- sat (bindE (ok _) _) _ =>
        apply sat_step_pure;
        [ let Hok := fresh in intros ? Hok; injection Hok as <-
        | let Hok := fresh in intros ? Hok; discriminate Hok ]
      | |- sat (bindE (raise _) _) _ =>
        apply sat_step_pure;
        [ let Hok := fresh in intros ? Hok; discriminate Hok
        | let Hok := fresh in intros ? Hok; injection Hok as <- ]
      | |- sat (bindE (match ?x with _ => _ end) _) _ => destruct x eqn:?
      | |- sat (match ?x with _ => _ end) _ => destruct x eqn:?
      | |- sat (lift (emit _)) _ => apply sat_lift, sat_emit
      | |- sat (pure _) _ => apply sat_pure
      | |- sat (invoke _ _ _) _ =>
        eapply sat_invoke; [invoke_fact | intros ? ? ?]
      end;
      digest; prune ].

Section Handlers.
Context `{Repr} `{CaseMap} `{Json}.
Variable gemini : list event -> prompt -> option str.
Variable sqlite : list event -> str -> list pyval -> sql_result.

(** X11. The booking handler never books: whatever the collaborators
    do, it returns a dict with [text] and [escalate] and without
    [booking_id], because the calendar module that it imports does not
    exist.  With the repository's [AIProcessor], which defines none of
    [extract_booking_info], [answer_faq] and [analyze_complaint], it
    always apologises and escalates, and the FAQ and complaint handlers
    always raise [AttributeError]; none of them calls any method. *)
Theorem handlers_without_methods (db : DbObject) (ai : AiObject)
        (message business conversation customer_phone : pyobj)
        (h : list event) :
  (exists reply escalate,
     value (handle_booking_request ai message business conversation) h
     = dict [(u "text", PStr reply); (u "escalate", PBool escalate)]) /\
  handle_booking_request (AIProcessor gemini) message business conversation h
  = (dict [(u "text",
            PStr (u "I'm having trouble with bookings right now. Let me connect you with someone who can help!"));
           (u "escalate", PBool true)],
     [EvLog ERROR (u "Booking error: {str(e)}")]) /\
  handle_faq_request (AIProcessor gemini) message business h
  = (Raises (AttributeError (u "AIProcessor") (u "answer_faq")), []) /\
  handle_complaint db (AIProcessor gemini) message business customer_phone h
  = (Raises (AttributeError (u "AIProcessor") (u "analyze_complaint")), []).
Proof.
  split; [|repeat split].
  revert h.
  change (sat (handle_booking_request ai message business conversation)
              (fun r _ => exists reply escalate,
                   r = dict [(u "text", PStr reply); (u "escalate", PBool escalate)])).
  unfold handle_booking_request.
  apply sat_try_except
    with (P := fun r _ => forall x, r = Returns x ->
                 exists reply escalate,
                   x = dict [(u "text", PStr reply); (u "escalate", PBool escalate)]).
  - repeat walk_on;
      leaf ltac:(intros x Hx; first [ discriminate Hx
                                    | injection Hx as <-; eexists; eexists; reflexivity ]).
  - intros a t Ha. now apply Ha.
  - intros e t _. apply sat_emit_then, sat_ret. eexists; eexists; reflexivity.
Qed.

(** X12. With the repository's [Database] the task logs that the
    response was sent although nothing was: neither [send_sms] nor
    [log_interaction] is called, and the last event is the line
    "SMS response sent". *)
Theorem sent_is_logged_without_send (ai : AiObject) (twilio : SmsObject)
        (notify_business_owner : option method)
        (message_data : list (str * pyval)) (sender : pyval) (h : list event) :
  assoc message_data (u "from") = Some sender ->
  let t := trace (process_and_respond_sms (Database sqlite) ai twilio
                                          notify_business_owner message_data) h in
  last t (EvLog ERROR [])
  = EvLog INFO (u "SMS response sent to {message_data['from']}") /\
  sends t = false.
Proof.
  intros Hfrom. cbv zeta. split.
  2:{ pose proof (process_and_respond_sms_repository
                    sqlite ai twilio notify_business_owner message_data h) as Ht.
      now apply lookup_only_quiet. }
  revert h.
  change (sat (process_and_respond_sms (Database sqlite) ai twilio
                                       notify_business_owner message_data)
              (fun _ t => last t (EvLog ERROR [])
                          = EvLog INFO (u "SMS response sent to {message_data['from']}"))).
  assert (Hsub : subscript (dict message_data) (u "from") = Returns (OVal sender)).
  { unfold subscript, dict. rewrite Hfrom. reflexivity. }
  unfold process_and_respond_sms.
  apply sat_try_except
    with (P := fun r t => r = Returns tt /\
                          last t (EvLog ERROR [])
                          = EvLog INFO (u "SMS response sent to {message_data['from']}")).
  - apply sat_bindE
      with (P := fun r t => exists res, r = Returns res /\ has_error res = true).
    + apply sat_lift.
      eapply sat_weaken; [apply (process_message_repository sqlite ai message_data)|].
      cbv beta zeta. intros res t (_ & Hr & _). exists res.
      split; [reflexivity|].
      destruct Hr as [-> | [(e & -> & _) | ->]]; reflexivity.
    + intros res t (res' & Hres & Herr). injection Hres as <-.
      destruct res as [|e|response_text intent escalate booking_created];
        [| |discriminate Herr];
        rewrite Hsub; repeat walk_on;
          leaf ltac:(split; [reflexivity | apply last_last]).
    + intros e t (res & Hres & _). discriminate Hres.
  - intros a t [_ Ht]. exact Ht.
  - intros e t [Hr _]. discriminate Hr.
Qed.

End Handlers.

Lemma sent_is_logged_without_send_witness :
  last (trace (@process_and_respond_sms PlainRepr (@Database DemoJson demo_sqlite)
                 StubAI StubSMS None demo_message) []) (EvLog ERROR [])
  = EvLog INFO (u "SMS response sent to {message_data['from']}").
Proof.
  apply (@sent_is_logged_without_send PlainRepr DemoJson demo_sqlite StubAI StubSMS
           None demo_message (PStr (u "+15145550199")) [] eq_refl).
Defined.

Section Escalated.
Context `{Repr}.
Variable db : DbObject.
Variable ai : AiObject.
Variable twilio : SmsObject.

(** X13. A reply that asks for escalation always ends in the error log:
    [notify_business_owner] is defined nowhere, so the task raises
    [NameError] once the reply has been handed to [send_sms], unless it
    has raised before; either way the last line of the log is the error
    and not "SMS response sent". *)
Theorem escalated_reply_ends_in_error (message_data : list (str * pyval))
        (response_text intent escalate : pyobj) (booking_created : bool)
        (h : list event) :
  value (process_message db ai message_data) h
  = Reply response_text intent escalate booking_created ->
  obj_truthy escalate = true ->
  last (trace (process_and_respond_sms db ai twilio None message_data) h)
       (EvLog INFO [])
  = EvLog ERROR (u "Error in SMS processing: {str(e)}").
Proof.
  intros Hreply Htruthy. unfold process_and_respond_sms.
  rewrite trace_try_except, value_bindE, trace_bindE, value_lift, trace_lift.
  rewrite Hreply. cbv iota beta.
  match goal with
  | |- context [value ?k ?hh] =>
    assert (Hk : sat k (fun r _ => exists e, r = Raises e))
  end.
  { rewrite Htruthy. repeat walk_on; leaf ltac:(eexists; reflexivity). }
  match goal with
  | |- context [value ?k ?hh] => destruct (Hk hh) as [e ->]
  end.
  rewrite app_assoc. apply last_last.
Qed.

End Escalated.

Lemma escalated_reply_ends_in_error_witness :
  last (trace (@process_and_respond_sms PlainRepr StubDatabase StubUrgentAI
                 StubSMS None demo_message) []) (EvLog INFO [])
  = EvLog ERROR (u "Error in SMS processing: {str(e)}").
Proof.
  apply (@escalated_reply_ends_in_error PlainRepr StubDatabase StubUrgentAI
           StubSMS demo_message (OVal (PStr (u "We are sorry.")))
           (OVal (PStr (u "general"))) (OVal (PBool true)) false []).
  - vm_compute. reflexivity.
  - reflexivity.
Defined.

(** ** The Facebook verification route *)

(** X14. The verification route never confirms a subscription: the
    attribute [verify_token] of [FacebookAPI] is the token string, which
    hides the method of that name, so the call raises [TypeError] when
    [hub.mode] is ['subscribe']; any other request gets the 403.  The
    challenge is never returned and nothing is logged. *)
Theorem facebook_verification_never_succeeds (verify_token : str)
        (hub_mode hub_challenge hub_verify_token : option str) (h : list event) :
  let run := verify_facebook_webhook verify_token hub_mode hub_challenge
                                     hub_verify_token in
  trace run h = [] /\
  value run h =
    if match hub_mode with
       | Some mode => str_eqb mode (u "subscribe")
       | None => false
       end
    then Raises (TypeError (NotCallable (u "str")))
    else Returns (HTTPException 403 (u "Invalid verification token")).
Proof.
  cbv zeta. unfold verify_facebook_webhook.
  destruct hub_mode as [mode|]; [destruct (str_eqb mode (u "subscribe"))|];
    split; reflexivity.
Qed.

(** ** Phone numbers *)

Section PhoneNumbers.
Context `{Digits}.

(** X15. [format_phone_number] gives the empty string for [None] and for
    the empty string; for every other string it keeps the digits and
    the ['+'] signs of the number, in their order, behind nothing, ['+']
    or ['+1'], and the result starts with ['+']. *)
Theorem format_phone_number_shape :
  format_phone_number None = [] /\
  format_phone_number (Some []) = [] /\
  forall c s,
    let formatted := format_phone_number (Some (c :: s)) in
    (exists country, In country [[]; u "+"; u "+1"] /\
                     formatted = country ++ kept (c :: s)) /\
    is_prefix (u "+") formatted = true.
Proof.
  split; [reflexivity|]. split; [reflexivity|].
  intros c s formatted. subst formatted.
  unfold format_phone_number. fold (kept (c :: s)).
  set (p := kept (c :: s)).
  destruct (is_prefix (u "1") p && (length p =? 11)%nat).
  { split; [exists (u "+"); split; [right; now left | reflexivity]| reflexivity]. }
  destruct (length p =? 10)%nat.
  { split; [exists (u "+1"); split; [right; right; now left | reflexivity]| reflexivity]. }
  destruct (is_prefix (u "+") p) eqn:Hp; cbn [negb].
  - split; [exists []; split; [now left | reflexivity] | exact Hp].
  - split; [exists (u "+"); split; [right; now left | reflexivity]| reflexivity].
Qed.

End PhoneNumbers.

(** ** Sending *)

Section Sending.
Context `{Digits}.
Variable client : option (list event -> str -> str -> pyval -> twilio_result).
Variable phone_number : option str.






End Sending.

(** ** Recent conversations *)

Lemma lastn_length {A} (n : nat) (l : list A) : length (lastn n l) <= n.
Proof. unfold lastn. rewrite length_skipn. lia. Qed.

Lemma masked_short (v r : pyval) (s : str) :
  masked v = Returns r -> r = PStr s -> s = u "Unknown" \/ length s <= 4.
Proof.
  unfold masked. destruct (truthy v).
  - destruct v; intros Hm Hr; try discriminate Hm;
      injection Hm as <-; try discriminate Hr.
    injection Hr as <-. right. apply lastn_length.
  - intros Hm Hr. injection Hm as <-. injection Hr as <-. now left.
Qed.

Lemma preview_short (v r : pyval) (s : str) :
  preview v = Returns r -> r = PStr s -> length s <= 103.
Proof.
  unfold preview. destruct (truthy v) eqn:Ht.
  - destruct v; intros Hm Hr; try discriminate Hm.
    + pose proof (length_firstn 100 s0) as Hf.
      remember (firstn 100 s0) as shown eqn:Hshown.
      remember (u "...") as dots eqn:Hdots.
      assert (Hd : length dots = 3) by now subst dots.
      destruct (100 <? length s0) eqn:Hl; injection Hm as <-; injection Hr as <-.
      * rewrite length_app. lia.
      * apply Nat.ltb_ge in Hl. lia.
    + destruct (100 <? length b); [discriminate Hm|].
      injection Hm as <-. discriminate Hr.
    + destruct (100 <? length l); [discriminate Hm|].
      injection Hm as <-. discriminate Hr.
    + destruct (100 <? length d); [discriminate Hm|].
      injection Hm as <-. discriminate Hr.
  - intros Hm Hr. injection Hm as <-. subst v. cbn [truthy] in Ht.
    destruct s; [cbn; lia | discriminate Ht].
Qed.

Lemma conversation_entry_shows_little (row : list (str * pyval)) (entry : pyval) :
  conversation_entry row = Returns entry -> shows_little entry.
Proof.
  unfold conversation_entry.
  destruct (row_item row (u "customer_phone")) as [phone|]; [|discriminate].
  cbn [and_then].
  destruct (masked phone) as [customer|] eqn:Hc; [|discriminate].
  cbn [and_then].
  destruct (row_item row (u "inbound_message")) as [inbound_message|]; [|discriminate].
  cbn [and_then].
  destruct (preview inbound_message) as [inbound|] eqn:Hi; [|discriminate].
  cbn [and_then].
  destruct (row_item row (u "outbound_message")) as [outbound_message|]; [|discriminate].
  cbn [and_then].
  destruct (preview outbound_message) as [outbound|] eqn:Ho; [|discriminate].
  cbn [and_then].
  destruct (row_item row (u "intent")) as [intent|]; [|discriminate].
  destruct (row_item row (u "ai_confidence")) as [confidence|]; [|discriminate].
  destruct (row_item row (u "timestamp")) as [timestamp|]; [|discriminate].
  destruct (row_item row (u "escalated")) as [escalated|]; [|discriminate].
  destruct (row_item row (u "platform")) as [platform|]; [|discriminate].
  cbn [and_then]. intros He. injection He as <-.
  eexists. split; [reflexivity|]. split; [reflexivity|].
  split; [|split].
  - intros s Hs. vm_compute in Hs. injection Hs as Hs.
    exact (masked_short phone Hc Hs).
  - intros s Hs. vm_compute in Hs. injection Hs as Hs.
    exact (preview_short inbound_message Hi Hs).
  - intros s Hs. vm_compute in Hs. injection Hs as Hs.
    exact (preview_short outbound_message Ho Hs).
Qed.

Lemma conversation_entries_show_little (rows : list (list (str * pyval))) :
  forall entries,
    conversation_entries rows = Returns entries ->
    Forall shows_little entries /\ length entries = length rows.
Proof.
  induction rows as [|row rest IH]; intros entries.
  - intros He. injection He as <-. split; [constructor | reflexivity].
  - cbn [conversation_entries].
    destruct (conversation_entry row) as [entry|] eqn:Hrow; [|discriminate].
    cbn [and_then].
    destruct (conversation_entries rest) as [others|]; [|discriminate].
    cbn [and_then]. intros He. injection He as <-.
    destruct (IH others eq_refl) as [Hall Hlen].
    split; [constructor; [exact (conversation_entry_shows_little row Hrow) | exact Hall]
           | cbn [length]; now rewrite Hlen].
Qed.

Lemma conversation_entry_returns (row : list (str * pyval)) :
  well_stored row = true -> exists entry, conversation_entry row = Returns entry.
Proof.
  unfold well_stored, conversation_entry, row_item. cbn [forallb].
  destruct (assoc row (u "customer_phone")) as [[| | | |phone| | |]|];
    try discriminate;
    (destruct (assoc row (u "inbound_message")) as [[| | | |inbound| | |]|];
     try discriminate);
    (destruct (assoc row (u "outbound_message")) as [[| | | |outbound| | |]|];
     try discriminate);
    cbn [text_or_null andb and_then];
    (destruct (assoc row (u "intent")); [|discriminate]);
    (destruct (assoc row (u "ai_confidence")); [|discriminate]);
    (destruct (assoc row (u "timestamp")); [|discriminate]);
    (destruct (assoc row (u "escalated")); [|discriminate]);
    (destruct (assoc row (u "platform")); [|discriminate]);
    intros _; unfold masked, preview; cbn [truthy];
    repeat match goal with
           | |- context [negb (Nat.eqb (length ?x) 0)] =>
             destruct (negb (Nat.eqb (length x) 0))
           end;
    cbn [and_then]; eexists; reflexivity.
Qed.

Lemma conversation_entries_return (rows : list (list (str * pyval))) :
  forallb well_stored rows = true ->
  exists entries, conversation_entries rows = Returns entries.
Proof.
  induction rows as [|row rest IH]; [eexists; reflexivity|].
  cbn [forallb conversation_entries]. intros Hw.
  apply andb_prop in Hw as [Hrow Hrest].
  destruct (conversation_entry_returns row Hrow) as [entry ->].
  destruct (IH Hrest) as [entries ->]. eexists. reflexivity.
Qed.

Section RecentConversations.
Variable sqlite : list event -> str -> list pyval -> sql_result.

(** X17. [get_recent_conversations] never raises.  Without a cursor it
    logs the error and returns the empty list, and no statement is
    executed; when the SELECT or a later step fails it returns the empty
    list after the SELECT and the error in the log.  When rows are
    fetched it has executed the one SELECT, and it returns the entries
    of the rows, one per row, unless reading a row raises, which gives
    the empty list and the error in the log and does not happen when the
    rows are as the schema types them.  Each entry has the eight keys,
    shows at most the last four characters of the customer's number (or
    ['Unknown']) and at most 103 characters of each message. *)
Theorem recent_conversations_are_masked (business_id limit : pyval)
        (h : list event) :
  let run := get_recent_conversations sqlite business_id limit in
  let query := EvSql select_recent_conversations [business_id; limit] in
  let failure := EvLog ERROR (u "Recent conversations query error: {str(e)}") in
  Forall shows_little (value run h) /\
  match sqlite h select_recent_conversations [business_id; limit] with
  | SqlNoCursor _ => value run h = [] /\ trace run h = [failure]
  | SqlError _ => value run h = [] /\ trace run h = [query; failure]
  | SqlRows rows =>
    match conversation_entries rows with
    | Returns entries =>
      value run h = entries /\ length entries = length rows /\
      trace run h = [query]
    | Raises _ =>
      value run h = [] /\ trace run h = [query; failure] /\
      forallb well_stored rows = false
    end
  end.
Proof.
  cbv zeta.
  assert (Hrun :
    get_recent_conversations sqlite business_id limit h =
    match sqlite h select_recent_conversations [business_id; limit] with
    | SqlRows rows =>
      match conversation_entries rows with
      | Returns entries =>
        (entries, [EvSql select_recent_conversations [business_id; limit]])
      | Raises _ =>
        ([], [EvSql select_recent_conversations [business_id; limit];
              EvLog ERROR (u "Recent conversations query error: {str(e)}")])
      end
    | SqlError _ =>
      ([], [EvSql select_recent_conversations [business_id; limit];
            EvLog ERROR (u "Recent conversations query error: {str(e)}")])
    | SqlNoCursor _ =>
      ([], [EvLog ERROR (u "Recent conversations query error: {str(e)}")])
    end).
  { unfold get_recent_conversations, try_except, execute, bind, history, emit,
      ret, raise, pure.
    cbn [fst snd]. rewrite app_nil_r.
    destruct (sqlite h select_recent_conversations [business_id; limit])
      as [e|e|rows]; [reflexivity | reflexivity |].
    cbn [fst snd]. destruct (conversation_entries rows); reflexivity. }
  unfold value, trace. rewrite Hrun.
  destruct (sqlite h select_recent_conversations [business_id; limit])
    as [e|e|rows]; [split; [constructor | now split] ..|].
  pose proof (conversation_entries_return rows) as Hret.
  destruct (conversation_entries rows) as [entries|e] eqn:He.
  - destruct (conversation_entries_show_little rows He) as [Hall Hlen].
    cbn [fst snd]. split; [exact Hall | now repeat split].
  - cbn [fst snd]. split; [constructor|]. split; [reflexivity|].
    split; [reflexivity|].
    destruct (forallb well_stored rows); [|reflexivity].
    destruct (Hret eq_refl) as [entries Hx]. discriminate Hx.
Qed.

End RecentConversations.

(** ** The pipeline of [main.py] *)

Lemma count_app (p : event -> bool) (t1 t2 : list event) :
  count p (t1 ++ t2) = count p t1 + count p t2.
Proof. unfold count. now rewrite filter_app, length_app. Qed.

Lemma existsb_count (p : event -> bool) (t : list event) :
  0 < count p t -> existsb p t = true.
Proof.
  unfold count. induction t as [|e t IH]; cbn [filter existsb length].
  - lia.
  - destruct (p e); [reflexivity|]. exact IH.
Qed.

Lemma count_none (p : event -> bool) (t : list event) :
  count p t = 0 -> existsb p t = false.
Proof.
  unfold count. induction t as [|e t IH]; [reflexivity|].
  cbn [filter existsb]. destruct (p e); [discriminate|]. exact IH.
Qed.

(** An INSERT is a trace of [log_conversation]. *)
Lemma count_insert_le (t : list event) :
  count is_insert t <= count is_log_attempt t.
Proof.
  unfold count. induction t as [|e t IH]; [reflexivity|].
  cbn [filter]. destruct e; cbn [is_insert is_log_attempt];
    try (destruct (str_eqb _ _)); cbn [length]; lia.
Qed.

Lemma sms_after_log_app (t1 t2 : list event) :
  forall seen,
    sms_after_log seen (t1 ++ t2) =
    sms_after_log seen t1 &&
    sms_after_log (seen || existsb is_log_attempt t1) t2.
Proof.
  induction t1 as [|e t1 IH]; intros seen.
  - cbn. now rewrite orb_false_r.
  - cbn [app sms_after_log existsb]. rewrite IH.
    now rewrite <- andb_assoc, orb_assoc.
Qed.

Lemma sms_after_log_seen (t : list event) : sms_after_log true t = true.
Proof.
  induction t as [|e t IH]; [reflexivity|].
  cbn [sms_after_log]. rewrite orb_true_r. cbn [orb andb]. exact IH.
Qed.

Lemma sms_after_log_none (t : list event) :
  forall seen, count is_sms t = 0 -> sms_after_log seen t = true.
Proof.
  unfold count. induction t as [|e t IH]; intros seen; [reflexivity|].
  cbn [filter sms_after_log]. destruct (is_sms e); [discriminate|].
  intros Hc. cbn [negb orb andb]. now apply IH.
Qed.

Lemma sms_after_log_spec (t : list event) :
  forall seen,
    sms_after_log seen t = true ->
    forall pre x post,
      t = pre ++ x :: post -> is_sms x = true ->
      seen || existsb is_log_attempt pre = true.
Proof.
  induction t as [|e t IH]; intros seen Hs pre x post Ht Hx.
  - now destruct pre.
  - cbn [sms_after_log] in Hs. apply andb_prop in Hs as [Hhere Hrest].
    destruct pre as [|e' pre]; cbn [app] in Ht; injection Ht as -> ->.
    + rewrite Hx in Hhere. cbn in Hhere. now rewrite Hhere.
    + cbn [existsb]. rewrite orb_assoc. eapply IH; eauto.
Qed.

Lemma prompts_first_app (t1 t2 : list event) :
  forall late,
    prompts_first late (t1 ++ t2) =
    prompts_first late t1 && prompts_first (late || existsb is_late t1) t2.
Proof.
  induction t1 as [|e t1 IH]; intros late.
  - cbn. now rewrite orb_false_r.
  - cbn [app prompts_first existsb]. rewrite IH.
    now rewrite <- andb_assoc, orb_assoc.
Qed.

Lemma prompts_first_none (t : list event) :
  forall late, count is_generate t = 0 -> prompts_first late t = true.
Proof.
  unfold count. induction t as [|e t IH]; intros late; [reflexivity|].
  cbn [filter prompts_first]. destruct (is_generate e); [discriminate|].
  intros Hc. cbn [negb orb andb]. now apply IH.
Qed.

Lemma prompts_first_early (t : list event) :
  existsb is_late t = false -> prompts_first false t = true.
Proof.
  induction t as [|e t IH]; [reflexivity|].
  cbn [existsb prompts_first]. intros He.
  apply orb_false_elim in He as [He Ht]. rewrite He.
  cbn [negb orb]. rewrite orb_true_r. cbn [andb]. exact (IH Ht).
Qed.

Lemma prompts_first_spec (t : list event) :
  forall late,
    prompts_first late t = true ->
    forall pre x post,
      t = pre ++ x :: post -> is_generate x = true ->
      late || existsb is_late pre = false.
Proof.
  induction t as [|e t IH]; intros late Hs pre x post Ht Hx.
  - now destruct pre.
  - cbn [prompts_first] in Hs. apply andb_prop in Hs as [Hhere Hrest].
    destruct pre as [|e' pre]; cbn [app] in Ht; injection Ht as -> ->.
    + rewrite Hx in Hhere. cbn in Hhere. cbn [existsb].
      rewrite orb_false_r. now apply negb_true_iff.
    + cbn [existsb]. rewrite orb_assoc. eapply IH; eauto.
Qed.

Lemma quiet_not_late (t : list event) : quiet_run t -> existsb is_late t = false.
Proof.
  unfold quiet_run, count. induction t as [|e t IH]; [reflexivity|].
  cbn [filter existsb]. unfold is_late at 1.
  destruct (is_sms e); [intros [Hx _]; discriminate Hx|].
  destruct (is_log_attempt e); [intros [_ Hx]; discriminate Hx|].
  exact IH.
Qed.

Lemma model_or_log_quiet (t : list event) :
  forallb is_model_or_log t = true -> quiet_run t.
Proof.
  unfold quiet_run, count. induction t as [|e t IH]; [now split|].
  cbn [forallb filter]. intros Ha. apply andb_prop in Ha as [He Ht].
  destruct e; try discriminate He; cbn [is_sms is_log_attempt];
    [exact (IH Ht)|].
  cbn [is_model_or_log] in He. apply negb_true_iff in He. rewrite He.
  exact (IH Ht).
Qed.

Section ModelEvents.
Context `{CaseMap} `{Json}.
Variable gemini : list event -> prompt -> option str.

Lemma safe_generate_events (p : prompt) (h : list event) :
  forallb is_model_or_log (trace (_safe_generate_content gemini p) h) = true.
Proof.
  unfold trace. destruct (gemini h p) as [t|] eqn:Hg.
  - erewrite safe_generate_returns by eassumption. reflexivity.
  - erewrite safe_generate_raises by eassumption. vm_compute. reflexivity.
Qed.

Lemma ai_classify_events (m : str) (b : pyval) (h : list event) :
  forallb is_model_or_log (trace (_ai_classify_intent gemini m b) h) = true.
Proof.
  unfold _ai_classify_intent.
  destruct (classify_prompt m b) as [p|]; [|vm_compute; reflexivity].
  rewrite trace_bind, forallb_app, safe_generate_events.
  destruct (nonempty (value (_safe_generate_content gemini p) h)) as [t|];
    [|reflexivity].
  destruct (intent_of_reply t); [reflexivity | vm_compute; reflexivity].
Qed.

Lemma classify_intent_events (m : str) (b : pyval) (h : list event) :
  forallb is_model_or_log (trace (classify_intent gemini m b) h) = true.
Proof.
  destruct (exceeds_threshold m) eqn:Hex.
  - destruct (classify_intent_keyword_path gemini m b Hex)
      as (top & kws & _ & _ & _ & Heq).
    rewrite Heq. reflexivity.
  - rewrite (classify_intent_model_path gemini m b Hex).
    apply ai_classify_events.
Qed.

Lemma french_response_events (m : str) (b : pyval) (i : MessageIntent)
      (h : list event) :
  forallb is_model_or_log (trace (_generate_french_response gemini m b i) h)
  = true.
Proof.
  unfold _generate_french_response.
  destruct (french_prompt m b i) as [p|]; [|vm_compute; reflexivity].
  rewrite trace_bind, forallb_app, safe_generate_events. reflexivity.
Qed.

Lemma english_response_events (m : str) (b : pyval) (i : MessageIntent)
      (h : list event) :
  forallb is_model_or_log (trace (_generate_english_response gemini m b i) h)
  = true.
Proof.
  unfold _generate_english_response.
  destruct (english_prompt m b i) as [p|]; [|vm_compute; reflexivity].
  rewrite trace_bind, forallb_app, safe_generate_events. reflexivity.
Qed.

(** [generate_response] talks to the model and to the log only. *)
Lemma generate_response_events (m : str) (b : pyval) (h : list event) :
  forallb is_model_or_log (trace (generate_response gemini m b) h) = true.
Proof.
  pose proof (generate_response_run gemini m b h) as Hrun.
  cbv zeta in Hrun. destruct Hrun as [_ Ht]. rewrite Ht, forallb_app.
  rewrite classify_intent_events.
  destruct (str_eqb (detect_language m) (u "french"));
    [apply french_response_events | apply english_response_events].
Qed.

End ModelEvents.

Lemma emits_then {A B} (m : E A) (k : A -> E B)
      (P R' R : list event -> Prop) :
  emits m P -> (forall a, emits (k a) R') ->
  (forall t, P t -> R t) ->
  (forall t t', P t -> R' t' -> R (t ++ t')) ->
  emits (bindE m k) R.
Proof.
  intros Hm Hk Hstop Hgo. unfold emits.
  apply sat_bindE with (P := fun _ t => P t).
  - exact Hm.
  - intros a t Ht. eapply sat_weaken; [exact (Hk a)|].
    intros r t' Ht'. now apply Hgo.
  - intros e t Ht. now apply Hstop.
Qed.

Lemma emits_then_lift {A B} (m : M A) (k : A -> E B)
      (P R' R : list event -> Prop) :
  emits m P -> (forall a, emits (k a) R') ->
  (forall t t', P t -> R' t' -> R (t ++ t')) ->
  emits (bindE (lift m) k) R.
Proof.
  intros Hm Hk Hgo h. rewrite trace_bindE, value_lift, trace_lift.
  apply Hgo; [apply Hm | apply Hk].
Qed.

Lemma emits_lift {A} (m : M A) (P : list event -> Prop) :
  emits m P -> emits (lift m) P.
Proof. intros Hm h. rewrite trace_lift. apply Hm. Qed.

Lemma emits_caught {A} (m : E A) (handler : exn -> M A)
      (P R' R : list event -> Prop) :
  emits m P -> (forall e, emits (handler e) R') ->
  (forall t, P t -> R t) ->
  (forall t t', P t -> R' t' -> R (t ++ t')) ->
  emits (try_except m handler) R.
Proof.
  intros Hm Hh Hstop Hgo h. rewrite trace_try_except.
  destruct (value m h) as [a|e].
  - rewrite app_nil_r. apply Hstop, Hm.
  - apply Hgo; [apply Hm | apply Hh].
Qed.

Section MainPipeline.
Context `{CaseMap} `{Json} `{Digits}.
Variable gemini : list event -> prompt -> option str.
Variable sqlite : list event -> str -> list pyval -> sql_result.
Variable client : option (list event -> str -> str -> pyval -> twilio_result).
Variable elapsed_ms : list event -> Z.

Lemma silent_log (lvl : level) (line : str) :
  str_eqb line logging_error = false ->
  emits (emit (EvLog lvl line)) silent.
Proof.
  intros Hline h. unfold silent, quiet_run, count.
  rewrite trace_emit. cbn [filter is_sms is_log_attempt is_generate].
  rewrite Hline. now repeat split.
Qed.

Lemma quiet_log (lvl : level) (line : str) :
  str_eqb line logging_error = false ->
  emits (emit (EvLog lvl line)) quiet_run.
Proof. intros Hline h. now apply silent_log. Qed.

Lemma quiet_lookup (phone : pyval) :
  emits (get_business_by_phone sqlite phone) quiet_run.
Proof.
  intros h.
  destruct (get_business_by_phone_trace sqlite phone h) as [Ht|[Ht|Ht]];
    rewrite Ht; split; vm_compute; reflexivity.
Qed.

Lemma quiet_reply (m : str) (b : pyval) :
  emits (generate_response gemini m b) quiet_run.
Proof. intros h. apply model_or_log_quiet, generate_response_events. Qed.

(** [log_conversation] leaves the INSERT, the INSERT and the error, or,
    without a cursor, the error alone. *)
Lemma logged_insert (conversation_data : list (str * pyval)) (ms : pyval) :
  emits (log_conversation sqlite conversation_data ms) logged.
Proof.
  intros h. unfold logged, log_conversation, execute, trace, bind, history,
    emit, ret.
  cbn [fst snd].
  match goal with
  | |- context [sqlite ?h' ?s ?p] => destruct (sqlite h' s p)
  end; cbn [fst snd app]; (split; [|split; [|split]]); vm_compute; lia.
Qed.

Lemma sending_sms (to_phone from_phone : option str) (message : pyval) :
  emits (send_sms client to_phone from_phone message) (sending client).
Proof.
  intros h. unfold sending, send_sms, trace, bind, history, emit, ret.
  destruct client as [create|]; cbn [fst snd].
  - destruct (create h (format_phone_number to_phone)
                     (format_phone_number from_phone) message);
      cbn [fst snd app]; (split; [|split]); vm_compute; reflexivity.
  - (split; [|split]); vm_compute; reflexivity.
Qed.

Lemma quiet_orderly (t : list event) : quiet_run t -> orderly client t.
Proof.
  intros Hq. pose proof (quiet_not_late Hq) as Hlate. destruct Hq as [Hs Hi].
  unfold orderly. pose proof (count_insert_le t) as Hle.
  rewrite Hs, Hi. split; [now apply sms_after_log_none|].
  split; [now apply prompts_first_early|].
  split; [lia | now destruct client].
Qed.

Lemma quiet_then_orderly (t t' : list event) :
  quiet_run t -> orderly client t' -> orderly client (t ++ t').
Proof.
  intros Hq (Ho & Hp & Hle & Heq).
  pose proof (quiet_not_late Hq) as Hlate. destruct Hq as [Hs Hi].
  unfold orderly.
  pose proof (count_insert_le t) as Hins.
  rewrite sms_after_log_app, prompts_first_app, !count_app, Hs, Hi.
  rewrite (sms_after_log_none t false Hs), (count_none _ _ Hi).
  rewrite (prompts_first_early _ Hlate), Hlate.
  cbn [orb andb plus].
  split; [exact Ho|]. split; [exact Hp|]. split; [lia | exact Heq].
Qed.

Lemma orderly_then_silent (t t' : list event) :
  orderly client t -> silent t' -> orderly client (t ++ t').
Proof.
  intros (Ho & Hp & Hle & Heq) [[Hs Hi] Hg]. unfold orderly.
  pose proof (count_insert_le t') as Hins.
  rewrite sms_after_log_app, prompts_first_app, !count_app.
  rewrite Hs, Hi, Ho, Hp, !Nat.add_0_r.
  rewrite (sms_after_log_none t' _ Hs), (prompts_first_none t' _ Hg).
  split; [reflexivity|]. split; [reflexivity|]. split; [lia | exact Heq].
Qed.

Lemma logged_then_sending (t t' : list event) :
  logged t -> sending client t' -> orderly client (t ++ t').
Proof.
  intros (Hs & Hi & Hins & Hg) (Hs' & Hi' & Hg'). unfold orderly.
  pose proof (count_insert_le t') as Hins'.
  rewrite sms_after_log_app, !count_app, Hs, Hs', Hi'.
  rewrite (sms_after_log_none t false Hs).
  rewrite (existsb_count is_log_attempt t) by lia.
  cbn [orb andb]. rewrite sms_after_log_seen.
  split; [reflexivity|].
  split; [apply prompts_first_none; rewrite count_app, Hg, Hg'; reflexivity|].
  split; [lia | destruct client; lia].
Qed.

Lemma sending_then_silent (t t' : list event) :
  sending client t -> silent t' -> sending client (t ++ t').
Proof.
  intros (Hs & Hi & Hg) [[Hs' Hi'] Hg']. unfold sending.
  rewrite !count_app, Hs, Hi, Hg, Hs', Hi', Hg'.
  split; [now destruct client | now split].
Qed.

Lemma silent_then_silent (t t' : list event) :
  silent t -> silent t' -> silent (t ++ t').
Proof.
  intros [[Hs Hi] Hg] [[Hs' Hi'] Hg']. unfold silent, quiet_run.
  now rewrite !count_app, Hs, Hi, Hg, Hs', Hi', Hg'.
Qed.

Lemma quiet_nil : quiet_run [].
Proof. now split. Qed.

Lemma silent_nil : silent [].
Proof. now repeat split. Qed.

Ltac logs_quietly := apply quiet_log; vm_compute; reflexivity.
Ltac logs_silently := apply silent_log; vm_compute; reflexivity.

Lemma process_sms_message_orderly (data : sms_data) :
  emits (process_sms_message gemini sqlite client elapsed_ms data)
        (orderly client).
Proof.
  unfold process_sms_message.
  apply emits_caught with (P := orderly client) (R' := silent);
    [| intros e; logs_silently | auto | apply orderly_then_silent].
  cbv zeta.
  apply emits_then_lift with (P := quiet_run) (R' := orderly client);
    [logs_quietly | intros _ | apply quiet_then_orderly].
  apply emits_then_lift with (P := quiet_run) (R' := orderly client);
    [apply quiet_lookup | intros business | apply quiet_then_orderly].
  destruct (negb (truthy business)).
  { apply emits_lift. intros h. apply quiet_orderly. revert h. logs_quietly. }
  apply emits_then_lift with (P := quiet_run) (R' := orderly client);
    [apply quiet_reply | intros ai_response | apply quiet_then_orderly].
  apply emits_then_lift with (P := quiet_run) (R' := orderly client);
    [intros h; apply quiet_nil | intros now | apply quiet_then_orderly].
  apply emits_then with (P := quiet_run) (R' := orderly client);
    [intros h; apply quiet_nil | intros business_id | apply quiet_orderly
    | apply quiet_then_orderly].
  cbv zeta.
  apply emits_then_lift with (P := logged) (R' := sending client);
    [apply logged_insert | intros _ | apply logged_then_sending].
  apply emits_then_lift with (P := sending client) (R' := silent);
    [apply sending_sms | intros sms_result | apply sending_then_silent].
  apply emits_then_lift with (P := silent) (R' := silent);
    [logs_silently | intros _ | apply silent_then_silent].
  apply emits_then_lift with (P := silent) (R' := silent);
    [logs_silently | intros _ | apply silent_then_silent].
  apply emits_then with (P := silent) (R' := silent);
    [intros h; apply silent_nil | intros _ | auto | apply silent_then_silent].
  apply emits_then_lift with (P := silent) (R' := silent);
    [logs_silently | intros _ | apply silent_then_silent].
  apply emits_then_lift with (P := silent) (R' := silent);
    [logs_silently | intros _ | apply silent_then_silent].
  destruct (truthy (escalate ai_response)).
  - apply emits_lift. logs_silently.
  - intros h. apply silent_nil.
Qed.

(** X18. In [process_sms_message] of [main.py] every SMS follows
    [log_conversation]: before the reply is handed to Twilio, the INSERT
    was passed to [cursor.execute] or, when that was not reached, the
    failure was logged.  A run executes the INSERT at most once, and
    with a Twilio client it sends one SMS exactly when
    [log_conversation] has run, whether or not the row was written (the
    result of [log_conversation] is not read); without a client nothing
    is sent. *)
Theorem sms_follows_logging (data : sms_data) (h : list event) :
  let t := trace (process_sms_message gemini sqlite client elapsed_ms data) h in
  (forall pre x post,
      t = pre ++ x :: post -> is_sms x = true ->
      existsb is_log_attempt pre = true) /\
  count is_insert t <= 1 /\
  count is_sms t = match client with
                   | Some _ => Nat.min 1 (count is_log_attempt t)
                   | None => 0
                   end.
Proof.
  cbv zeta.
  destruct (process_sms_message_orderly data h) as (Ho & _ & Hle & Heq).
  split; [|split; assumption].
  intros pre x post Ht Hx.
  change (false || existsb is_log_attempt pre = true).
  eapply sms_after_log_spec; eassumption.
Qed.

End MainPipeline.

Section MainRoute.
Context `{CaseMap} `{Json} `{Digits}.
Variable gemini : list event -> prompt -> option str.
Variable sqlite : list event -> str -> list pyval -> sql_result.
Variable client : option (list event -> str -> str -> pyval -> twilio_result).
Variable elapsed_ms : list event -> Z.



End MainRoute.

(** ** Logging comes before sending *)

(** C7, as the code has it.  The interaction is logged before the reply
    is sent, on both SMS paths.  In [process_and_respond_sms] of
    [webhook_handler.py] a call of [send_sms] comes only after a call of
    [log_interaction]: the row is logged inside [process_message], the
    reply is sent after it has returned.  In [process_sms_message] of
    [main.py] the model is asked, to classify and to reply, before
    anything is logged or sent, and the reply is handed to Twilio only
    after [log_conversation] has run. *)
Theorem log_precedes_send `{Repr} `{CaseMap} `{Json} `{Digits}
        (gemini : list event -> prompt -> option str)
        (sqlite : list event -> str -> list pyval -> sql_result)
        (client : option (list event -> str -> str -> pyval -> twilio_result))
        (elapsed_ms : list event -> Z)
        (db : DbObject) (ai : AiObject) (twilio : SmsObject)
        (notify_business_owner : option method)
        (message_data : list (str * pyval)) (data : sms_data)
        (h : list event) :
  (quiet_db db -> quiet_ai ai -> quiet (sms_send_sms twilio) ->
   quiet notify_business_owner ->
   forall pre x post,
     trace (process_and_respond_sms db ai twilio notify_business_owner
                                    message_data) h = pre ++ x :: post ->
     is_call (u "send_sms") x = true ->
     logs pre = true) /\
  (forall pre x post,
     trace (process_sms_message gemini sqlite client elapsed_ms data) h
     = pre ++ x :: post ->
     (is_generate x = true ->
      existsb is_log_attempt pre = false /\ existsb is_sms pre = false) /\
     (is_sms x = true -> existsb is_log_attempt pre = true)).
Proof.
  split.
  - intros Hdb Hai Hsms Hnotify.
    exact (@send_after_log _ db ai twilio Hdb Hai Hsms notify_business_owner
             message_data h Hnotify).
  - destruct (process_sms_message_orderly gemini sqlite client elapsed_ms data h)
      as (Ho & Hp & _ & _).
    intros pre x post Ht. split; intros Hx.
    + pose proof (@prompts_first_spec _ false Hp pre x post Ht Hx) as Hlate.
      cbn [orb] in Hlate. clear - Hlate.
      induction pre as [|e pre IH]; [now split|].
      cbn [existsb] in *. apply orb_false_elim in Hlate as [He Hrest].
      unfold is_late in He. apply orb_false_elim in He as [Ha Hs].
      rewrite Ha, Hs. exact (IH Hrest).
    + change (false || existsb is_log_attempt pre = true).
      eapply sms_after_log_spec; eassumption.
Qed.

(** With stand-ins that answer, the row is logged and then the reply is
    sent. *)
Lemma log_precedes_send_witness :
  let t := trace (@process_and_respond_sms PlainRepr StubDatabase StubAI StubSMS
                    None demo_message) [] in
  nth_error (calls t) 5 = Some (u "send_sms") /\ logs (firstn 7 t) = true.
Proof.
  split; [vm_compute; reflexivity|].
  pose proof (@log_precedes_send PlainRepr LatinCase DemoJson AsciiDigits
                (fun _ _ => None) demo_sqlite None (fun _ => 0%Z)
                StubDatabase StubAI StubSMS None demo_message demo_sms [])
    as [Horder _].
  apply (Horder StubDatabase_quiet StubAI_quiet StubSMS_quiet none_quiet
           (firstn 7 (trace (@process_and_respond_sms PlainRepr StubDatabase StubAI
                               StubSMS None demo_message) []))
           (EvCall (u "send_sms")
                   [OVal (PStr (u "+15145550199")); OVal (PStr (u "+15145550100"));
                    OVal (PStr (u "Hello!"))])
           (skipn 8 (trace (@process_and_respond_sms PlainRepr StubDatabase StubAI
                              StubSMS None demo_message) [])));
    vm_compute; reflexivity.
Defined.

(** The repository's own [Database], [AIProcessor] and [TwilioSMS],
    around a database that holds the business, a model that cannot be
    reached and a Twilio client that accepts the message:
    [process_sms_message] executes the INSERT of the conversation, and
    the next thing it does is to hand the reply to Twilio. *)
Lemma log_precedes_send_counterexample :
  let t := trace (@process_sms_message LatinCase DemoJson AsciiDigits
                    (fun _ _ => None) demo_sqlite (Some demo_client)
                    (fun _ => 0%Z) demo_sms) [] in
  (exists params, nth_error t 6 = Some (EvSql insert_conversation params)) /\
  nth_error t 7
  = Some (EvSms (u "+15145550199") (u "+15145550100")
                (OVal (PStr (u "Thanks for reaching out! How can I help you today?")))).
Proof. vm_compute. split; [eexists; reflexivity | reflexivity]. Qed.
